(** * A shallow embedding of the simple CIDR calculator

    The calculator (calculator.go, models.go, and validateConfig of the
    command line) parses an IPv4 block in CIDR notation and derives the
    network id, the masks, the broadcast address, the usable host range,
    the host count and the two subnets of the next prefix level.

    Go values are modelled as follows:
    - [byte], [uint32], [int] and [uint] are integers of [Z] with the
      wrap-around written out ([u8], [u32], [int], [uint]);
    - [net.IP] and [net.IPMask] are lists of bytes; a nil slice is the
      empty list (the calculator only takes [len], ranges and indexes; the
      Validate methods of models.go compare with nil, and take that test
      as a parameter, fixed only on slices that are not empty);
    - a Go string is a [string], compared byte by byte;
    - a run-time panic (index out of range) is the outcome [Panic];
    - an [error] is a value of the type [error], one constructor per
      [fmt.Errorf] site, rendered by [Error]. *)

From Stdlib Require Import ZArith Lia String Ascii Bool.
From stdpp Require Import base list strings.

Local Open Scope Z_scope.

(** ** Machine integers *)

Definition u8 (z : Z) : Z := z mod 256.
Definition u32 (z : Z) : Z := z mod 2 ^ 32.
(** [uint(x)]: conversion to the 64-bit unsigned type. *)
Definition uint (z : Z) : Z := z mod 2 ^ 64.
(** Arithmetic on [int] wraps in two's complement on 64 bits. *)
Definition int (z : Z) : Z := (z + 2 ^ 63) mod 2 ^ 64 - 2 ^ 63.

(** [x << n] on [uint32], [n] an unsigned shift count: bits shifted out
    are lost, and a count of 32 or more gives 0. *)
Definition shl32 (x n : Z) : Z := if 32 <=? n then 0 else u32 (Z.shiftl x n).
(** [x >> n] on an unsigned value. *)
Definition shr (x n : Z) : Z := Z.shiftr x n.
(** [^b] on a byte. *)
Definition not8 (b : Z) : Z := Z.lxor b 255.

Definition isByte (b : Z) : bool := (0 <=? b) && (b <? 256).

(** ** Outcomes: a value, an error, or a run-time panic *)

Inductive error : Type :=
  | ErrEmpty                         (* validateCIDRFormat, cidr == "" *)
  | ErrExpectedFormat                (* no slash, or more than one *)
  | ErrInvalidIP (ipStr : string)    (* net.ParseIP returned nil *)
  | ErrIPv6Address                   (* validateCIDRFormat, To4() == nil *)
  | ErrInvalidPrefix (prefixStr : string)  (* strconv.Atoi failed *)
  | ErrPrefixRange (prefix : Z)      (* prefix < 0 || prefix > 32 *)
  | ErrNetParseCIDR (cidr : string)  (* ParseCIDR, net.ParseCIDR failed *)
  | ErrIPv6CIDR.                     (* ParseCIDR, To4() == nil *)

Inductive result (A : Type) : Type :=
  | Ok (a : A)
  | Err (e : error)
  | Panic.
Arguments Ok {A} a.
Arguments Err {A} e.
Arguments Panic {A}.

#[global] Instance result_ret : MRet result := fun A a => Ok a.
#[global] Instance result_bind : MBind result := fun A B f m =>
  match m with
  | Ok a => f a
  | Err e => Err e
  | Panic => Panic
  end.

(** [l[i]]: indexing panics out of range. *)
Definition index {A} (l : list A) (i : nat) : result A :=
  match l !! i with
  | Some x => Ok x
  | None => Panic
  end.

(** ** The part of Go's package net that the calculator uses *)

Module net.

Definition IP : Type := list Z.
Definition IPMask : Type := list Z.
Record IPNet : Type := mkIPNet { IPNet_IP : IP; IPNet_Mask : IPMask }.

Definition IPv4len : nat := 4.
Definition IPv6len : nat := 16.

(** The loop of [CIDRMask]: [n >= 8] gives 0xff, otherwise
    [^byte(0xff >> n)] and [n = 0]. *)
Fixpoint cidrMaskLoop (l : nat) (n : Z) : IPMask :=
  match l with
  | O => []
  | S l' =>
      if 8 <=? n then 255 :: cidrMaskLoop l' (n - 8)
      else not8 (shr 255 n) :: cidrMaskLoop l' 0
  end.

(** [net.CIDRMask(ones, bits)]: nil unless [bits] is 32 or 128 and
    [0 <= ones <= bits]. *)
Definition CIDRMask (ones bits : Z) : IPMask :=
  if negb (bits =? 32) && negb (bits =? 128) then []
  else if (ones <? 0) || (bits <? ones) then []
  else cidrMaskLoop (Z.to_nat (bits / 8)) (uint ones).

Definition isZeros (p : list Z) : bool := forallb (Z.eqb 0) p.
Definition allFF (p : list Z) : bool := forallb (Z.eqb 255) p.
Definition v4InV6Prefix : list Z := [0; 0; 0; 0; 0; 0; 0; 0; 0; 0; 255; 255].
Definition bytesEqual (a b : list Z) : bool := bool_decide (a = b).

(** [ip.To4()]: [None] is nil. *)
Definition To4 (ip : IP) : option IP :=
  if (length ip =? IPv4len)%nat then Some ip
  else if (length ip =? IPv6len)%nat && isZeros (take 10 ip)
          && bool_decide (ip !! 10%nat = Some 255)
          && bool_decide (ip !! 11%nat = Some 255)
  then Some (drop 12 ip)
  else None.

(** [ip.Mask(mask)]: nil when the lengths do not fit. *)
Definition Mask (ip : IP) (mask : IPMask) : IP :=
  let mask :=
    if (length mask =? IPv6len)%nat && (length ip =? IPv4len)%nat
       && allFF (take 12 mask)
    then drop 12 mask else mask in
  let ip :=
    if (length mask =? IPv4len)%nat && (length ip =? IPv6len)%nat
       && bytesEqual (take 12 ip) v4InV6Prefix
    then drop 12 ip else ip in
  if negb (length ip =? length mask)%nat then []
  else zip_with Z.land ip mask.

(** The inner loop of [simpleMaskLength]: counts the leading one bits of
    a byte, shifting it left; a byte is exhausted after 8 shifts. *)
Fixpoint countOnes (fuel : nat) (v n : Z) : Z * Z :=
  match fuel with
  | O => (v, n)
  | S fuel' =>
      if negb (Z.land v 128 =? 0) then countOnes fuel' (u8 (Z.shiftl v 1)) (n + 1)
      else (v, n)
  end.

Fixpoint simpleMaskLength (mask : IPMask) (n : Z) : Z :=
  match mask with
  | [] => n
  | v :: rest =>
      if v =? 255 then simpleMaskLength rest (n + 8)
      else
        let '(v', n') := countOnes 8 v n in
        if negb (v' =? 0) then -1
        else if negb (isZeros rest) then -1
        else n'
  end.

(** [m.Size()]. *)
Definition Size (m : IPMask) : Z * Z :=
  let ones := simpleMaskLength m 0 in
  let bits := Z.of_nat (length m) * 8 in
  if ones =? -1 then (0, 0) else (ones, bits).


(** Text: the byte value of a character and the digit tables. *)
Definition code (c : ascii) : Z := Z.of_N (N_of_ascii c).
Definition chr (z : Z) : ascii := ascii_of_N (Z.to_N z).
Definition isDigit (c : ascii) : bool := (48 <=? code c) && (code c <=? 57).
(** [digits[d]] for the table "0123456789abcdef". *)
Definition digitChar (d : Z) : ascii := if d <? 10 then chr (48 + d) else chr (87 + d).
Definition str1 (c : ascii) : string := String c EmptyString.

(** [appendDecimal]: a byte in decimal, without leading zeros. *)
Definition appendDecimal (x : Z) : string :=
  (if 100 <=? x then str1 (digitChar (x / 100)) else "")
  +:+ (if 10 <=? x then str1 (digitChar (x / 10 mod 10)) else "")
  +:+ str1 (digitChar (x mod 10)).

(** [appendHex]: a 16-bit group in hexadecimal, without leading zeros. *)
Definition appendHex (x : Z) : string :=
  (if 4096 <=? x then str1 (digitChar (shr x 12)) else "")
  +:+ (if 256 <=? x then str1 (digitChar (Z.land (shr x 8) 15)) else "")
  +:+ (if 16 <=? x then str1 (digitChar (Z.land (shr x 4) 15)) else "")
  +:+ str1 (digitChar (Z.land x 15)).

(** [hexString]: two hexadecimal digits per byte. *)
Fixpoint hexString (b : list Z) : string :=
  match b with
  | [] => ""
  | tn :: b' =>
      String (digitChar (shr tn 4)) (String (digitChar (Z.land tn 15)) (hexString b'))
  end.

(** The dotted form of four bytes. *)
Definition string4 (p4 : list Z) : string :=
  appendDecimal (default 0 (p4 !! 0%nat)) +:+ "."
  +:+ appendDecimal (default 0 (p4 !! 1%nat)) +:+ "."
  +:+ appendDecimal (default 0 (p4 !! 2%nat)) +:+ "."
  +:+ appendDecimal (default 0 (p4 !! 3%nat)).

(** The 16-bit groups of a 16-byte address. *)
Fixpoint v6u16 (ip : list Z) : list Z :=
  match ip with
  | hi :: lo :: ip' => (hi * 256 + lo) :: v6u16 ip'
  | _ => []
  end.

(** The number of zero groups at the head of [g]. *)
Fixpoint zeroRun (g : list Z) : nat :=
  match g with
  | 0 :: g' => S (zeroRun g')
  | _ => O
  end.

(** The first loop of [appendTo6]: the longest run of two or more zero
    groups, as (zeroStart, zeroEnd); (255, 255) when there is none. *)
Fixpoint longestZeros (n : nat) (i : nat) (g : list Z) (best : nat * nat) : nat * nat :=
  match n with
  | O => best
  | S n' =>
      let j := (i + zeroRun (drop i g))%nat in
      let l := (j - i)%nat in
      let best := if (2 <=? l)%nat && (snd best - fst best <? l)%nat then (i, j) else best in
      longestZeros n' (S i) g best
  end.

(** The second loop of [appendTo6]. *)
Fixpoint groupsLoop (fuel : nat) (i : nat) (g : list Z) (zeros : nat * nat) : string :=
  match fuel with
  | O => ""
  | S fuel' =>
      if (8 <=? i)%nat then ""
      else if (i =? fst zeros)%nat then
        let i := snd zeros in
        if (8 <=? i)%nat then "::"
        else "::" +:+ appendHex (default 0 (g !! i)) +:+ groupsLoop fuel' (S i) g zeros
      else
        (if (0 <? i)%nat then ":" else "")
        +:+ appendHex (default 0 (g !! i)) +:+ groupsLoop fuel' (S i) g zeros
  end.

Definition string6 (ip : list Z) : string :=
  let g := v6u16 ip in
  groupsLoop 8 0 g (longestZeros 8 0 g (255%nat, 255%nat)).

(** [ip.String()]. *)
Definition String_ (ip : IP) : string :=
  if (length ip =? 0)%nat then "<nil>"
  else if negb (length ip =? IPv4len)%nat && negb (length ip =? IPv6len)%nat
  then "?" +:+ hexString ip
  else
    match To4 ip with
    | Some p4 => string4 p4
    | None => string6 ip
    end.


(** *** Parsing addresses (net/netip) *)

(** [parseIPv4Fields]: a loop over the bytes of the text with the value
    and the number of digits of the current field and the index [pos] of
    the field; [prev] is the byte before the current one ([None] at index
    0). [None] stands for every parse error. *)
Fixpoint parseIPv4Loop (s : string) (prev : option ascii) (val : Z) (pos : nat)
    (digLen : Z) (fields : list Z) : option (list Z) :=
  match s with
  | EmptyString =>
      if (pos <? 3)%nat then None else Some (<[3%nat := u8 val]> fields)
  | String c s' =>
      if isDigit c then
        if (digLen =? 1) && (val =? 0) then None
        else
          let val := val * 10 + (code c - 48) in
          let digLen := digLen + 1 in
          if 255 <? val then None
          else parseIPv4Loop s' (Some c) val pos digLen fields
      else if Ascii.eqb c "." then
        if bool_decide (prev = None) || bool_decide (s' = EmptyString)
           || bool_decide (prev = Some "."%char)
        then None
        else if (pos =? 3)%nat then None
        else parseIPv4Loop s' (Some c) 0 (S pos) 0 (<[pos := u8 val]> fields)
      else None
  end.

Definition parseIPv4 (s : string) : option (list Z) :=
  parseIPv4Loop s None 0 0 0 [0; 0; 0; 0].

Definition hexVal (c : ascii) : option Z :=
  if (48 <=? code c) && (code c <=? 57) then Some (code c - 48)
  else if (97 <=? code c) && (code c <=? 102) then Some (code c - 97 + 10)
  else if (65 <=? code c) && (code c <=? 70) then Some (code c - 65 + 10)
  else None.

(** The hexadecimal number at the head of [s]: the number of digits, the
    value and the rest of the text; [None] on more than four digits or a
    value over 0xffff. *)
Fixpoint hexGroup (s : string) (off acc : Z) : option (Z * Z * string) :=
  match s with
  | EmptyString => Some (off, acc, s)
  | String c s' =>
      match hexVal c with
      | None => Some (off, acc, s)
      | Some d =>
          let acc := u32 (shl32 acc 4 + d) in
          if 3 <? off then None
          else if 65535 <? acc then None
          else hexGroup s' (off + 1) acc
      end
  end.

(** The state when the loop of [parseIPv6] is left: the rest of the
    text, the bytes parsed so far (the index [i] of the source is their
    number) and the position of the ellipsis. *)
Definition v6state : Type := string * list Z * option nat.

Fixpoint parseIPv6Loop (fuel : nat) (s : string) (ip : list Z) (ellipsis : option nat)
  : option v6state :=
  match fuel with
  | O => None
  | S fuel' =>
      if (16 <=? length ip)%nat then Some (s, ip, ellipsis)
      else
        match hexGroup s 0 0 with
        | None => None
        | Some (off, acc, rest) =>
            if off =? 0 then None
            else
              match rest with
              | String "."%char _ =>
                  (* a trailing IPv4 address *)
                  if bool_decide (ellipsis = None) && negb (length ip =? 12)%nat then None
                  else if (16 <? length ip + 4)%nat then None
                  else
                    match parseIPv4 s with
                    | None => None
                    | Some f => Some (EmptyString, ip ++ f, ellipsis)
                    end
              | _ =>
                  let ip := ip ++ [u8 (shr acc 8); u8 acc] in
                  match rest with
                  | EmptyString => Some (EmptyString, ip, ellipsis)
                  | String c rest1 =>
                      if negb (Ascii.eqb c ":") then None
                      else
                        match rest1 with
                        | EmptyString => None
                        | String ":"%char rest2 =>
                            match ellipsis with
                            | Some _ => None
                            | None =>
                                match rest2 with
                                | EmptyString => Some (EmptyString, ip, Some (length ip))
                                | _ => parseIPv6Loop fuel' rest2 ip (Some (length ip))
                                end
                            end
                        | _ => parseIPv6Loop fuel' rest1 ip ellipsis
                        end
                  end
              end
        end
  end.

(** The text before the first '%' and, when there is one, the text
    after it. *)
Fixpoint cutZone (s : string) : string * option string :=
  match s with
  | EmptyString => (EmptyString, None)
  | String c s' =>
      if Ascii.eqb c "%" then (EmptyString, Some s')
      else let '(a, z) := cutZone s' in (String c a, z)
  end.

(** [parseIPv6]: the 16 bytes and the zone. *)
Definition parseIPv6 (input : string) : option (list Z * string) :=
  let '(s, z) := cutZone input in
  if bool_decide (z = Some EmptyString) then None
  else
    let zone := default EmptyString z in
    let leading :=
      match s with
      | String ":"%char (String ":"%char s') => Some s'
      | _ => None
      end in
    let expand (st : v6state) : option (list Z * string) :=
      let '(s, ip, ellipsis) := st in
      if negb (bool_decide (s = EmptyString)) then None
      else if (length ip <? 16)%nat then
        match ellipsis with
        | None => None
        | Some e =>
            Some (take e ip ++ replicate (16 - length ip) 0 ++ drop e ip, zone)
        end
      else
        match ellipsis with
        | Some _ => None
        | None => Some (ip, zone)
        end in
    match leading with
    | Some EmptyString => Some (replicate 16 0, zone)
    | Some s' => parseIPv6Loop 9 s' [] (Some 0%nat) ≫= expand
    | None => parseIPv6Loop 9 s [] None ≫= expand
    end.

(** [netip.Addr]: a 4-byte address, or a 16-byte address with its zone. *)
Inductive Addr : Type :=
  | Addr4 (fields : list Z)
  | Addr6 (ip : list Z) (zone : string).

(** [netip.ParseAddr]: the first of '.', ':' and '%' in the text decides
    how it is parsed. *)
Fixpoint parseAddrScan (rest s : string) : option Addr :=
  match rest with
  | EmptyString => None
  | String c rest' =>
      if Ascii.eqb c "." then Addr4 <$> parseIPv4 s
      else if Ascii.eqb c ":" then (fun '(ip, zone) => Addr6 ip zone) <$> parseIPv6 s
      else if Ascii.eqb c "%" then None
      else parseAddrScan rest' s
  end.

Definition ParseAddr (s : string) : option Addr := parseAddrScan s s.

Definition Zone (a : Addr) : string :=
  match a with
  | Addr4 _ => EmptyString
  | Addr6 _ zone => zone
  end.

Definition As16 (a : Addr) : list Z :=
  match a with
  | Addr4 fields => v4InV6Prefix ++ fields
  | Addr6 ip _ => ip
  end.

Definition BitLen (a : Addr) : Z :=
  match a with
  | Addr4 _ => 32
  | Addr6 _ _ => 128
  end.

(** [net.ParseIP]: the 16-byte form of the address; [None] is nil. *)
Definition ParseIP (s : string) : option IP :=
  match ParseAddr s with
  | Some a => if bool_decide (Zone a = EmptyString) then Some (As16 a) else None
  | None => None
  end.

(** [dtoi]: the decimal number at the head of the text, the number of
    bytes read and a flag. *)
Definition big : Z := 16777215.

Fixpoint dtoiLoop (s : string) (n i : Z) : Z * Z * bool :=
  match s with
  | String c s' =>
      if isDigit c then
        let n := n * 10 + (code c - 48) in
        if big <=? n then (big, i, false) else dtoiLoop s' n (i + 1)
      else if i =? 0 then (0, 0, false) else (n, i, true)
  | EmptyString => if i =? 0 then (0, 0, false) else (n, i, true)
  end.

Definition dtoi (s : string) : Z * Z * bool := dtoiLoop s 0 0.

(** [strings.Cut(s, "/")]. *)
Fixpoint cutSlash (s : string) : option (string * string) :=
  match s with
  | EmptyString => None
  | String c s' =>
      if Ascii.eqb c "/" then Some (EmptyString, s')
      else (fun '(a, b) => (String c a, b)) <$> cutSlash s'
  end.

(** [net.ParseCIDR]: the address and the network. *)
Definition ParseCIDR (s : string) : option (IP * IPNet) :=
  match cutSlash s with
  | None => None
  | Some (addr, mask) =>
      match ParseAddr addr with
      | None => None
      | Some ipAddr =>
          if negb (bool_decide (Zone ipAddr = EmptyString)) then None
          else
            let '(n, i, ok) := dtoi mask in
            if negb ok || negb (i =? Z.of_nat (String.length mask))
               || (n <? 0) || (BitLen ipAddr <? n)
            then None
            else
              let m := CIDRMask n (BitLen ipAddr) in
              let addr16 := As16 ipAddr in
              Some (addr16, mkIPNet (Mask addr16 m) m)
      end
  end.

End net.

(** ** models.go *)

Record NetworkInfo : Type := mkNetworkInfo {
  Network : net.IPNet;
  NetworkID : net.IP;
  BroadcastAddr : net.IP;
  SubnetMask : net.IPMask;
  WildcardMask : net.IPMask;
  FirstUsableIP : net.IP;
  LastUsableIP : net.IP;
  TotalHosts : Z;      (* uint32 *)
  PrefixLength : Z     (* int *)
}.

Record SubnetInfo : Type := mkSubnetInfo {
  SubnetNetworkID : net.IP;
  CIDR : string;
  SubnetBroadcastAddr : net.IP
}.

(** ** calculator.go: address arithmetic *)

(** calculateWildcardMask: the complement of every byte of the mask. *)
Definition calculateWildcardMask (subnetMask : net.IPMask) : net.IPMask :=
  map not8 subnetMask.

(** The loop [broadcast[i] = networkID[i] | wildcardMask[i]] over the
    indices of [networkID]; it panics when [wildcardMask] is shorter. *)
Fixpoint orLoop (networkID : net.IP) (wildcardMask : net.IPMask) : result net.IP :=
  match networkID with
  | [] => Ok []
  | b :: networkID' =>
      match wildcardMask with
      | [] => Panic
      | w :: wildcardMask' =>
          rest ← orLoop networkID' wildcardMask';
          Ok (Z.lor b w :: rest)
      end
  end.

Definition calculateBroadcastAddress (networkID : net.IP) (wildcardMask : net.IPMask)
  : result net.IP :=
  orLoop networkID wildcardMask.

(** incrementIP: [for i := len(result) - 1; i >= 0; i--], the argument
    [n] is [i + 1]. *)
Fixpoint incrementLoop (n : nat) (result : net.IP) : net.IP :=
  match n with
  | O => result
  | S i =>
      let result := <[i := u8 (default 0 (result !! i) + 1)]> result in
      if negb (default 0 (result !! i) =? 0) then result
      else incrementLoop i result
  end.

Definition incrementIP (ip : net.IP) : net.IP :=
  incrementLoop (length ip) ip.

(** decrementIP, with the same loop header. *)
Fixpoint decrementLoop (n : nat) (result : net.IP) : net.IP :=
  match n with
  | O => result
  | S i =>
      if negb (default 0 (result !! i) =? 0)
      then <[i := u8 (default 0 (result !! i) - 1)]> result
      else decrementLoop i (<[i := 255]> result)
  end.

Definition decrementIP (ip : net.IP) : net.IP :=
  decrementLoop (length ip) ip.

(** addToIP: the first four bytes as a big-endian uint32, plus [value],
    written back; indexing a shorter slice panics. *)
Definition addToIP (ip : net.IP) (value : Z) : result net.IP :=
  r0 ← index ip 0;
  r1 ← index ip 1;
  r2 ← index ip 2;
  r3 ← index ip 3;
  let ipUint32 := u32 (u32 (u32 (shl32 r0 24 + shl32 r1 16) + shl32 r2 8) + r3) in
  let ipUint32 := u32 (ipUint32 + value) in
  let result := <[0%nat := u8 (shr ipUint32 24)]> ip in
  let result := <[1%nat := u8 (shr ipUint32 16)]> result in
  let result := <[2%nat := u8 (shr ipUint32 8)]> result in
  let result := <[3%nat := u8 ipUint32]> result in
  Ok result.

(** calculateSubnetBroadcast. *)
Definition calculateSubnetBroadcast (networkID : net.IP) (prefixLength : Z)
  : result net.IP :=
  let subnetMask := net.CIDRMask prefixLength 32 in
  let wildcardMask := calculateWildcardMask subnetMask in
  orLoop networkID wildcardMask.

(** calculateUsableRange: the switch on the prefix length; the record is
    updated in place in the source, here the updated record is returned. *)
Definition calculateUsableRange (info : NetworkInfo) : NetworkInfo :=
  let set first last total :=
    mkNetworkInfo (Network info) (NetworkID info) (BroadcastAddr info)
      (SubnetMask info) (WildcardMask info) first last total (PrefixLength info) in
  if PrefixLength info =? 32 then
    set (NetworkID info) (NetworkID info) 1
  else if PrefixLength info =? 31 then
    set (NetworkID info) (BroadcastAddr info) 2
  else
    let first := incrementIP (NetworkID info) in
    let last := decrementIP (BroadcastAddr info) in
    let hostBits := int (32 - PrefixLength info) in
    if 30 <=? hostBits then
      set first last (u32 (shl32 1 (uint hostBits) - 2))
    else
      set first last (u32 (shl32 1 (uint hostBits) - 2)).

(** ** strconv and fmt *)

Module strconv.

(** The decimal digits of a non-negative number, most significant first. *)
Fixpoint utoa (fuel : nat) (n : Z) (acc : string) : string :=
  match fuel with
  | O => acc
  | S fuel' =>
      let acc := String (net.digitChar (n mod 10)) acc in
      if n / 10 =? 0 then acc else utoa fuel' (n / 10) acc
  end.

(** [strconv.Itoa], which is also the verb %d on an [int]; 20 digits are
    enough for 64 bits. *)
Definition Itoa (n : Z) : string :=
  if n <? 0 then "-" +:+ utoa 20 (- n) "" else utoa 20 n "".

(** The value of a string of decimal digits; [None] on any other byte. *)
Fixpoint digitsValue (s : string) (n : Z) : option Z :=
  match s with
  | EmptyString => Some n
  | String ch s' =>
      if net.isDigit ch then digitsValue s' (n * 10 + (net.code ch - 48)) else None
  end.

(** [strconv.Atoi]: an optional sign, then one or more decimal digits;
    [None] stands for a syntax error or a value that does not fit [int]. *)
Definition Atoi (s : string) : option Z :=
  match s with
  | EmptyString => None
  | String c s' =>
      let neg := Ascii.eqb c "-" in
      let body := if neg || Ascii.eqb c "+" then s' else s in
      match body with
      | EmptyString => None
      | _ =>
          match digitsValue body 0 with
          | None => None
          | Some n =>
              let v := if neg then - n else n in
              if (- 2 ^ 63 <=? v) && (v <=? 2 ^ 63 - 1) then Some v else None
          end
      end
  end.

End strconv.

(** ** calculator.go: the subnets of the next prefix level *)

Definition nextPrefixLength (network : NetworkInfo) : Z :=
  int (PrefixLength network + 1).

(** [uint32(1) << uint(nextPrefixLength - network.PrefixLength)]. *)
Definition possibleSubnets (network : NetworkInfo) : Z :=
  shl32 1 (uint (int (nextPrefixLength network - PrefixLength network))).

Definition maxSubnetsToDisplay : Z := 100.

(** The guard of the branch that limits the display to 100 subnets. *)
Definition limitApplies (network : NetworkInfo) : bool :=
  (PrefixLength network <=? 16) && (maxSubnetsToDisplay <? possibleSubnets network).

(** The body of [for i := uint32(0); i < numSubnets; i++], run [n] more
    times from [currentNetworkID]. *)
Fixpoint subnetsLoop (n : nat) (next subnetSize : Z) (currentNetworkID : net.IP)
  : result (list SubnetInfo) :=
  match n with
  | O => Ok []
  | S n' =>
      broadcastAddr ← calculateSubnetBroadcast currentNetworkID next;
      let subnet :=
        mkSubnetInfo currentNetworkID
          (net.String_ currentNetworkID +:+ "/" +:+ strconv.Itoa next)
          broadcastAddr in
      currentNetworkID ← addToIP currentNetworkID subnetSize;
      subnets ← subnetsLoop n' next subnetSize currentNetworkID;
      Ok (subnet :: subnets)
  end.

Definition CalculateSubnets (network : NetworkInfo) : result (list SubnetInfo) :=
  if 32 <=? PrefixLength network then Ok []
  else
    let next := nextPrefixLength network in
    let subnetSize := shl32 1 (uint (int (32 - next))) in
    let numSubnets := possibleSubnets network in
    let numSubnets := if limitApplies network then maxSubnetsToDisplay else numSubnets in
    subnetsLoop (Z.to_nat numSubnets) next subnetSize (NetworkID network).

(** ** strings *)

Module strings.

(** [strings.Contains(s, "/")]. *)
Fixpoint ContainsSlash (s : string) : bool :=
  match s with
  | EmptyString => false
  | String c s' => Ascii.eqb c "/" || ContainsSlash s'
  end.

(** [strings.Split(s, "/")]: one more piece than there are separators. *)
Fixpoint SplitSlash (s : string) : list string :=
  match s with
  | EmptyString => [EmptyString]
  | String c s' =>
      if Ascii.eqb c "/" then EmptyString :: SplitSlash s'
      else
        match SplitSlash s' with
        | piece :: pieces => String c piece :: pieces
        | [] => [net.str1 c]
        end
  end.

End strings.

(** ** calculator.go: validation and ParseCIDR *)

(** validateCIDRFormat: [None] is the nil error. *)
Definition validateCIDRFormat (cidr : string) : option error :=
  if bool_decide (cidr = EmptyString) then Some ErrEmpty
  else if negb (strings.ContainsSlash cidr) then Some ErrExpectedFormat
  else
    match strings.SplitSlash cidr with
    | [ipStr; prefixStr] =>
        match net.ParseIP ipStr with
        | None => Some (ErrInvalidIP ipStr)
        | Some ip =>
            match net.To4 ip with
            | None => Some ErrIPv6Address
            | Some _ =>
                match strconv.Atoi prefixStr with
                | None => Some (ErrInvalidPrefix prefixStr)
                | Some prefix =>
                    if (prefix <? 0) || (32 <? prefix) then Some (ErrPrefixRange prefix)
                    else None
                end
            end
        end
    | _ => Some ErrExpectedFormat
    end.

Definition ParseCIDR (cidr : string) : result NetworkInfo :=
  match validateCIDRFormat cidr with
  | Some err => Err err
  | None =>
      match net.ParseCIDR cidr with
      | None => Err (ErrNetParseCIDR cidr)
      | Some (ip, ipNet) =>
          match net.To4 ip with
          | None => Err ErrIPv6CIDR
          | Some _ =>
              let prefixLength := fst (net.Size (net.IPNet_Mask ipNet)) in
              let wildcardMask := calculateWildcardMask (net.IPNet_Mask ipNet) in
              broadcastAddr ← calculateBroadcastAddress (net.IPNet_IP ipNet) wildcardMask;
              Ok (calculateUsableRange
                    (mkNetworkInfo ipNet (net.IPNet_IP ipNet) broadcastAddr
                       (net.IPNet_Mask ipNet) wildcardMask [] [] 0 prefixLength))
          end
      end
  end.

(** The message of an error, as [fmt.Errorf] builds it. *)
Definition Error (e : error) : string :=
  match e with
  | ErrEmpty => "CIDR notation cannot be empty"
  | ErrExpectedFormat =>
      "invalid CIDR notation. Expected format: x.x.x.x/y (e.g., 192.168.1.0/24)"
  | ErrInvalidIP ipStr => "invalid IP address format: " +:+ ipStr
  | ErrIPv6Address => "IPv6 is not supported, please provide an IPv4 address"
  | ErrInvalidPrefix prefixStr =>
      "invalid prefix length: " +:+ prefixStr +:+ " (must be a number between 0 and 32)"
  | ErrPrefixRange prefix =>
      "prefix length must be between 0 and 32, got: " +:+ strconv.Itoa prefix
  | ErrNetParseCIDR cidr => "invalid CIDR notation: invalid CIDR address: " +:+ cidr
  | ErrIPv6CIDR => "IPv6 is not supported, please provide an IPv4 CIDR"
  end.

(** The error kinds of the specification, and the kind of each error of
    the code. *)
Inductive ErrorKind : Type :=
  | EmptyInputError
  | FormatError
  | ProtocolError
  | RangeError.

Definition kindOf (e : error) : ErrorKind :=
  match e with
  | ErrEmpty => EmptyInputError
  | ErrExpectedFormat => FormatError
  | ErrInvalidIP _ => FormatError
  | ErrIPv6Address => ProtocolError
  | ErrInvalidPrefix _ => FormatError
  | ErrPrefixRange _ => RangeError
  | ErrNetParseCIDR _ => FormatError
  | ErrIPv6CIDR => ProtocolError
  end.

(** ** Addresses as numbers *)

(** The big-endian value of a byte sequence: for four bytes, the address
    as an unsigned 32-bit integer. *)
Fixpoint ipValue (ip : list Z) : Z :=
  match ip with
  | [] => 0
  | b :: rest => b * 256 ^ Z.of_nat (length rest) + ipValue rest
  end.

Definition isBytes (l : list Z) : bool := forallb isByte l.

(** A 4-byte address. *)
Definition isIPv4 (ip : net.IP) : bool := (length ip =? 4)%nat && isBytes ip.

(** The usable-range policy of the specification, on a descriptor. *)
Definition usablePolicy (info : NetworkInfo) : Prop :=
  (PrefixLength info = 32 ->
     FirstUsableIP info = NetworkID info /\
     LastUsableIP info = NetworkID info /\
     TotalHosts info = 1) /\
  (PrefixLength info = 31 ->
     FirstUsableIP info = NetworkID info /\
     LastUsableIP info = BroadcastAddr info /\
     TotalHosts info = 2) /\
  (0 <= PrefixLength info <= 30 ->
     FirstUsableIP info = incrementIP (NetworkID info) /\
     LastUsableIP info = decrementIP (BroadcastAddr info) /\
     TotalHosts info = 2 ^ (32 - PrefixLength info) - 2).

(** The invariants of a descriptor of an IPv4 network. *)
Definition descriptorInvariant (info : NetworkInfo) : Prop :=
  isIPv4 (NetworkID info) = true /\
  0 <= PrefixLength info <= 32 /\
  SubnetMask info = net.CIDRMask (PrefixLength info) 32 /\
  WildcardMask info = calculateWildcardMask (SubnetMask info) /\
  NetworkID info = zip_with Z.land (NetworkID info) (SubnetMask info) /\
  BroadcastAddr info = zip_with Z.lor (NetworkID info) (WildcardMask info).

(** The address range of a subnet. *)
Definition inSubnet (x : Z) (s : SubnetInfo) : Prop :=
  ipValue (SubnetNetworkID s) <= x <= ipValue (SubnetBroadcastAddr s).

Definition inNetwork (x : Z) (info : NetworkInfo) : Prop :=
  ipValue (NetworkID info) <= x <= ipValue (BroadcastAddr info).

(** The number of slashes of a text. *)
Fixpoint countSlash (s : string) : nat :=
  match s with
  | EmptyString => O
  | String c s' => if Ascii.eqb c "/" then S (countSlash s') else countSlash s'
  end.

(** The bytes of a parsed address: 4 for the dotted form, 16 otherwise. *)
Definition addrBytes (a : net.Addr) : list Z :=
  match a with
  | net.Addr4 fields => fields
  | net.Addr6 ip _ => ip
  end.

(** The power of two of the host count is exact for a prefix length:
    [1 << hostBits] is 2^hostBits. *)
Definition hostPowerExact (prefixLength : Z) : Prop :=
  shl32 1 (uint (int (32 - prefixLength))) = 2 ^ (32 - prefixLength).

(** A base-10 integer as a text: an optional sign and one or more decimal
    digits. *)
Fixpoint allDigits (s : string) : bool :=
  match s with
  | EmptyString => true
  | String c s' => net.isDigit c && allDigits s'
  end.

Definition isDecimalInteger (s : string) : bool :=
  match s with
  | EmptyString => false
  | String c s' =>
      let body := if Ascii.eqb c "-" || Ascii.eqb c "+" then s' else s in
      negb (bool_decide (body = EmptyString)) && allDigits body
  end.

(** The number that a base-10 integer text denotes, of any size; [None]
    for a text that is not a base-10 integer. *)
Definition decimalValue (s : string) : option Z :=
  match s with
  | EmptyString => None
  | String c s' =>
      let body := if Ascii.eqb c "-" || Ascii.eqb c "+" then s' else s in
      if bool_decide (body = EmptyString) then None
      else
        match strconv.digitsValue body 0 with
        | Some n => Some (if Ascii.eqb c "-" then - n else n)
        | None => None
        end
  end.

(** The canonical text of an octet: decimal digits, at least one, no
    leading zero, a value of at most 255. *)
Definition noLeadingZero (o : string) : bool :=
  match o with
  | String c (String _ _) => negb (Ascii.eqb c "0")
  | _ => true
  end.

Definition octetValue (o : string) : option Z := strconv.digitsValue o 0.

Definition isOctetText (o : string) : bool :=
  negb (bool_decide (o = EmptyString)) && allDigits o && noLeadingZero o
  && match octetValue o with
     | Some v => v <=? 255
     | None => false
     end.

(** The canonical dotted-decimal texts: four canonical octets separated
    by dots. *)
Definition canonicalDotted (s : string) : Prop :=
  exists o1 o2 o3 o4,
    isOctetText o1 = true /\ isOctetText o2 = true /\
    isOctetText o3 = true /\ isOctetText o4 = true /\
    s = o1 +:+ "." +:+ o2 +:+ "." +:+ o3 +:+ "." +:+ o4.

(** An octet of a value over 255. *)
Definition octetOutOfRange (o : string) : bool :=
  match octetValue o with
  | Some v => 255 <? v
  | None => false
  end.

(** The descriptor that ParseCIDR builds from the network id, the mask and
    the prefix length. *)
Definition descriptorOf (id : net.IP) (m : net.IPMask) (p : Z) : NetworkInfo :=
  calculateUsableRange
    (mkNetworkInfo (net.mkIPNet id m) id (zip_with Z.lor id (calculateWildcardMask m))
       m (calculateWildcardMask m) [] [] 0 p).

(** ** models.go: validation *)

(** The errors of models.go, one constructor per [fmt.Errorf] site. *)
Inductive modelError : Type :=
  | ErrCIDREmpty                      (* ValidateCIDR, cidr == "" *)
  | ErrCIDRNoSlash                    (* ValidateCIDR, no slash *)
  | ErrCIDRInvalid (cidr : string)    (* ValidateCIDR, net.ParseCIDR failed *)
  | ErrNetworkIDNil                   (* NetworkInfo.Validate *)
  | ErrBroadcastNil
  | ErrSubnetMaskNil
  | ErrPrefixLengthRange
  | ErrSubnetNetworkIDNil             (* SubnetInfo.Validate *)
  | ErrSubnetCIDREmpty
  | ErrSubnetCIDR (err : modelError)  (* wraps the error of ValidateCIDR *)
  | ErrSubnetBroadcastNil.

(** ValidateCIDR: [None] is the nil error. *)
Definition ValidateCIDR (cidr : string) : option modelError :=
  if bool_decide (cidr = EmptyString) then Some ErrCIDREmpty
  else if negb (strings.ContainsSlash cidr) then Some ErrCIDRNoSlash
  else
    match net.ParseCIDR cidr with
    | None => Some (ErrCIDRInvalid cidr)
    | Some _ => None
    end.

(** [s == nil]. A nil slice and an empty slice that is not nil are both
    the empty list here, so the answer of the test on the empty list is
    left open: the Validate methods take the test as [isNil], and
    [nilTest] says what is known of it, that a slice with a byte in it is
    not nil. *)
Definition nilTest (isNil : list Z -> bool) : Prop :=
  forall s, s <> [] -> isNil s = false.

(** The test that takes every empty slice for nil. *)
Definition emptyIsNil (s : list Z) : bool :=
  match s with
  | [] => true
  | _ :: _ => false
  end.

(** Validate, the method of NetworkInfo. *)
Definition NetworkInfo_Validate (isNil : list Z -> bool) (n : NetworkInfo)
  : option modelError :=
  if isNil (NetworkID n) then Some ErrNetworkIDNil
  else if isNil (BroadcastAddr n) then Some ErrBroadcastNil
  else if isNil (SubnetMask n) then Some ErrSubnetMaskNil
  else if (PrefixLength n <? 0) || (32 <? PrefixLength n) then Some ErrPrefixLengthRange
  else None.

(** Validate, the method of SubnetInfo. *)
Definition SubnetInfo_Validate (isNil : list Z -> bool) (s : SubnetInfo)
  : option modelError :=
  if isNil (SubnetNetworkID s) then Some ErrSubnetNetworkIDNil
  else if bool_decide (CIDR s = EmptyString) then Some ErrSubnetCIDREmpty
  else
    match ValidateCIDR (CIDR s) with
    | Some err => Some (ErrSubnetCIDR err)
    | None =>
        if isNil (SubnetBroadcastAddr s) then Some ErrSubnetBroadcastNil else None
    end.

(** ** The command line: validateConfig *)

Module cli.

(** Config: the options of the command line. *)
Record Config : Type := mkConfig {
  CIDR : string;
  OutputFile : string;
  HTMLOutput : bool;
  ShowHelp : bool
}.

Inductive configError : Type :=
  | ErrHTMLNeedsExtension   (* "HTML output requires .html or .htm file extension" *)
  | ErrExtensionNeedsHTML.  (* "HTML file extension requires --html flag" *)

(** [s[k:]]. *)
Fixpoint sliceFrom (k : nat) (s : string) : string :=
  match k, s with
  | O, _ => s
  | S k', String _ s' => sliceFrom k' s'
  | S _, EmptyString => EmptyString
  end.

(** [strings.HasSuffix]. *)
Definition HasSuffix (s suffix : string) : bool :=
  (String.length suffix <=? String.length s)%nat
  && bool_decide (sliceFrom (String.length s - String.length suffix) s = suffix).

(** The loops of [strings.ToLower] over the bytes of the text. *)
Fixpoint isASCII (s : string) : bool :=
  match s with
  | EmptyString => true
  | String c s' => (net.code c <? 128) && isASCII s'
  end.

Definition isUpper (c : ascii) : bool := (65 <=? net.code c) && (net.code c <=? 90).

Fixpoint hasUpper (s : string) : bool :=
  match s with
  | EmptyString => false
  | String c s' => isUpper c || hasUpper s'
  end.

Fixpoint lowerASCII (s : string) : string :=
  match s with
  | EmptyString => EmptyString
  | String c s' =>
      String (if isUpper c then net.chr (net.code c + 32) else c) (lowerASCII s')
  end.

Section ToLower.

(** [strings.Map(unicode.ToLower, s)], the path of [strings.ToLower] for
    a text with a byte over 0x7f; the tables of package unicode are not
    modelled. *)
Variable mapLower : string -> string.

(** [strings.ToLower]. *)
Definition ToLower (s : string) : string :=
  if isASCII s then
    if negb (hasUpper s) then s else lowerASCII s
  else mapLower s.

(** validateConfig: [None] is the nil error. *)
Definition validateConfig (config : Config) : option configError :=
  if HTMLOutput config && negb (bool_decide (OutputFile config = EmptyString))
     && (negb (HasSuffix (ToLower (OutputFile config)) ".html")
         && negb (HasSuffix (ToLower (OutputFile config)) ".htm"))
  then Some ErrHTMLNeedsExtension
  else
    if negb (HTMLOutput config) && negb (bool_decide (OutputFile config = EmptyString))
       && (let ext := ToLower (OutputFile config) in
           HasSuffix ext ".html" || HasSuffix ext ".htm")
    then Some ErrExtensionNeedsHTML
    else None.

End ToLower.

End cli.

(** A file name with the extension .html or .htm, in any case of the
    letters. *)
Definition htmlExtension (name : string) : Prop :=
  exists stem ext,
    name = stem +:+ ext /\
    (cli.lowerASCII ext = ".html" \/ cli.lowerASCII ext = ".htm").

(** * Properties *)

(** ** Bytes and machine integers *)

Lemma isByte_bounds b : isByte b = true <-> 0 <= b < 256.
Proof. unfold isByte. rewrite andb_true_iff, Z.leb_le, Z.ltb_lt. tauto. Qed.

Lemma isIPv4_inv ip :
  isIPv4 ip = true ->
  exists a b c d, ip = [a; b; c; d] /\
    0 <= a < 256 /\ 0 <= b < 256 /\ 0 <= c < 256 /\ 0 <= d < 256.
Proof.
  unfold isIPv4, isBytes. rewrite andb_true_iff. intros [Hlen Hb].
  apply Nat.eqb_eq in Hlen.
  destruct ip as [|a [|b [|c [|d [|e ip]]]]]; try discriminate.
  simpl in Hb. rewrite !andb_true_iff in Hb.
  destruct Hb as (Ha & Hb & Hc & Hd & _).
  apply isByte_bounds in Ha, Hb, Hc, Hd. eauto 10.
Qed.

Lemma isIPv4_intro a b c d :
  0 <= a < 256 -> 0 <= b < 256 -> 0 <= c < 256 -> 0 <= d < 256 ->
  isIPv4 [a; b; c; d] = true.
Proof.
  intros. unfold isIPv4, isBytes. simpl.
  rewrite !andb_true_iff. repeat split; apply isByte_bounds; lia.
Qed.

Lemma ipValue4 a b c d :
  ipValue [a; b; c; d] = a * 16777216 + b * 65536 + c * 256 + d.
Proof. simpl. lia. Qed.

(** Every case of a statement on the bytes of an explicit 4-byte address:
    the hypotheses on the bytes are in the context afterwards. *)
Ltac ip4 H :=
  let a := fresh "a" in let b := fresh "b" in
  let c := fresh "c" in let d := fresh "d" in
  let Ha := fresh "Ha" in let Hb := fresh "Hb" in
  let Hc := fresh "Hc" in let Hd := fresh "Hd" in
  apply isIPv4_inv in H; destruct H as (a & b & c & d & -> & Ha & Hb & Hc & Hd).

(** Arithmetic with division and remainder by constants. *)
Ltac zlia := Z.div_mod_to_equations; lia.

(** A property decided on every number of a range holds on the range. *)
Lemma range_check (P : Z -> bool) (lo n : Z) :
  forallb P (seqZ lo n) = true -> forall x, lo <= x < lo + n -> P x = true.
Proof.
  intros H x Hx. rewrite forallb_forall in H. apply H.
  apply list_elem_of_In, elem_of_seqZ. lia.
Qed.

Lemma not8_byte b : 0 <= b < 256 -> not8 b = 255 - b.
Proof.
  intros Hb. apply Z.eqb_eq.
  apply (range_check (fun b => not8 b =? 255 - b) 0 256); [vm_compute; reflexivity | lia].
Qed.

(** ** incrementIP and decrementIP *)

Ltac ipsimpl :=
  cbn [length incrementLoop decrementLoop lookup list_lookup insert list_insert
       default negb id].

Lemma incrementIP4 a b c d :
  0 <= a < 256 -> 0 <= b < 256 -> 0 <= c < 256 -> 0 <= d < 256 ->
  exists a' b' c' d',
    incrementIP [a; b; c; d] = [a'; b'; c'; d'] /\
    (0 <= a' < 256 /\ 0 <= b' < 256 /\ 0 <= c' < 256 /\ 0 <= d' < 256) /\
    ipValue [a'; b'; c'; d'] = (ipValue [a; b; c; d] + 1) mod 2 ^ 32.
Proof.
  intros Ha Hb Hc Hd. unfold incrementIP. ipsimpl.
  unfold u8. change (2 ^ 32) with 4294967296.
  repeat match goal with
         | |- context [(?x =? 0)] => destruct (Z.eqb_spec x 0); ipsimpl
         end;
    do 4 eexists; (split; [reflexivity|]); rewrite ?ipValue4; repeat split; zlia.
Qed.

Lemma decrementIP4 a b c d :
  0 <= a < 256 -> 0 <= b < 256 -> 0 <= c < 256 -> 0 <= d < 256 ->
  exists a' b' c' d',
    decrementIP [a; b; c; d] = [a'; b'; c'; d'] /\
    (0 <= a' < 256 /\ 0 <= b' < 256 /\ 0 <= c' < 256 /\ 0 <= d' < 256) /\
    ipValue [a'; b'; c'; d'] = (ipValue [a; b; c; d] - 1) mod 2 ^ 32.
Proof.
  intros Ha Hb Hc Hd. unfold decrementIP. ipsimpl.
  unfold u8. change (2 ^ 32) with 4294967296.
  repeat match goal with
         | |- context [(?x =? 0)] => destruct (Z.eqb_spec x 0); ipsimpl
         end;
    do 4 eexists; (split; [reflexivity|]); rewrite ?ipValue4; repeat split; zlia.
Qed.

Lemma ipValue4_bounds a b c d :
  0 <= a < 256 -> 0 <= b < 256 -> 0 <= c < 256 -> 0 <= d < 256 ->
  0 <= ipValue [a; b; c; d] < 2 ^ 32.
Proof. intros. rewrite ipValue4. change (2 ^ 32) with 4294967296. lia. Qed.

(** C10. On 4-byte addresses incrementIP and decrementIP are total, give a
    4-byte address again and add, respectively subtract, 1 modulo 2^32:
    255.255.255.255 is incremented to 0.0.0.0, 0.0.0.0 is decremented to
    255.255.255.255, and on every other address the value changes by
    exactly 1, carries and borrows included. *)
Theorem increment_decrement_wrap (ip : net.IP) :
  isIPv4 ip = true ->
  isIPv4 (incrementIP ip) = true /\
  isIPv4 (decrementIP ip) = true /\
  ipValue (incrementIP ip) = (ipValue ip + 1) mod 2 ^ 32 /\
  ipValue (decrementIP ip) = (ipValue ip - 1) mod 2 ^ 32 /\
  (ip <> [255; 255; 255; 255] -> ipValue (incrementIP ip) = ipValue ip + 1) /\
  (ip <> [0; 0; 0; 0] -> ipValue (decrementIP ip) = ipValue ip - 1) /\
  incrementIP [255; 255; 255; 255] = [0; 0; 0; 0] /\
  decrementIP [0; 0; 0; 0] = [255; 255; 255; 255].
Proof.
  intros H. ip4 H.
  destruct (incrementIP4 a b c d) as (a1 & b1 & c1 & d1 & -> & Hi & Vi); try assumption.
  destruct (decrementIP4 a b c d) as (a2 & b2 & c2 & d2 & -> & Hd' & Vd); try assumption.
  pose proof (ipValue4_bounds a b c d Ha Hb Hc Hd) as Hv.
  change (2 ^ 32) with 4294967296 in *.
  repeat split; try reflexivity.
  - apply isIPv4_intro; tauto.
  - apply isIPv4_intro; tauto.
  - exact Vi.
  - exact Vd.
  - intros Hne. rewrite Vi. apply Z.mod_small.
    assert (ipValue [a; b; c; d] <> 4294967295); [|lia].
    rewrite ipValue4. intros E. apply Hne.
    assert (a = 255 /\ b = 255 /\ c = 255 /\ d = 255) as (-> & -> & -> & ->) by lia.
    reflexivity.
  - intros Hne. rewrite Vd. apply Z.mod_small.
    assert (ipValue [a; b; c; d] <> 0); [|lia].
    rewrite ipValue4. intros E. apply Hne.
    assert (a = 0 /\ b = 0 /\ c = 0 /\ d = 0) as (-> & -> & -> & ->) by lia.
    reflexivity.
Qed.

Lemma increment_decrement_wrap_witness :
  isIPv4 [192; 168; 255; 255] = true /\
  ipValue (incrementIP [192; 168; 255; 255]) = (ipValue [192; 168; 255; 255] + 1) mod 2 ^ 32.
Proof.
  split; [reflexivity|].
  destruct (increment_decrement_wrap [192; 168; 255; 255] eq_refl) as (_ & _ & H & _).
  exact H.
Defined.

(** ** calculateUsableRange *)

Lemma int_small z : - 2 ^ 63 <= z < 2 ^ 63 -> int z = z.
Proof. unfold int. change (2 ^ 63) with 9223372036854775808.
  change (2 ^ 64) with 18446744073709551616. intros. zlia. Qed.

Lemma uint_small z : 0 <= z < 2 ^ 64 -> uint z = z.
Proof. unfold uint. intros. apply Z.mod_small. assumption. Qed.

(** The power of two of the host count, for the host bits of a prefix:
    exact from /1 on, and 0 at /0, where [1 << 32] leaves 32 bits. *)
Lemma hostPower_exact p :
  1 <= p <= 32 -> shl32 1 (uint (int (32 - p))) = 2 ^ (32 - p).
Proof.
  intros Hp. apply Z.eqb_eq.
  apply (range_check (fun p => shl32 1 (uint (int (32 - p))) =? 2 ^ (32 - p)) 1 32);
    [vm_compute; reflexivity | lia].
Qed.

Lemma hostCount_value p :
  0 <= p <= 30 -> u32 (shl32 1 (uint (int (32 - p))) - 2) = 2 ^ (32 - p) - 2.
Proof.
  intros Hp. apply Z.eqb_eq.
  apply (range_check (fun p => u32 (shl32 1 (uint (int (32 - p))) - 2) =? 2 ^ (32 - p) - 2) 0 31);
    [vm_compute; reflexivity | lia].
Qed.

(** calculateUsableRange only writes the three fields of the usable
    range. *)
Lemma calculateUsableRange_frame info :
  Network (calculateUsableRange info) = Network info /\
  NetworkID (calculateUsableRange info) = NetworkID info /\
  BroadcastAddr (calculateUsableRange info) = BroadcastAddr info /\
  SubnetMask (calculateUsableRange info) = SubnetMask info /\
  WildcardMask (calculateUsableRange info) = WildcardMask info /\
  PrefixLength (calculateUsableRange info) = PrefixLength info.
Proof.
  unfold calculateUsableRange.
  repeat match goal with |- context [if ?b then _ else _] => destruct b end;
    cbn; repeat split; reflexivity.
Qed.

Lemma calculateUsableRange_policy info :
  0 <= PrefixLength info <= 32 -> usablePolicy (calculateUsableRange info).
Proof.
  intros Hp.
  destruct (calculateUsableRange_frame info) as (_ & Hn & Hb & _ & _ & Hl).
  unfold usablePolicy. rewrite Hn, Hb, Hl.
  unfold calculateUsableRange.
  destruct (Z.eqb_spec (PrefixLength info) 32) as [E32|N32].
  { cbn. repeat split; intros; try reflexivity; lia. }
  destruct (Z.eqb_spec (PrefixLength info) 31) as [E31|N31].
  { cbn. repeat split; intros; try reflexivity; lia. }
  assert (Hh : u32 (shl32 1 (uint (int (32 - PrefixLength info))) - 2)
               = 2 ^ (32 - PrefixLength info) - 2) by (apply hostCount_value; lia).
  destruct (30 <=? int (32 - PrefixLength info)); cbn;
    repeat split; intros; try reflexivity; try lia; exact Hh.
Qed.

(** ** Bitwise operations on a number split at a bit position *)

Lemma testbit_split b r k i :
  0 <= k -> 0 <= r < 2 ^ k -> 0 <= i ->
  Z.testbit (b * 2 ^ k + r) i = if i <? k then Z.testbit r i else Z.testbit b (i - k).
Proof.
  intros Hk Hr Hi. assert (0 < 2 ^ k) by (apply Z.pow_pos_nonneg; lia).
  destruct (Z.ltb_spec i k).
  - rewrite <- (Z.mod_pow2_bits_low (b * 2 ^ k + r) k i) by lia.
    f_equal. rewrite Z.add_comm, Z.mod_add by lia. apply Z.mod_small; lia.
  - replace i with ((i - k) + k) at 1 by lia.
    rewrite <- Z.div_pow2_bits by lia. f_equal.
    rewrite Z.add_comm, Z.div_add by lia. rewrite Z.div_small by lia. lia.
Qed.

Lemma land_bound r1 r2 k :
  0 <= k -> 0 <= r1 < 2 ^ k -> 0 <= r2 -> 0 <= Z.land r1 r2 < 2 ^ k.
Proof.
  intros Hk H1 H2. split; [apply Z.land_nonneg; lia|].
  destruct (Z.eq_dec r1 0) as [->|]; [rewrite Z.land_0_l; lia|].
  destruct (Z.eq_dec (Z.land r1 r2) 0) as [->|]; [lia|].
  assert (0 <= Z.land r1 r2) by (apply Z.land_nonneg; lia).
  apply Z.log2_lt_pow2; [lia|].
  eapply Z.le_lt_trans; [apply Z.log2_land; lia|].
  apply Z.min_lt_iff. left. apply Z.log2_lt_pow2; lia.
Qed.

Lemma lor_bound r1 r2 k :
  0 <= k -> 0 <= r1 < 2 ^ k -> 0 <= r2 < 2 ^ k -> 0 <= Z.lor r1 r2 < 2 ^ k.
Proof.
  intros Hk H1 H2. split; [apply Z.lor_nonneg; lia|].
  destruct (Z.eq_dec r1 0) as [->|]; [rewrite Z.lor_0_l; lia|].
  destruct (Z.eq_dec r2 0) as [->|]; [rewrite Z.lor_0_r; lia|].
  assert (0 < Z.lor r1 r2).
  { assert (0 <= Z.lor r1 r2) by (apply Z.lor_nonneg; lia).
    assert (Z.lor r1 r2 <> 0) by (rewrite Z.lor_eq_0_iff; lia). lia. }
  apply Z.log2_lt_pow2; [lia|]. rewrite Z.log2_lor by lia.
  apply Z.max_lub_lt; apply Z.log2_lt_pow2; lia.
Qed.

Lemma land_split b1 b2 r1 r2 k :
  0 <= k -> 0 <= r1 < 2 ^ k -> 0 <= r2 < 2 ^ k ->
  Z.land (b1 * 2 ^ k + r1) (b2 * 2 ^ k + r2) = Z.land b1 b2 * 2 ^ k + Z.land r1 r2.
Proof.
  intros Hk H1 H2.
  pose proof (land_bound r1 r2 k Hk H1 (proj1 H2)) as H3.
  apply Z.bits_inj'. intros i Hi.
  rewrite Z.land_spec, !testbit_split by lia.
  destruct (i <? k); rewrite Z.land_spec; reflexivity.
Qed.

Lemma lor_split b1 b2 r1 r2 k :
  0 <= k -> 0 <= r1 < 2 ^ k -> 0 <= r2 < 2 ^ k ->
  Z.lor (b1 * 2 ^ k + r1) (b2 * 2 ^ k + r2) = Z.lor b1 b2 * 2 ^ k + Z.lor r1 r2.
Proof.
  intros Hk H1 H2.
  pose proof (lor_bound r1 r2 k Hk H1 H2) as H3.
  apply Z.bits_inj'. intros i Hi.
  rewrite Z.lor_spec, !testbit_split by lia.
  destruct (i <? k); rewrite Z.lor_spec; reflexivity.
Qed.

(** ** Byte sequences as numbers *)

Lemma pow256 n : 0 <= n -> 256 ^ n = 2 ^ (8 * n).
Proof. intros. change 256 with (2 ^ 8). rewrite <- Z.pow_mul_r by lia. reflexivity. Qed.

Lemma isBytes_cons b l : isBytes (b :: l) = true <-> 0 <= b < 256 /\ isBytes l = true.
Proof. unfold isBytes. cbn. rewrite andb_true_iff, isByte_bounds. tauto. Qed.

Lemma ipValue_bounds l :
  isBytes l = true -> 0 <= ipValue l < 256 ^ Z.of_nat (length l).
Proof.
  induction l as [|b l IH]; intros H.
  - cbn. lia.
  - apply isBytes_cons in H as [Hb Hl]. specialize (IH Hl).
    cbn [ipValue length]. rewrite Nat2Z.inj_succ, Z.pow_succ_r by lia. nia.
Qed.

Lemma land_byte a b : 0 <= a < 256 -> 0 <= b < 256 -> 0 <= Z.land a b < 256.
Proof. intros. apply (land_bound a b 8); lia. Qed.

Lemma lor_byte a b : 0 <= a < 256 -> 0 <= b < 256 -> 0 <= Z.lor a b < 256.
Proof. intros. apply (lor_bound a b 8); lia. Qed.

Lemma isBytes_land x y :
  isBytes x = true -> isBytes y = true -> isBytes (zip_with Z.land x y) = true.
Proof.
  revert y. induction x as [|a x IH]; intros [|b y] Hx Hy; try reflexivity.
  apply isBytes_cons in Hx as [Ha Hx]. apply isBytes_cons in Hy as [Hb Hy].
  cbn [zip_with]. apply isBytes_cons. split; [apply land_byte; assumption|auto].
Qed.

Lemma isBytes_lor x y :
  isBytes x = true -> isBytes y = true -> isBytes (zip_with Z.lor x y) = true.
Proof.
  revert y. induction x as [|a x IH]; intros [|b y] Hx Hy; try reflexivity.
  apply isBytes_cons in Hx as [Ha Hx]. apply isBytes_cons in Hy as [Hb Hy].
  cbn [zip_with]. apply isBytes_cons. split; [apply lor_byte; assumption|auto].
Qed.

Lemma ipValue_land x y :
  isBytes x = true -> isBytes y = true -> length x = length y ->
  ipValue (zip_with Z.land x y) = Z.land (ipValue x) (ipValue y).
Proof.
  revert y. induction x as [|a x IH]; intros [|b y] Hx Hy Hlen; try discriminate.
  - reflexivity.
  - apply isBytes_cons in Hx as [Ha Hx]. apply isBytes_cons in Hy as [Hb Hy].
    injection Hlen as Hlen. cbn [zip_with ipValue].
    rewrite length_zip_with, <- Hlen, Nat.min_id, IH by assumption.
    pose proof (ipValue_bounds x Hx) as Bx. pose proof (ipValue_bounds y Hy) as By.
    rewrite <- Hlen in By. rewrite pow256 in * by lia.
    symmetry. apply land_split; lia.
Qed.

Lemma ipValue_lor x y :
  isBytes x = true -> isBytes y = true -> length x = length y ->
  ipValue (zip_with Z.lor x y) = Z.lor (ipValue x) (ipValue y).
Proof.
  revert y. induction x as [|a x IH]; intros [|b y] Hx Hy Hlen; try discriminate.
  - reflexivity.
  - apply isBytes_cons in Hx as [Ha Hx]. apply isBytes_cons in Hy as [Hb Hy].
    injection Hlen as Hlen. cbn [zip_with ipValue].
    rewrite length_zip_with, <- Hlen, Nat.min_id, IH by assumption.
    pose proof (ipValue_bounds x Hx) as Bx. pose proof (ipValue_bounds y Hy) as By.
    rewrite <- Hlen in By. rewrite pow256 in * by lia.
    symmetry. apply lor_split; lia.
Qed.

(** The wildcard mask is the complement of the mask on its width. *)
Lemma isBytes_wildcard m : isBytes m = true -> isBytes (calculateWildcardMask m) = true.
Proof.
  unfold calculateWildcardMask. induction m as [|b m IH]; intros H; [reflexivity|].
  apply isBytes_cons in H as [Hb Hm]. cbn [map]. apply isBytes_cons.
  rewrite not8_byte by assumption. split; [lia|auto].
Qed.

Lemma ipValue_wildcard m :
  isBytes m = true ->
  ipValue (calculateWildcardMask m) = 256 ^ Z.of_nat (length m) - 1 - ipValue m.
Proof.
  unfold calculateWildcardMask. induction m as [|b m IH]; intros H; [reflexivity|].
  apply isBytes_cons in H as [Hb Hm]. cbn [map ipValue length].
  rewrite length_map, IH, not8_byte, Nat2Z.inj_succ, Z.pow_succ_r by (assumption || lia).
  lia.
Qed.

(** The loop of the broadcast address succeeds when the wildcard mask is
    long enough. *)
Lemma orLoop_ok a w :
  (length a <= length w)%nat -> orLoop a w = Ok (zip_with Z.lor a w).
Proof.
  revert w. induction a as [|x a IH]; intros [|y w] H; cbn in *; try reflexivity; try lia.
  rewrite IH by lia. reflexivity.
Qed.

Lemma orLoop_short a w :
  (length w < length a)%nat -> orLoop a w = Panic.
Proof.
  revert w. induction a as [|x a IH]; intros [|y w] H; cbn in *; try reflexivity; try lia.
  rewrite IH by lia. reflexivity.
Qed.

(** ** CIDRMask *)

Lemma length_cidrMaskLoop l n : length (net.cidrMaskLoop l n) = l.
Proof. revert n. induction l; intros n; cbn; [reflexivity|]. destruct (8 <=? n); cbn; rewrite IHl; reflexivity. Qed.

Lemma cidrMaskLoop_zero l : ipValue (net.cidrMaskLoop l 0) = 0 /\ isBytes (net.cidrMaskLoop l 0) = true.
Proof.
  induction l as [|l [Hv Hb]]; [split; reflexivity|].
  change (net.cidrMaskLoop (S l) 0) with (0 :: net.cidrMaskLoop l 0).
  split; [cbn [ipValue]; lia | apply isBytes_cons; split; [lia|assumption]].
Qed.

Lemma cidrMaskLoop_value l n :
  0 <= n <= 8 * Z.of_nat l ->
  ipValue (net.cidrMaskLoop l n) = 256 ^ Z.of_nat l - 2 ^ (8 * Z.of_nat l - n) /\
  isBytes (net.cidrMaskLoop l n) = true.
Proof.
  revert n. induction l as [|l IH]; intros n Hn.
  - cbn. assert (n = 0) as -> by lia. split; reflexivity.
  - cbn [net.cidrMaskLoop]. destruct (Z.leb_spec 8 n).
    + destruct (IH (n - 8)) as [Hv Hb]; [lia|].
      cbn [ipValue]. rewrite length_cidrMaskLoop, Hv. split.
      * rewrite Nat2Z.inj_succ, Z.pow_succ_r by lia.
        replace (8 * Z.succ (Z.of_nat l) - n) with (8 * Z.of_nat l - (n - 8)) by lia. lia.
      * apply isBytes_cons. split; [lia|assumption].
    + destruct (cidrMaskLoop_zero l) as [Hv Hb].
      cbn [ipValue]. rewrite length_cidrMaskLoop, Hv.
      assert (Hc : not8 (shr 255 n) = 256 - 2 ^ (8 - n)).
      { apply Z.eqb_eq.
        apply (range_check (fun n => not8 (shr 255 n) =? 256 - 2 ^ (8 - n)) 0 8);
          [vm_compute; reflexivity|lia]. }
      rewrite Hc. split.
      * rewrite Nat2Z.inj_succ, Z.pow_succ_r by lia.
        replace (8 * Z.succ (Z.of_nat l) - n) with ((8 - n) + 8 * Z.of_nat l) by lia.
        rewrite Z.pow_add_r by lia. rewrite (pow256 (Z.of_nat l)) by lia. lia.
      * apply isBytes_cons. split; [|assumption].
        assert (0 < 2 ^ (8 - n) <= 2 ^ 8); [|lia].
        split; [apply Z.pow_pos_nonneg; lia|apply Z.pow_le_mono_r; lia].
Qed.

Lemma CIDRMask_value ones bits :
  bits = 32 \/ bits = 128 -> 0 <= ones <= bits ->
  length (net.CIDRMask ones bits) = Z.to_nat (bits / 8) /\
  isBytes (net.CIDRMask ones bits) = true /\
  ipValue (net.CIDRMask ones bits) = 2 ^ bits - 2 ^ (bits - ones).
Proof.
  intros Hb Ho. unfold net.CIDRMask.
  assert (negb (bits =? 32) && negb (bits =? 128) = false) as ->
    by (destruct Hb as [-> | ->]; reflexivity).
  assert ((ones <? 0) || (bits <? ones) = false) as ->.
  { apply orb_false_iff. split; apply Z.ltb_ge; lia. }
  rewrite uint_small by (change (2 ^ 64) with 18446744073709551616; lia).
  rewrite length_cidrMaskLoop. split; [reflexivity|].
  assert (Hw : 8 * Z.of_nat (Z.to_nat (bits / 8)) = bits)
    by (destruct Hb as [-> | ->]; reflexivity).
  destruct (cidrMaskLoop_value (Z.to_nat (bits / 8)) ones) as [Hv Hy]; [lia|].
  split; [assumption|]. rewrite Hv, pow256, Hw by lia. reflexivity.
Qed.

(** The mask of [ones] bits on [bits] bits: the [ones] leading bits are
    set and the others are clear. *)
Lemma CIDRMask_bits ones bits k :
  bits = 32 \/ bits = 128 -> 0 <= ones <= bits -> 0 <= k < bits ->
  Z.testbit (ipValue (net.CIDRMask ones bits)) (bits - 1 - k) = (k <? ones).
Proof.
  intros Hb Ho Hk.
  destruct (CIDRMask_value ones bits Hb Ho) as (_ & _ & ->).
  replace (2 ^ bits - 2 ^ (bits - ones)) with ((2 ^ ones - 1) * 2 ^ (bits - ones) + 0).
  2:{ assert (2 ^ bits = 2 ^ ones * 2 ^ (bits - ones))
        by (rewrite <- Z.pow_add_r by lia; f_equal; lia).
      lia. }
  assert (0 < 2 ^ (bits - ones)) by (apply Z.pow_pos_nonneg; lia).
  rewrite testbit_split by lia.
  destruct (Z.ltb_spec (bits - 1 - k) (bits - ones)); destruct (Z.ltb_spec k ones);
    try lia.
  - apply Z.bits_0.
  - change (2 ^ ones - 1) with (Z.pred (2 ^ ones)). rewrite <- Z.ones_equiv.
    apply Z.ones_spec_low. lia.
Qed.

(** ** addToIP *)

Lemma addToIP4 a b c d value :
  0 <= a < 256 -> 0 <= b < 256 -> 0 <= c < 256 -> 0 <= d < 256 ->
  0 <= value < 2 ^ 32 ->
  exists a' b' c' d',
    addToIP [a; b; c; d] value = Ok [a'; b'; c'; d'] /\
    (0 <= a' < 256 /\ 0 <= b' < 256 /\ 0 <= c' < 256 /\ 0 <= d' < 256) /\
    ipValue [a'; b'; c'; d'] = (ipValue [a; b; c; d] + value) mod 2 ^ 32.
Proof.
  intros Ha Hb Hc Hd Hv. unfold addToIP, index.
  cbn [lookup list_lookup mbind result_bind insert list_insert].
  do 4 eexists. split; [reflexivity|].
  rewrite !ipValue4. unfold shl32, shr, u32, u8.
  cbn [Z.leb Z.compare Pos.compare Pos.compare_cont].
  rewrite !Z.shiftl_mul_pow2, !Z.shiftr_div_pow2 by lia.
  change (2 ^ 32) with 4294967296 in *. change (2 ^ 24) with 16777216.
  change (2 ^ 16) with 65536. change (2 ^ 8) with 256.
  repeat split; zlia.
Qed.

(** ** CalculateSubnets *)

Lemma possibleSubnets_two network : possibleSubnets network = 2.
Proof.
  unfold possibleSubnets, nextPrefixLength.
  assert (uint (int (int (PrefixLength network + 1) - PrefixLength network)) = 1) as ->.
  { unfold uint, int. change (2 ^ 63) with 9223372036854775808.
    change (2 ^ 64) with 18446744073709551616. zlia. }
  reflexivity.
Qed.

Lemma limitApplies_false network : limitApplies network = false.
Proof.
  unfold limitApplies. rewrite possibleSubnets_two.
  apply andb_false_iff. right. reflexivity.
Qed.

Lemma subnetSize_value p :
  0 <= p < 32 -> shl32 1 (uint (int (32 - int (p + 1)))) = 2 ^ (32 - (p + 1)).
Proof.
  intros Hp. apply Z.eqb_eq.
  apply (range_check (fun p => shl32 1 (uint (int (32 - int (p + 1)))) =? 2 ^ (32 - (p + 1))) 0 32);
    [vm_compute; reflexivity | lia].
Qed.

Lemma int_prefix z : -1 <= z <= 64 -> int z = z.
Proof. intros. apply int_small. change (2 ^ 63) with 9223372036854775808. lia. Qed.

Lemma String_ipv4 ip : isIPv4 ip = true -> net.String_ ip = net.string4 ip.
Proof. intros H. ip4 H. reflexivity. Qed.

Lemma CalculateSubnets_children network :
  isIPv4 (NetworkID network) = true -> 0 <= PrefixLength network < 32 ->
  let id := NetworkID network in
  let next := PrefixLength network + 1 in
  let wildcard := calculateWildcardMask (net.CIDRMask next 32) in
  exists second,
    addToIP id (2 ^ (32 - next)) = Ok second /\
    isIPv4 second = true /\
    ipValue second = (ipValue id + 2 ^ (32 - next)) mod 2 ^ 32 /\
    CalculateSubnets network =
      Ok [mkSubnetInfo id (net.string4 id +:+ "/" +:+ strconv.Itoa next)
            (zip_with Z.lor id wildcard);
          mkSubnetInfo second (net.string4 second +:+ "/" +:+ strconv.Itoa next)
            (zip_with Z.lor second wildcard)].
Proof.
  intros Hid Hp. cbv zeta.
  set (next := PrefixLength network + 1).
  set (wildcard := calculateWildcardMask (net.CIDRMask next 32)).
  assert (Hsize : 0 <= 2 ^ (32 - next) < 2 ^ 32).
  { subst next. split; [apply Z.pow_nonneg; lia|apply Z.pow_lt_mono_r; lia]. }
  assert (Hw : length wildcard = 4%nat).
  { subst wildcard. unfold calculateWildcardMask. rewrite length_map.
    destruct (CIDRMask_value next 32) as (-> & _); [auto|subst next; lia|reflexivity]. }
  destruct (isIPv4_inv _ Hid) as (a & b & c & d & E & Ha & Hb & Hc & Hd).
  destruct (addToIP4 a b c d (2 ^ (32 - next))) as (a2 & b2 & c2 & d2 & Hadd & Hb2 & Hv2);
    try assumption.
  destruct (addToIP4 a2 b2 c2 d2 (2 ^ (32 - next))) as (a3 & b3 & c3 & d3 & Hadd3 & _);
    try tauto.
  exists [a2; b2; c2; d2].
  unfold CalculateSubnets.
  assert ((32 <=? PrefixLength network) = false) as -> by (apply Z.leb_gt; lia).
  rewrite limitApplies_false, possibleSubnets_two.
  unfold nextPrefixLength.
  rewrite (subnetSize_value (PrefixLength network)) by lia.
  rewrite (int_prefix (PrefixLength network + 1)) by lia.
  fold next. rewrite E.
  split; [assumption|]. split; [apply isIPv4_intro; tauto|]. split; [assumption|].
  change (Z.to_nat 2) with 2%nat. cbn [subnetsLoop].
  unfold calculateSubnetBroadcast. fold wildcard.
  rewrite orLoop_ok by (rewrite Hw; cbn; lia).
  cbn [mbind result_bind]. rewrite Hadd. cbn [mbind result_bind].
  rewrite orLoop_ok by (rewrite Hw; cbn; lia).
  cbn [mbind result_bind]. rewrite Hadd3. cbn [mbind result_bind].
  rewrite !String_ipv4 by (apply isIPv4_intro; tauto).
  reflexivity.
Qed.

(** C3. CalculateSubnets returns no subnet from prefix length 32 on; the
    number of subnets it computes is always 2, so the branch that limits
    the display to 100 subnets is never taken; for a 4-byte network id and
    a prefix length p from 0 to 31 it returns exactly two subnets: the
    first has the network id of the parent, the second the network id
    addToIP gives for the offset 2^(32-(p+1)), that is the parent's plus
    that offset modulo 2^32, and the CIDR text of each is its network id in
    dotted decimal, a slash and p+1. *)
Theorem CalculateSubnets_two (network : NetworkInfo) :
  (32 <= PrefixLength network -> CalculateSubnets network = Ok []) /\
  (possibleSubnets network = 2 /\ limitApplies network = false) /\
  (0 <= PrefixLength network < 32 -> isIPv4 (NetworkID network) = true ->
   exists first second,
     CalculateSubnets network = Ok [first; second] /\
     SubnetNetworkID first = NetworkID network /\
     addToIP (NetworkID network) (2 ^ (32 - (PrefixLength network + 1)))
       = Ok (SubnetNetworkID second) /\
     ipValue (SubnetNetworkID second)
       = (ipValue (NetworkID network) + 2 ^ (32 - (PrefixLength network + 1))) mod 2 ^ 32 /\
     CIDR first = net.string4 (SubnetNetworkID first) +:+ "/"
                  +:+ strconv.Itoa (PrefixLength network + 1) /\
     CIDR second = net.string4 (SubnetNetworkID second) +:+ "/"
                   +:+ strconv.Itoa (PrefixLength network + 1)).
Proof.
  split; [|split].
  - intros Hp. unfold CalculateSubnets.
    assert ((32 <=? PrefixLength network) = true) as -> by (apply Z.leb_le; lia).
    reflexivity.
  - split; [apply possibleSubnets_two|apply limitApplies_false].
  - intros Hp Hid.
    destruct (CalculateSubnets_children network Hid Hp) as (second & Hadd & _ & Hv & Hc).
    eexists _, _. split; [exact Hc|]. cbn [SubnetNetworkID CIDR].
    repeat split; assumption.
Qed.

Lemma CalculateSubnets_two_witness :
  exists first second,
    CalculateSubnets (mkNetworkInfo (net.mkIPNet [192; 168; 1; 0] [255; 255; 255; 0])
                        [192; 168; 1; 0] [192; 168; 1; 255] [255; 255; 255; 0]
                        [0; 0; 0; 255] [192; 168; 1; 1] [192; 168; 1; 254] 254 24)
      = Ok [first; second] /\
    CIDR first = "192.168.1.0/25" /\ CIDR second = "192.168.1.128/25".
Proof.
  destruct (CalculateSubnets_two
              (mkNetworkInfo (net.mkIPNet [192; 168; 1; 0] [255; 255; 255; 0])
                 [192; 168; 1; 0] [192; 168; 1; 255] [255; 255; 255; 0]
                 [0; 0; 0; 255] [192; 168; 1; 1] [192; 168; 1; 254] 254 24))
    as (_ & _ & H).
  destruct H as (first & second & Hc & _); [cbn; lia|reflexivity|].
  exists first, second. split; [exact Hc|].
  vm_compute in Hc. injection Hc as <- <-. split; reflexivity.
Defined.

(** ** The two subnets partition the network *)

Lemma land_high_mask n q j :
  0 <= j -> Z.land n (q * 2 ^ j) mod 2 ^ j = 0.
Proof.
  intros Hj. assert (0 < 2 ^ j) by (apply Z.pow_pos_nonneg; lia).
  rewrite (Z.div_mod n (2 ^ j)) at 1 by lia.
  rewrite (Z.mul_comm (2 ^ j)).
  replace (q * 2 ^ j) with (q * 2 ^ j + 0) by lia.
  rewrite land_split; [|lia|apply Z.mod_pos_bound; lia|lia].
  rewrite Z.land_0_r, Z.add_0_r. apply Z.mod_mul. lia.
Qed.

Lemma lor_low_ones n j :
  0 <= j -> n mod 2 ^ j = 0 -> Z.lor n (2 ^ j - 1) = n + 2 ^ j - 1.
Proof.
  intros Hj Hn. assert (0 < 2 ^ j) by (apply Z.pow_pos_nonneg; lia).
  rewrite (Z.div_mod n (2 ^ j)) by lia. rewrite Hn, (Z.mul_comm (2 ^ j)).
  replace (2 ^ j - 1) with (0 * 2 ^ j + (2 ^ j - 1)) at 1 by lia.
  rewrite lor_split by lia. rewrite Z.lor_0_r, Z.lor_0_l. lia.
Qed.

Lemma wildcard_value next :
  0 <= next <= 32 ->
  let w := calculateWildcardMask (net.CIDRMask next 32) in
  length w = 4%nat /\ isBytes w = true /\ ipValue w = 2 ^ (32 - next) - 1.
Proof.
  intros Hn. cbv zeta.
  destruct (CIDRMask_value next 32) as (Hl & Hb & Hv); [auto|lia|].
  unfold calculateWildcardMask at 1. rewrite length_map, Hl.
  split; [reflexivity|]. split; [apply isBytes_wildcard; assumption|].
  rewrite ipValue_wildcard, Hl, Hv by assumption.
  change (256 ^ Z.of_nat (Z.to_nat (32 / 8))) with (2 ^ 32). lia.
Qed.

Lemma isIPv4_parts ip : isIPv4 ip = true -> length ip = 4%nat /\ isBytes ip = true.
Proof. unfold isIPv4. rewrite andb_true_iff, Nat.eqb_eq. tauto. Qed.

(** A descriptor that satisfies the invariants has its network id on a
    multiple of the block size and its broadcast address at the end of the
    block. *)
Lemma descriptor_block info :
  descriptorInvariant info ->
  let size := 2 ^ (32 - PrefixLength info) in
  ipValue (NetworkID info) mod size = 0 /\
  0 <= ipValue (NetworkID info) /\
  ipValue (NetworkID info) + size <= 2 ^ 32 /\
  ipValue (BroadcastAddr info) = ipValue (NetworkID info) + size - 1.
Proof.
  intros (Hid & Hp & Hm & Hw & Hn & Hb). cbv zeta.
  destruct (isIPv4_parts _ Hid) as [Hlen Hbytes].
  destruct (CIDRMask_value (PrefixLength info) 32) as (Hl & Hy & Hv); [auto|lia|].
  destruct (wildcard_value (PrefixLength info) Hp) as (Hwl & Hwb & Hwv).
  rewrite <- Hm in Hl, Hy, Hv, Hwl, Hwb, Hwv. rewrite <- Hw in Hwl, Hwb, Hwv.
  set (j := 32 - PrefixLength info) in *.
  assert (Hpos : 0 < 2 ^ j) by (apply Z.pow_pos_nonneg; lia).
  pose proof (ipValue_bounds _ Hbytes) as Hbound. rewrite Hlen in Hbound.
  change (256 ^ Z.of_nat 4) with (2 ^ 32) in Hbound.
  assert (Hmod : ipValue (NetworkID info) mod 2 ^ j = 0).
  { rewrite Hn, ipValue_land, Hv by (assumption || (rewrite Hl, Hlen; reflexivity)).
    replace (2 ^ 32 - 2 ^ j) with ((2 ^ PrefixLength info - 1) * 2 ^ j).
    - apply land_high_mask. lia.
    - assert (2 ^ 32 = 2 ^ PrefixLength info * 2 ^ j)
        by (rewrite <- Z.pow_add_r by lia; f_equal; lia).
      lia. }
  split; [assumption|]. split; [lia|]. split.
  - assert (E32 : 2 ^ 32 = 2 ^ PrefixLength info * 2 ^ j)
      by (rewrite <- Z.pow_add_r by lia; f_equal; lia).
    apply Z.mod_divide in Hmod; [|lia]. destruct Hmod as [q Hq].
    rewrite Hq in *. assert (q < 2 ^ PrefixLength info) by nia. nia.
  - rewrite Hb, ipValue_lor, Hwv by (assumption || (rewrite Hwl, Hlen; reflexivity)).
    rewrite lor_low_ones by (assumption || lia). lia.
Qed.

(** C4. For a descriptor of an IPv4 network with a prefix length from 0
    to 31, CalculateSubnets returns two subnets whose address ranges are
    not empty, contiguous (the second starts right after the broadcast
    address of the first), disjoint, and cover exactly the range of the
    parent from its network id to its broadcast address. *)
Theorem subnets_partition (network : NetworkInfo) :
  descriptorInvariant network -> PrefixLength network <= 31 ->
  exists first second,
    CalculateSubnets network = Ok [first; second] /\
    ipValue (SubnetNetworkID first) = ipValue (NetworkID network) /\
    ipValue (SubnetNetworkID first) <= ipValue (SubnetBroadcastAddr first) /\
    ipValue (SubnetBroadcastAddr first) + 1 = ipValue (SubnetNetworkID second) /\
    ipValue (SubnetNetworkID second) <= ipValue (SubnetBroadcastAddr second) /\
    ipValue (SubnetBroadcastAddr second) = ipValue (BroadcastAddr network) /\
    (forall x, inSubnet x first \/ inSubnet x second <-> inNetwork x network) /\
    (forall x, ~ (inSubnet x first /\ inSubnet x second)).
Proof.
  intros Hinv Hp31.
  destruct (descriptor_block network Hinv) as (Hmod & Hn0 & Hfit & Hbc).
  destruct Hinv as (Hid & Hp & _).
  destruct (CalculateSubnets_children network Hid) as (second & _ & Hid2 & Hv2 & Hc); [lia|].
  set (p := PrefixLength network) in *.
  destruct (wildcard_value (p + 1)) as (Hwl & Hwb & Hwv); [lia|].
  set (w := calculateWildcardMask (net.CIDRMask (p + 1) 32)) in *.
  set (half := 2 ^ (32 - (p + 1))) in *.
  assert (Hhalf : 0 < half) by (apply Z.pow_pos_nonneg; lia).
  assert (Hsize : 2 ^ (32 - p) = 2 * half).
  { unfold half. rewrite <- Z.pow_succ_r by lia. f_equal. lia. }
  rewrite Hsize in Hmod, Hfit, Hbc.
  destruct (isIPv4_parts _ Hid) as [Hlen Hbytes].
  destruct (isIPv4_parts _ Hid2) as [Hlen2 Hbytes2].
  set (n := ipValue (NetworkID network)) in *.
  assert (Hn : n mod half = 0).
  { apply Z.mod_divide in Hmod; [|lia]. destruct Hmod as [q ->].
    replace (q * (2 * half)) with (q * 2 * half) by lia. apply Z.mod_mul. lia. }
  assert (Hsecond : ipValue second = n + half).
  { rewrite Hv2. apply Z.mod_small. lia. }
  assert (Hn2 : ipValue second mod half = 0).
  { rewrite Hsecond. replace (n + half) with (n + 1 * half) by lia.
    rewrite Z.mod_add by lia. exact Hn. }
  assert (Hb1 : ipValue (zip_with Z.lor (NetworkID network) w) = n + half - 1).
  { rewrite ipValue_lor, Hwv by (assumption || (rewrite Hwl, Hlen; reflexivity)).
    apply lor_low_ones; [lia|assumption]. }
  assert (Hb2 : ipValue (zip_with Z.lor second w) = n + 2 * half - 1).
  { rewrite ipValue_lor, Hwv by (assumption || (rewrite Hwl, Hlen2; reflexivity)).
    unfold half in *. rewrite lor_low_ones by (lia || assumption). lia. }
  eexists _, _. split; [exact Hc|].
  unfold inSubnet, inNetwork. cbn [SubnetNetworkID SubnetBroadcastAddr].
  fold n. rewrite Hb1, Hb2, Hsecond, Hbc.
  repeat split; try lia.
Qed.

Lemma subnets_partition_witness :
  exists first second,
    CalculateSubnets (mkNetworkInfo (net.mkIPNet [172; 16; 0; 0] [255; 255; 255; 254])
                        [172; 16; 0; 0] [172; 16; 0; 1] [255; 255; 255; 254]
                        [0; 0; 0; 1] [172; 16; 0; 0] [172; 16; 0; 1] 2 31)
      = Ok [first; second] /\
    ipValue (SubnetBroadcastAddr first) + 1 = ipValue (SubnetNetworkID second).
Proof.
  destruct (subnets_partition
              (mkNetworkInfo (net.mkIPNet [172; 16; 0; 0] [255; 255; 255; 254])
                 [172; 16; 0; 0] [172; 16; 0; 1] [255; 255; 255; 254]
                 [0; 0; 0; 1] [172; 16; 0; 0] [172; 16; 0; 1] 2 31))
    as (first & second & Hc & _ & _ & Hadj & _).
  - unfold descriptorInvariant. cbn. repeat split; (reflexivity || lia).
  - cbn. lia.
  - exists first, second. split; assumption.
Defined.

(** ** Splitting at the slash *)

Lemma SplitSlash_length s : length (strings.SplitSlash s) = S (countSlash s).
Proof.
  induction s as [|c s IH]; [reflexivity|]. cbn [strings.SplitSlash countSlash].
  destruct (Ascii.eqb c "/"); [cbn; rewrite IH; reflexivity|].
  destruct (strings.SplitSlash s); [discriminate|exact IH].
Qed.

Lemma ContainsSlash_count s : strings.ContainsSlash s = negb (countSlash s =? 0)%nat.
Proof.
  induction s as [|c s IH]; [reflexivity|]. cbn [strings.ContainsSlash countSlash].
  destruct (Ascii.eqb c "/"); [reflexivity|exact IH].
Qed.

Lemma SplitSlash_one s p :
  strings.SplitSlash s = [p] -> s = p /\ countSlash s = O.
Proof.
  intros H. pose proof (SplitSlash_length s) as Hl. rewrite H in Hl.
  injection Hl as Hl. split; [|lia]. clear Hl. revert p H.
  induction s as [|c s IH]; intros p H.
  - injection H as <-. reflexivity.
  - cbn [strings.SplitSlash] in H. destruct (Ascii.eqb c "/").
    + pose proof (SplitSlash_length s) as Hl.
      assert (E : strings.SplitSlash s = []) by congruence.
      rewrite E in Hl. cbn in Hl. discriminate.
    + pose proof (SplitSlash_length s) as Hl.
      destruct (strings.SplitSlash s) as [|h t] eqn:E; [cbn in Hl; discriminate|].
      injection H as <- ->. rewrite (IH h eq_refl). reflexivity.
Qed.

Lemma SplitSlash_two s a p :
  strings.SplitSlash s = [a; p] ->
  s = a +:+ "/" +:+ p /\ countSlash a = O /\ countSlash p = O /\
  net.cutSlash s = Some (a, p).
Proof.
  revert a. induction s as [|c s IH]; intros a H; [discriminate|].
  cbn [strings.SplitSlash] in H. cbn [net.cutSlash].
  destruct (Ascii.eqb_spec c "/") as [->|Hc].
  - injection H as <- H. apply SplitSlash_one in H as [-> H]. auto.
  - pose proof (SplitSlash_length s) as Hl.
    destruct (strings.SplitSlash s) as [|h t] eqn:E; [cbn in Hl; discriminate|].
    injection H as <- ->. destruct (IH h eq_refl) as (-> & H1 & H2 & ->).
    cbn [countSlash]. apply Ascii.eqb_neq in Hc. rewrite Hc. auto.
Qed.

Lemma SplitSlash_whole q : countSlash q = O -> strings.SplitSlash q = [q].
Proof.
  induction q as [|c q IH]; [reflexivity|]. cbn [countSlash strings.SplitSlash].
  destruct (Ascii.eqb c "/"); [discriminate|]. intros H. rewrite (IH H). reflexivity.
Qed.

Lemma SplitSlash_head a rest :
  countSlash a = O ->
  strings.SplitSlash (String.append a (String "/" rest)) = a :: strings.SplitSlash rest.
Proof.
  induction a as [|c a IH]; intros Ha; [reflexivity|].
  cbn [countSlash] in Ha.
  change (String.append (String c a) (String "/" rest))
    with (String c (String.append a (String "/" rest))).
  cbn [strings.SplitSlash].
  destruct (Ascii.eqb c "/"); [discriminate|]. rewrite (IH Ha). reflexivity.
Qed.

Lemma SplitSlash_join a p :
  countSlash a = O -> countSlash p = O ->
  strings.SplitSlash (a +:+ "/" +:+ p) = [a; p].
Proof.
  intros Ha Hp. change (a +:+ "/" +:+ p) with (String.append a (String "/" p)).
  rewrite SplitSlash_head, SplitSlash_whole by assumption. reflexivity.
Qed.

Lemma countSlash_app a b : countSlash (a +:+ b) = (countSlash a + countSlash b)%nat.
Proof.
  induction a as [|c a IH]; [reflexivity|].
  change (String c a +:+ b) with (String c (a +:+ b)). cbn [countSlash].
  rewrite IH. destruct (Ascii.eqb c "/"); reflexivity.
Qed.

(** ** validateCIDRFormat *)

Lemma validateCIDRFormat_ok cidr :
  validateCIDRFormat cidr = None ->
  exists ipStr prefixStr ip ip4 prefix,
    strings.SplitSlash cidr = [ipStr; prefixStr] /\
    net.ParseIP ipStr = Some ip /\ net.To4 ip = Some ip4 /\
    strconv.Atoi prefixStr = Some prefix /\ 0 <= prefix <= 32.
Proof.
  unfold validateCIDRFormat. intros H.
  destruct (bool_decide (cidr = "")); [discriminate|].
  destruct (negb (strings.ContainsSlash cidr)); [discriminate|].
  destruct (strings.SplitSlash cidr) as [|ipStr [|prefixStr [|x l]]]; try discriminate.
  destruct (net.ParseIP ipStr) as [ip|] eqn:Hip; [|discriminate].
  destruct (net.To4 ip) as [ip4|] eqn:H4; [|discriminate].
  destruct (strconv.Atoi prefixStr) as [prefix|] eqn:Hpre; [|discriminate].
  destruct (Z.ltb_spec prefix 0); [discriminate|].
  destruct (Z.ltb_spec 32 prefix); [discriminate|].
  exists ipStr, prefixStr, ip, ip4, prefix. repeat split; (reflexivity || assumption || lia).
Qed.

(** ** dtoi and Atoi read the same number *)

Lemma dtoiLoop_digits s n0 i0 n i :
  net.dtoiLoop s n0 i0 = (n, i, true) -> i = i0 + Z.of_nat (String.length s) ->
  strconv.digitsValue s n0 = Some n /\ (n0 < net.big -> n < net.big) /\
  (s <> EmptyString -> exists c s', s = String c s' /\ net.isDigit c = true).
Proof.
  revert n0 i0. induction s as [|c s IH]; intros n0 i0 H Hi.
  - cbn in *. destruct (i0 =? 0); inversion H; subst. split; [reflexivity|]. split; [auto|congruence].
  - cbn [net.dtoiLoop] in H. cbn [String.length] in Hi. cbn [strconv.digitsValue].
    destruct (net.isDigit c) eqn:Hd.
    + destruct (Z.leb_spec net.big (n0 * 10 + (net.code c - 48))); [discriminate|].
      destruct (IH _ _ H) as (Hv & Hb & _); [lia|].
      split; [assumption|]. split; [intros; apply Hb; assumption|]. intros _. eauto.
    + destruct (i0 =? 0); inversion H; subst; lia.
Qed.

Lemma isDigit_bounds c : net.isDigit c = true <-> 48 <= net.code c <= 57.
Proof. unfold net.isDigit. rewrite andb_true_iff, !Z.leb_le. tauto. Qed.

Lemma digitsValue_nonneg s n0 n :
  0 <= n0 -> strconv.digitsValue s n0 = Some n -> 0 <= n.
Proof.
  revert n0. induction s as [|c s IH]; intros n0 Hn0 H; cbn in H; [injection H as <-; lia|].
  destruct (net.isDigit c) eqn:E; [|discriminate].
  apply isDigit_bounds in E. apply (IH (n0 * 10 + (net.code c - 48))); [lia|exact H].
Qed.

Lemma dtoi_Atoi s n :
  net.dtoi s = (n, Z.of_nat (String.length s), true) -> strconv.Atoi s = Some n.
Proof.
  intros H. unfold net.dtoi in H.
  destruct (dtoiLoop_digits s 0 0 n _ H) as (Hv & Hb & Hne); [lia|].
  destruct s as [|c s]; [cbn in H; discriminate|].
  destruct Hne as (c' & s' & E & Hd); [discriminate|]. injection E as <- <-.
  unfold strconv.Atoi.
  assert (Ascii.eqb c "-" = false) as ->.
  { apply Ascii.eqb_neq. intros ->. discriminate. }
  assert (Ascii.eqb c "+" = false) as ->.
  { apply Ascii.eqb_neq. intros ->. discriminate. }
  cbn [orb]. rewrite Hv.
  assert (0 <= n) by (apply (digitsValue_nonneg _ _ _ (Z.le_refl 0) Hv)).
  specialize (Hb ltac:(unfold net.big; lia)). unfold net.big in Hb.
  assert ((- 2 ^ 63 <=? n) && (n <=? 2 ^ 63 - 1) = true) as ->; [|reflexivity].
  change (2 ^ 63) with 9223372036854775808. apply andb_true_iff. split; apply Z.leb_le; lia.
Qed.

(** ** The addresses the parsers return *)

Lemma u8_byte z : 0 <= u8 z < 256.
Proof. unfold u8. apply Z.mod_pos_bound. lia. Qed.

Lemma isBytes_insert l i v :
  isBytes l = true -> 0 <= v < 256 -> isBytes (<[i := v]> l) = true.
Proof.
  revert i. induction l as [|b l IH]; intros i Hl Hv; [reflexivity|].
  apply isBytes_cons in Hl as [Hb Hl].
  destruct i; cbn [insert list_insert]; apply isBytes_cons; auto.
Qed.

Lemma isBytes_app x y : isBytes (x ++ y) = isBytes x && isBytes y.
Proof. unfold isBytes. apply forallb_app. Qed.

Lemma parseIPv4Loop_bytes s prev val pos digLen fields f :
  net.parseIPv4Loop s prev val pos digLen fields = Some f ->
  length fields = 4%nat -> isBytes fields = true ->
  length f = 4%nat /\ isBytes f = true.
Proof.
  revert prev val pos digLen fields.
  induction s as [|c s IH]; intros prev val pos digLen fields H Hl Hb.
  - cbn [net.parseIPv4Loop] in H. destruct (pos <? 3)%nat; [discriminate|]. injection H as <-.
    rewrite length_insert. split; [assumption|].
    apply isBytes_insert; [assumption|apply u8_byte].
  - cbn [net.parseIPv4Loop] in H.
    destruct (net.isDigit c).
    + destruct ((digLen =? 1) && (val =? 0)); [discriminate|].
      destruct (255 <? val * 10 + (net.code c - 48)); [discriminate|].
      eapply IH; eassumption.
    + destruct (Ascii.eqb c "."); [|discriminate].
      destruct (bool_decide (prev = None) || bool_decide (s = "")
                || bool_decide (prev = Some "."%char)); [discriminate|].
      destruct (pos =? 3)%nat; [discriminate|].
      eapply IH; [eassumption|rewrite length_insert; assumption|].
      apply isBytes_insert; [assumption|apply u8_byte].
Qed.

Lemma parseIPv4_bytes s f :
  net.parseIPv4 s = Some f -> isIPv4 f = true.
Proof.
  intros H. destruct (parseIPv4Loop_bytes _ _ _ _ _ _ _ H) as [Hl Hb]; try reflexivity.
  unfold isIPv4. rewrite Hl, Hb. reflexivity.
Qed.

Lemma parseIPv6Loop_bytes fuel s ip ellipsis s' ip' ellipsis' :
  net.parseIPv6Loop fuel s ip ellipsis = Some (s', ip', ellipsis') ->
  Nat.even (length ip) = true -> (length ip <= 16)%nat -> isBytes ip = true ->
  (length ip' <= 16)%nat /\ isBytes ip' = true.
Proof.
  revert s ip ellipsis.
  induction fuel as [|fuel IH]; intros s ip ellipsis H Hev Hle Hb; [discriminate|].
  cbn [net.parseIPv6Loop] in H.
  destruct (Nat.leb_spec 16 (length ip)).
  { injection H as <- <- <-. auto. }
  assert (Hlt : (length ip + 2 <= 16)%nat).
  { destruct (Nat.even_spec (length ip)) as [Heven _]. destruct (Heven Hev) as [k Hk]. lia. }
  destruct (net.hexGroup s 0 0) as [[[off acc] rest]|]; [|discriminate].
  destruct (off =? 0); [discriminate|].
  assert (Hnext : forall l : list Z, l = ip ++ [u8 (shr acc 8); u8 acc] ->
            Nat.even (length l) = true /\ (length l <= 16)%nat /\ isBytes l = true).
  { intros l ->. rewrite length_app, isBytes_app, Hb. cbn [length].
    split; [|split; [lia|]].
    - replace (length ip + 2)%nat with (S (S (length ip))) by lia. exact Hev.
    - cbn. unfold isByte.
      pose proof (u8_byte (shr acc 8)). pose proof (u8_byte acc).
      repeat (apply andb_true_iff; split); try reflexivity;
        (apply Z.leb_le || apply Z.ltb_lt); lia. }
  destruct (Hnext _ eq_refl) as (Hev' & Hle' & Hb').
  assert (Hgroup :
    match rest with
    | "" => Some ("", ip ++ [u8 (shr acc 8); u8 acc], ellipsis)
    | String c rest1 =>
        if negb (Ascii.eqb c ":") then None
        else match rest1 with
             | "" => None
             | String ":"%char rest2 =>
                 match ellipsis with
                 | Some _ => None
                 | None =>
                     match rest2 with
                     | "" => Some ("", ip ++ [u8 (shr acc 8); u8 acc],
                                   Some (length (ip ++ [u8 (shr acc 8); u8 acc])))
                     | _ => net.parseIPv6Loop fuel rest2 (ip ++ [u8 (shr acc 8); u8 acc])
                              (Some (length (ip ++ [u8 (shr acc 8); u8 acc])))
                     end
                 end
             | _ => net.parseIPv6Loop fuel rest1 (ip ++ [u8 (shr acc 8); u8 acc]) ellipsis
             end
    end = Some (s', ip', ellipsis') ->
    (length ip' <= 16)%nat /\ isBytes ip' = true).
  { intros G. destruct rest as [|c rest1].
    - injection G as <- <- <-. auto.
    - destruct (negb (Ascii.eqb c ":")); [discriminate|].
      destruct rest1 as [|c2 rest2]; [discriminate|].
      destruct (Ascii.eqb_spec c2 ":") as [->|Hne].
      + destruct ellipsis; [discriminate|].
        destruct rest2; [injection G as <- <- <-; auto|].
        eapply IH; eassumption.
      + assert (G' : net.parseIPv6Loop fuel (String c2 rest2)
                       (ip ++ [u8 (shr acc 8); u8 acc]) ellipsis = Some (s', ip', ellipsis')).
        { destruct c2 as [[] [] [] [] [] [] [] []]; try exact G. congruence. }
        eapply IH; eassumption. }
  destruct rest as [|c rest1]; [apply Hgroup; exact H|].
  destruct (Ascii.eqb_spec c ".") as [->|Hne].
  - destruct (bool_decide (ellipsis = None) && negb (length ip =? 12)%nat); [discriminate|].
    destruct (Nat.ltb_spec 16 (length ip + 4)); [discriminate|].
    destruct (net.parseIPv4 s) as [f|] eqn:Hf; [|discriminate].
    injection H as <- <- <-. apply parseIPv4_bytes in Hf.
    apply isIPv4_parts in Hf as [Hfl Hfb].
    rewrite length_app, isBytes_app, Hb, Hfb, Hfl. split; [lia|reflexivity].
  - apply Hgroup.
    destruct c as [[] [] [] [] [] [] [] []]; try exact H. congruence.
Qed.

Lemma isBytes_replicate n : isBytes (replicate n 0) = true.
Proof. induction n; [reflexivity|]. cbn [replicate]. apply isBytes_cons. split; [lia|assumption]. Qed.

Lemma parseIPv6_bytes s ip zone :
  net.parseIPv6 s = Some (ip, zone) -> length ip = 16%nat /\ isBytes ip = true.
Proof.
  unfold net.parseIPv6. destruct (net.cutZone s) as [t z].
  destruct (bool_decide (z = Some "")); [discriminate|].
  set (expand := fun st : net.v6state => _).
  assert (Hexp : forall st r, expand st = Some r ->
            (length (st.1.2) <= 16)%nat -> isBytes (st.1.2) = true ->
            length r.1 = 16%nat /\ isBytes r.1 = true).
  { intros [[s1 ip1] e1] r. unfold expand. cbn [fst snd].
    destruct (negb (bool_decide (s1 = ""))); [discriminate|].
    destruct (Nat.ltb_spec (length ip1) 16).
    - destruct e1 as [e|]; [|discriminate]. intros [= <-] Hl Hb. cbn [fst].
      rewrite !length_app, length_take, length_drop, length_replicate.
      split; [lia|].
      rewrite !isBytes_app, isBytes_replicate.
      rewrite <- (take_drop e ip1), isBytes_app in Hb.
      apply andb_true_iff in Hb as [-> ->]. reflexivity.
    - destruct e1; [discriminate|]. intros [= <-] Hl Hb. cbn [fst]. split; [lia|assumption]. }
  assert (Hloop : forall s0 e0 r,
            net.parseIPv6Loop 9 s0 [] e0 ≫= expand = Some r ->
            length r.1 = 16%nat /\ isBytes r.1 = true).
  { intros s0 e0 r H.
    destruct (net.parseIPv6Loop 9 s0 [] e0) as [[[s1 ip1] e1]|] eqn:E; [|discriminate].
    destruct (parseIPv6Loop_bytes _ _ _ _ _ _ _ E) as [Hl Hb]; try reflexivity; [cbn; lia|].
    apply (Hexp _ _ H); assumption. }
  intros H.
  destruct t as [|c1 t1].
  { apply (Hloop _ _ _ H). }
  destruct (Ascii.eqb_spec c1 ":") as [->|Hc1].
  2:{ apply (Hloop (String c1 t1) None (ip, zone)).
      destruct c1 as [[] [] [] [] [] [] [] []]; try exact H. congruence. }
  destruct t1 as [|c2 t2].
  { apply (Hloop _ _ _ H). }
  destruct (Ascii.eqb_spec c2 ":") as [->|Hc2].
  2:{ apply (Hloop (String ":" (String c2 t2)) None (ip, zone)).
      destruct c2 as [[] [] [] [] [] [] [] []]; try exact H. congruence. }
  destruct t2 as [|c3 t3].
  - injection H as <- _. split; reflexivity.
  - apply (Hloop _ _ _ H).
Qed.

Lemma parseAddrScan_bytes rest s a :
  net.parseAddrScan rest s = Some a ->
  isBytes (addrBytes a) = true /\ Z.of_nat (length (addrBytes a)) * 8 = net.BitLen a.
Proof.
  induction rest as [|c rest IH]; intros H; [discriminate|].
  cbn [net.parseAddrScan] in H.
  destruct (Ascii.eqb c ".").
  { destruct (net.parseIPv4 s) as [f|] eqn:E; [|discriminate]. injection H as <-.
    apply parseIPv4_bytes, isIPv4_parts in E as [Hl Hb]. cbn. rewrite Hl. auto. }
  destruct (Ascii.eqb c ":").
  { destruct (net.parseIPv6 s) as [[ip zone]|] eqn:E; [|discriminate]. injection H as <-.
    apply parseIPv6_bytes in E as [Hl Hb]. cbn. rewrite Hl. auto. }
  destruct (Ascii.eqb c "%"); [discriminate|]. auto.
Qed.

(** ** Size gives back the number of ones of a mask *)

Lemma Size_CIDRMask ones bits :
  bits = 32 \/ bits = 128 -> 0 <= ones <= bits ->
  net.Size (net.CIDRMask ones bits) = (ones, bits).
Proof.
  intros Hb Ho.
  assert (H : (net.Size (net.CIDRMask ones bits)).1 = ones /\
              (net.Size (net.CIDRMask ones bits)).2 = bits).
  { destruct Hb as [-> | ->]; split; apply Z.eqb_eq.
    - apply (range_check (fun n => (net.Size (net.CIDRMask n 32)).1 =? n) 0 33);
        [vm_compute; reflexivity|lia].
    - apply (range_check (fun n => (net.Size (net.CIDRMask n 32)).2 =? 32) 0 33);
        [vm_compute; reflexivity|lia].
    - apply (range_check (fun n => (net.Size (net.CIDRMask n 128)).1 =? n) 0 129);
        [vm_compute; reflexivity|lia].
    - apply (range_check (fun n => (net.Size (net.CIDRMask n 128)).2 =? 128) 0 129);
        [vm_compute; reflexivity|lia]. }
  destruct (net.Size (net.CIDRMask ones bits)) as [x y]. cbn in H.
  destruct H as [-> ->]. reflexivity.
Qed.

(** ** Mask *)

Lemma Mask_v4 f m :
  length f = 4%nat -> length m = 4%nat ->
  net.Mask (net.v4InV6Prefix ++ f) m = zip_with Z.land f m.
Proof.
  intros Hf Hm.
  destruct f as [|f0 [|f1 [|f2 [|f3 [|]]]]]; try discriminate.
  destruct m as [|m0 [|m1 [|m2 [|m3 [|]]]]]; try discriminate.
  reflexivity.
Qed.

Lemma Mask_v6 ip m :
  length ip = 16%nat -> length m = 16%nat -> net.Mask ip m = zip_with Z.land ip m.
Proof.
  intros Hi Hm. unfold net.Mask. rewrite Hi, Hm.
  change ((16 =? net.IPv6len)%nat && (16 =? net.IPv4len)%nat) with false.
  cbn [andb]. rewrite Hm.
  change ((16 =? net.IPv4len)%nat && (16 =? net.IPv6len)%nat) with false.
  cbn [andb]. rewrite Hi. reflexivity.
Qed.

(** ** ParseCIDR *)

Lemma ParseCIDR_ok cidr info :
  ParseCIDR cidr = Ok info ->
  exists ipStr prefixStr ipAddr,
    strings.SplitSlash cidr = [ipStr; prefixStr] /\
    net.ParseAddr ipStr = Some ipAddr /\
    strconv.Atoi prefixStr = Some (PrefixLength info) /\
    0 <= PrefixLength info <= 32 /\
    isBytes (addrBytes ipAddr) = true /\
    Z.of_nat (length (addrBytes ipAddr)) * 8 = net.BitLen ipAddr /\
    SubnetMask info = net.CIDRMask (PrefixLength info) (net.BitLen ipAddr) /\
    WildcardMask info = calculateWildcardMask (SubnetMask info) /\
    NetworkID info = zip_with Z.land (addrBytes ipAddr) (SubnetMask info) /\
    BroadcastAddr info = zip_with Z.lor (NetworkID info) (WildcardMask info) /\
    usablePolicy info.
Proof.
  unfold ParseCIDR. intros H.
  destruct (validateCIDRFormat cidr) as [e|] eqn:Hval; [discriminate|].
  apply validateCIDRFormat_ok in Hval
    as (ipStr & prefixStr & ip0 & ip4 & prefix & Hsplit & _ & _ & Hatoi & Hrange).
  destruct (SplitSlash_two _ _ _ Hsplit) as (_ & _ & _ & Hcut).
  unfold net.ParseCIDR in H. rewrite Hcut in H.
  destruct (net.ParseAddr ipStr) as [ipAddr|] eqn:Haddr; [|discriminate].
  destruct (negb (bool_decide (net.Zone ipAddr = ""))); [discriminate|].
  destruct (net.dtoi prefixStr) as [[n i] ok] eqn:Hdtoi.
  destruct ok; [|discriminate]. cbn [negb orb] in H.
  destruct (Z.eqb_spec i (Z.of_nat (String.length prefixStr))) as [->|]; [|discriminate].
  cbn [negb orb] in H.
  destruct (Z.ltb_spec n 0); [discriminate|].
  destruct (Z.ltb_spec (net.BitLen ipAddr) n); [discriminate|]. cbn [orb] in H.
  rewrite (dtoi_Atoi _ _ Hdtoi) in Hatoi. injection Hatoi as ->.
  pose proof (dtoi_Atoi _ _ Hdtoi) as Hatoi.
  destruct (parseAddrScan_bytes _ _ _ Haddr) as [Hbytes Hbits].
  assert (Hbl : net.BitLen ipAddr = 32 \/ net.BitLen ipAddr = 128)
    by (destruct ipAddr; auto).
  destruct (CIDRMask_value prefix (net.BitLen ipAddr) Hbl) as (Hml & Hmb & _); [lia|].
  set (m := net.CIDRMask prefix (net.BitLen ipAddr)) in *.
  assert (Hmlen : length m = length (addrBytes ipAddr)).
  { rewrite Hml, <- Hbits. rewrite Z.div_mul by lia. apply Nat2Z.id. }
  assert (Hmask : net.Mask (net.As16 ipAddr) m = zip_with Z.land (addrBytes ipAddr) m).
  { destruct ipAddr as [f|ip6 zone]; cbn [net.As16 addrBytes net.BitLen] in *.
    - apply Mask_v4; lia.
    - apply Mask_v6; lia. }
  rewrite Hmask in H.
  destruct (net.To4 (net.As16 ipAddr)); [|discriminate].
  cbn [net.IPNet_IP net.IPNet_Mask] in H.
  assert (Hsize : net.Size m = (prefix, net.BitLen ipAddr))
    by (apply Size_CIDRMask; [assumption|lia]).
  rewrite Hsize in H. cbn [fst] in H.
  unfold calculateBroadcastAddress in H.
  rewrite orLoop_ok in H.
  2:{ unfold calculateWildcardMask. rewrite length_map, length_zip_with. lia. }
  cbn [mbind result_bind] in H. injection H as <-.
  match goal with |- context [calculateUsableRange ?x] => set (info0 := x) end.
  destruct (calculateUsableRange_frame info0) as (_ & Hn & Hb & Hs & Hw & Hl).
  assert (Hpol : usablePolicy (calculateUsableRange info0))
    by (apply calculateUsableRange_policy; cbn; lia).
  exists ipStr, prefixStr, ipAddr.
  rewrite Hn, Hb, Hs, Hw, Hl.
  cbn [info0 NetworkID BroadcastAddr SubnetMask WildcardMask PrefixLength].
  split; [assumption|]. split; [assumption|]. split; [assumption|].
  split; [assumption|]. split; [assumption|]. split; [assumption|].
  split; [reflexivity|]. split; [reflexivity|]. split; [reflexivity|].
  split; [reflexivity|]. exact Hpol.
Qed.

(** ** The descriptor *)

(** C2, as the code has it. TotalHosts is a uint32: for a prefix length
    from 0 to 30 it is [(1 << hostBits) - 2] computed on 32 bits, its
    value is exactly 2^(32-prefix) - 2 and fits 32 bits; from /1 on the
    power is exact, and at /0 the power [1 << 32] is 0 on 32 bits and the
    subtraction wraps around to 4294967294. *)
Theorem host_count_uint32 (info : NetworkInfo) :
  0 <= PrefixLength info <= 30 ->
  TotalHosts (calculateUsableRange info)
    = u32 (shl32 1 (uint (int (32 - PrefixLength info))) - 2) /\
  TotalHosts (calculateUsableRange info) = 2 ^ (32 - PrefixLength info) - 2 /\
  0 <= TotalHosts (calculateUsableRange info) < 2 ^ 32 /\
  (1 <= PrefixLength info -> hostPowerExact (PrefixLength info)) /\
  (PrefixLength info = 0 ->
     shl32 1 (uint (int (32 - PrefixLength info))) = 0 /\
     TotalHosts (calculateUsableRange info) = 4294967294).
Proof.
  intros Hp.
  assert (Hcode : TotalHosts (calculateUsableRange info)
                  = u32 (shl32 1 (uint (int (32 - PrefixLength info))) - 2)).
  { unfold calculateUsableRange.
    destruct (Z.eqb_spec (PrefixLength info) 32); [lia|].
    destruct (Z.eqb_spec (PrefixLength info) 31); [lia|].
    destruct (30 <=? int (32 - PrefixLength info)); reflexivity. }
  pose proof (hostCount_value (PrefixLength info) Hp) as Hv.
  split; [exact Hcode|]. split; [congruence|]. split.
  - rewrite Hcode. unfold u32. apply Z.mod_pos_bound. reflexivity.
  - split.
    + intros H1. apply hostPower_exact. lia.
    + intros E. rewrite Hcode, E. split; reflexivity.
Qed.

Lemma host_count_uint32_witness :
  TotalHosts (calculateUsableRange
                (mkNetworkInfo (net.mkIPNet [10; 0; 0; 0] [255; 0; 0; 0])
                   [10; 0; 0; 0] [10; 255; 255; 255] [255; 0; 0; 0]
                   [0; 255; 255; 255] [] [] 0 8))
  = 2 ^ (32 - 8) - 2.
Proof.
  destruct (host_count_uint32
              (mkNetworkInfo (net.mkIPNet [10; 0; 0; 0] [255; 0; 0; 0])
                 [10; 0; 0; 0] [10; 255; 255; 255] [255; 0; 0; 0]
                 [0; 255; 255; 255] [] [] 0 8)) as (_ & H & _).
  - cbn. lia.
  - exact H.
Defined.

(** C2 as stated fails at prefix length 0: the power [1 << 32] is not
    computed without overflow, it is 0 on the 32 bits of TotalHosts, and a
    33-bit value such as 2^32 does not survive the conversion to uint32. *)
Lemma host_power_overflows_at_0 :
  ~ hostPowerExact 0 /\ shl32 1 (uint (int (32 - 0))) = 0 /\ u32 (2 ^ 32) <> 2 ^ 32.
Proof.
  unfold hostPowerExact. split; [|split].
  - vm_compute. discriminate.
  - reflexivity.
  - vm_compute. discriminate.
Qed.

Lemma complement_bits m w k :
  0 <= k < w -> Z.testbit (2 ^ w - 1 - m) k = negb (Z.testbit m k).
Proof.
  intros Hk. rewrite <- Z.lnot_spec by lia.
  rewrite <- (Z.mod_pow2_bits_low (2 ^ w - 1 - m) w k) by lia.
  rewrite <- (Z.mod_pow2_bits_low (Z.lnot m) w k) by lia.
  f_equal. unfold Z.lnot.
  replace (2 ^ w - 1 - m) with (Z.pred (- m) + 1 * 2 ^ w) by lia.
  apply Z.mod_add. assert (0 < 2 ^ w) by (apply Z.pow_pos_nonneg; lia). lia.
Qed.

(** C5. For every input that ParseCIDR accepts, with the address [addr]
    that the text before the slash denotes (canonical or not) and the
    prefix length p after it, on the width w of the address (32 bits for
    the dotted form): p is from 0 to 32; the subnet mask has its p leading
    bits set and the other bits clear; the wildcard mask is its bitwise
    complement; the network id is [addr AND mask]; and the broadcast
    address is [network id OR wildcard mask]. Each holds byte by byte and
    on the values of the byte sequences. *)
Theorem descriptor_invariants (cidr : string) (info : NetworkInfo) :
  ParseCIDR cidr = Ok info ->
  exists ipStr prefixStr ipAddr,
    strings.SplitSlash cidr = [ipStr; prefixStr] /\
    net.ParseAddr ipStr = Some ipAddr /\
    strconv.Atoi prefixStr = Some (PrefixLength info) /\
    let addr := addrBytes ipAddr in
    let w := net.BitLen ipAddr in
    let p := PrefixLength info in
    0 <= p <= 32 /\
    (w = 32 \/ w = 128) /\ Z.of_nat (length addr) * 8 = w /\
    (net.parseIPv4 ipStr = Some addr -> w = 32) /\
    (* the subnet mask *)
    SubnetMask info = net.CIDRMask p w /\
    ipValue (SubnetMask info) = 2 ^ w - 2 ^ (w - p) /\
    (forall k, 0 <= k < w ->
       Z.testbit (ipValue (SubnetMask info)) (w - 1 - k) = (k <? p)) /\
    (* the wildcard mask *)
    WildcardMask info = map not8 (SubnetMask info) /\
    ipValue (WildcardMask info) = 2 ^ w - 1 - ipValue (SubnetMask info) /\
    (forall k, 0 <= k < w ->
       Z.testbit (ipValue (WildcardMask info)) k
       = negb (Z.testbit (ipValue (SubnetMask info)) k)) /\
    (* the network id *)
    NetworkID info = zip_with Z.land addr (SubnetMask info) /\
    ipValue (NetworkID info) = Z.land (ipValue addr) (ipValue (SubnetMask info)) /\
    (* the broadcast address *)
    BroadcastAddr info = zip_with Z.lor (NetworkID info) (WildcardMask info) /\
    ipValue (BroadcastAddr info)
      = Z.lor (ipValue (NetworkID info)) (ipValue (WildcardMask info)).
Proof.
  intros H.
  destruct (ParseCIDR_ok cidr info H)
    as (ipStr & prefixStr & ipAddr & Hsplit & Haddr & Hatoi & Hp & Hbytes & Hbits
        & Hm & Hw & Hn & Hb & _).
  exists ipStr, prefixStr, ipAddr.
  split; [assumption|]. split; [assumption|]. split; [assumption|]. cbv zeta.
  assert (Hbl : net.BitLen ipAddr = 32 \/ net.BitLen ipAddr = 128)
    by (destruct ipAddr; auto).
  destruct (CIDRMask_value (PrefixLength info) (net.BitLen ipAddr) Hbl)
    as (Hml & Hmb & Hmv); [lia|].
  rewrite <- Hm in Hml, Hmb, Hmv.
  assert (Hmlen : length (SubnetMask info) = length (addrBytes ipAddr)).
  { rewrite Hml, <- Hbits. rewrite Z.div_mul by lia. apply Nat2Z.id. }
  assert (Hwv : ipValue (WildcardMask info)
                = 2 ^ net.BitLen ipAddr - 1 - ipValue (SubnetMask info)).
  { rewrite Hw, ipValue_wildcard, Hmlen, pow256 by (assumption || lia).
    rewrite Z.mul_comm, Hbits. reflexivity. }
  assert (Hnb : isBytes (NetworkID info) = true)
    by (rewrite Hn; apply isBytes_land; assumption).
  assert (Hwb : isBytes (WildcardMask info) = true)
    by (rewrite Hw; apply isBytes_wildcard; assumption).
  split; [assumption|]. split; [assumption|]. split; [assumption|].
  split.
  { intros H4. destruct ipAddr as [f|ip6 zone]; [reflexivity|].
    cbn [addrBytes] in *. apply parseIPv4_bytes, isIPv4_parts in H4 as [H4 _].
    cbn [net.BitLen] in Hbits. lia. }
  split; [assumption|]. split; [assumption|].
  split.
  { intros k Hk. rewrite Hm. apply CIDRMask_bits; [assumption|lia|assumption]. }
  split; [assumption|]. split; [assumption|].
  split.
  { intros k Hk. rewrite Hwv. apply complement_bits. assumption. }
  split; [assumption|].
  split.
  { rewrite Hn at 1. apply ipValue_land; [assumption|assumption|lia]. }
  split; [assumption|].
  rewrite Hb at 1. apply ipValue_lor; [assumption|assumption|].
  rewrite Hn, Hw. unfold calculateWildcardMask.
  rewrite length_zip_with, length_map. lia.
Qed.

Lemma descriptor_invariants_witness :
  exists info,
    ParseCIDR "192.168.1.77/24" = Ok info /\
    ipValue (NetworkID info)
      = Z.land (ipValue [192; 168; 1; 77]) (ipValue (SubnetMask info)).
Proof.
  eexists. split; [reflexivity|].
  destruct (descriptor_invariants "192.168.1.77/24" _ eq_refl)
    as (ipStr & prefixStr & ipAddr & Hs & Ha & _ & H).
  vm_compute in Hs. injection Hs as <- <-.
  vm_compute in Ha. injection Ha as <-.
  cbv zeta in H. apply H.
Defined.

(** What ParseCIDR returns for an address in the dotted form satisfies the
    invariants of a descriptor. *)
Lemma ParseCIDR_descriptorInvariant cidr info :
  ParseCIDR cidr = Ok info -> length (NetworkID info) = 4%nat ->
  descriptorInvariant info.
Proof.
  intros H Hlen.
  destruct (ParseCIDR_ok cidr info H)
    as (ipStr & prefixStr & ipAddr & Hsplit & Haddr & Hatoi & Hp & Hbytes & Hbits
        & Hm & Hw & Hn & Hb & _).
  assert (Hbl : net.BitLen ipAddr = 32 \/ net.BitLen ipAddr = 128)
    by (destruct ipAddr; auto).
  destruct (CIDRMask_value (PrefixLength info) (net.BitLen ipAddr) Hbl)
    as (Hml & Hmb & Hmv); [lia|].
  rewrite <- Hm in Hml, Hmb.
  assert (Hmlen : length (SubnetMask info) = length (addrBytes ipAddr)).
  { rewrite Hml, <- Hbits. rewrite Z.div_mul by lia. apply Nat2Z.id. }
  assert (H32 : net.BitLen ipAddr = 32).
  { rewrite Hn, length_zip_with, Hmlen, Nat.min_id in Hlen. lia. }
  unfold descriptorInvariant. rewrite H32 in Hm.
  split.
  { unfold isIPv4. rewrite Hlen. rewrite Hn. apply isBytes_land; assumption. }
  split; [assumption|]. split; [assumption|]. split; [assumption|].
  split; [|assumption].
  rewrite Hn at 1. rewrite Hn. clear -Hmlen.
  revert Hmlen. generalize (SubnetMask info) (addrBytes ipAddr).
  intros m a. revert m. induction a as [|x a IH]; intros [|y m] Hl; try reflexivity.
  cbn [zip_with]. injection Hl as Hl.
  rewrite <- IH by assumption.
  rewrite <- Z.land_assoc, Z.land_diag. reflexivity.
Qed.

(** ** The usable range by value *)

Lemma incrementIP_value ip :
  isIPv4 ip = true ->
  isIPv4 (incrementIP ip) = true /\
  ipValue (incrementIP ip) = (ipValue ip + 1) mod 2 ^ 32.
Proof.
  intros H. destruct (isIPv4_inv _ H) as (a & b & c & d & -> & Ha & Hb & Hc & Hd).
  destruct (incrementIP4 a b c d Ha Hb Hc Hd)
    as (a' & b' & c' & d' & -> & (Ha' & Hb' & Hc' & Hd') & E).
  split; [apply isIPv4_intro; assumption|exact E].
Qed.

Lemma decrementIP_value ip :
  isIPv4 ip = true ->
  isIPv4 (decrementIP ip) = true /\
  ipValue (decrementIP ip) = (ipValue ip - 1) mod 2 ^ 32.
Proof.
  intros H. destruct (isIPv4_inv _ H) as (a & b & c & d & -> & Ha & Hb & Hc & Hd).
  destruct (decrementIP4 a b c d Ha Hb Hc Hd)
    as (a' & b' & c' & d' & -> & (Ha' & Hb' & Hc' & Hd') & E).
  split; [apply isIPv4_intro; assumption|exact E].
Qed.

Lemma descriptor_broadcast info :
  descriptorInvariant info -> isIPv4 (BroadcastAddr info) = true.
Proof.
  intros (Hid & Hrange & Hm & Hw & _ & Hbc).
  destruct (wildcard_value (PrefixLength info) Hrange) as (Lw & Bw & _).
  cbv zeta in Lw, Bw. rewrite <- Hm, <- Hw in Lw, Bw.
  destruct (isIPv4_parts _ Hid) as [Li Bi].
  unfold isIPv4. rewrite Hbc, length_zip_with, isBytes_lor by assumption.
  rewrite Li, Lw. reflexivity.
Qed.

(** Up to /30 the successor of the network id and the predecessor of the
    broadcast address of a valid descriptor are taken without wrap-around
    and in this order. *)
Lemma usable_values info :
  descriptorInvariant info -> 0 <= PrefixLength info <= 30 ->
  ipValue (incrementIP (NetworkID info)) = ipValue (NetworkID info) + 1 /\
  ipValue (decrementIP (BroadcastAddr info)) = ipValue (BroadcastAddr info) - 1 /\
  ipValue (incrementIP (NetworkID info)) <= ipValue (decrementIP (BroadcastAddr info)).
Proof.
  intros Hinv Hp.
  pose proof (descriptor_broadcast _ Hinv) as Hbid.
  destruct (descriptor_block _ Hinv) as (_ & Hv & Hle & Hb). cbv zeta in Hle, Hb.
  destruct Hinv as (Hid & _).
  assert (Hs : 4 <= 2 ^ (32 - PrefixLength info)).
  { change 4 with (2 ^ 2). apply Z.pow_le_mono_r; lia. }
  rewrite (proj2 (incrementIP_value _ Hid)), (proj2 (decrementIP_value _ Hbid)).
  rewrite !Z.mod_small by lia. lia.
Qed.

(** C1. For a prefix length from 0 to 32 calculateUsableRange leaves the
    other fields as they are and sets the usable range by the three-way
    policy: at 32 the first and the last usable address are the network id
    and there is 1 host; at 31 they are the network id and the broadcast
    address and there are 2 hosts; from 0 to 30 they are incrementIP of
    the network id and decrementIP of the broadcast address and there are
    2^(32-prefix) - 2 hosts. These two addresses are fixed by value: on
    4-byte addresses they are the network id plus 1 and the broadcast
    address minus 1 modulo 2^32, and on a valid descriptor, as on every
    IPv4 descriptor that ParseCIDR builds, exactly the network id plus 1
    and the broadcast address minus 1. *)
Theorem usable_range_policy (info : NetworkInfo) :
  0 <= PrefixLength info <= 32 ->
  let info' := calculateUsableRange info in
  (NetworkID info' = NetworkID info /\
   BroadcastAddr info' = BroadcastAddr info /\
   SubnetMask info' = SubnetMask info /\
   WildcardMask info' = WildcardMask info /\
   PrefixLength info' = PrefixLength info) /\
  (PrefixLength info = 32 ->
     FirstUsableIP info' = NetworkID info /\
     LastUsableIP info' = NetworkID info /\
     TotalHosts info' = 1) /\
  (PrefixLength info = 31 ->
     FirstUsableIP info' = NetworkID info /\
     LastUsableIP info' = BroadcastAddr info /\
     TotalHosts info' = 2) /\
  (0 <= PrefixLength info <= 30 ->
     FirstUsableIP info' = incrementIP (NetworkID info) /\
     LastUsableIP info' = decrementIP (BroadcastAddr info) /\
     TotalHosts info' = 2 ^ (32 - PrefixLength info) - 2) /\
  (* the two addresses by value, on 4-byte addresses *)
  (0 <= PrefixLength info <= 30 ->
   isIPv4 (NetworkID info) = true -> isIPv4 (BroadcastAddr info) = true ->
     isIPv4 (FirstUsableIP info') = true /\
     isIPv4 (LastUsableIP info') = true /\
     ipValue (FirstUsableIP info') = (ipValue (NetworkID info) + 1) mod 2 ^ 32 /\
     ipValue (LastUsableIP info') = (ipValue (BroadcastAddr info) - 1) mod 2 ^ 32) /\
  (* on a valid descriptor there is no wrap-around *)
  (0 <= PrefixLength info <= 30 -> descriptorInvariant info ->
     ipValue (FirstUsableIP info') = ipValue (NetworkID info) + 1 /\
     ipValue (LastUsableIP info') = ipValue (BroadcastAddr info) - 1 /\
     ipValue (FirstUsableIP info') <= ipValue (LastUsableIP info')) /\
  (* the IPv4 descriptors that ParseCIDR builds *)
  (forall cidr, ParseCIDR cidr = Ok info -> length (NetworkID info) = 4%nat ->
     (PrefixLength info = 32 ->
        FirstUsableIP info = NetworkID info /\
        LastUsableIP info = NetworkID info /\
        TotalHosts info = 1) /\
     (PrefixLength info = 31 ->
        FirstUsableIP info = NetworkID info /\
        LastUsableIP info = BroadcastAddr info /\
        ipValue (LastUsableIP info) = ipValue (FirstUsableIP info) + 1 /\
        TotalHosts info = 2) /\
     (0 <= PrefixLength info <= 30 ->
        isIPv4 (FirstUsableIP info) = true /\
        isIPv4 (LastUsableIP info) = true /\
        ipValue (FirstUsableIP info) = ipValue (NetworkID info) + 1 /\
        ipValue (LastUsableIP info) = ipValue (BroadcastAddr info) - 1 /\
        TotalHosts info = 2 ^ (32 - PrefixLength info) - 2)).
Proof.
  intros Hp info'.
  destruct (calculateUsableRange_frame info) as (_ & Hn & Hb & Hs & Hw & Hl).
  pose proof (calculateUsableRange_policy info Hp) as Hpol.
  unfold usablePolicy in Hpol. fold info' in Hn, Hb, Hs, Hw, Hl, Hpol.
  rewrite Hn, Hb, Hl in Hpol. destruct Hpol as (P32 & P31 & P30).
  split; [tauto|]. split; [exact P32|]. split; [exact P31|]. split; [exact P30|].
  split; [|split].
  - intros H30 Hid Hbid. destruct (P30 H30) as (-> & -> & _).
    destruct (incrementIP_value _ Hid) as [I1 I2].
    destruct (decrementIP_value _ Hbid) as [D1 D2].
    repeat split; assumption.
  - intros H30 Hinv. destruct (P30 H30) as (-> & -> & _).
    apply usable_values; assumption.
  - intros cidr HP Hlen.
    pose proof (ParseCIDR_descriptorInvariant _ _ HP Hlen) as Hinv.
    destruct (ParseCIDR_ok _ _ HP)
      as (_ & _ & _ & _ & _ & _ & _ & _ & _ & _ & _ & _ & _ & (Q32 & Q31 & Q30)).
    split; [exact Q32|]. split.
    + intros E31. destruct (Q31 E31) as (F & L & T).
      split; [exact F|]. split; [exact L|]. split; [|exact T].
      rewrite F, L.
      destruct (descriptor_block _ Hinv) as (_ & _ & _ & Hbv). cbv zeta in Hbv.
      rewrite Hbv, E31. change (2 ^ (32 - 31)) with 2. lia.
    + intros H30. destruct (Q30 H30) as (F & L & T).
      destruct (usable_values _ Hinv H30) as (V1 & V2 & _).
      pose proof (descriptor_broadcast _ Hinv) as Hbid.
      destruct Hinv as (Hid & _).
      rewrite F, L.
      split; [apply incrementIP_value, Hid|].
      split; [apply decrementIP_value, Hbid|].
      split; [exact V1|]. split; [exact V2|exact T].
Qed.

Lemma usable_range_policy_witness :
  exists info,
    ParseCIDR "192.168.1.77/24" = Ok info /\
    ipValue (FirstUsableIP info) = ipValue [192; 168; 1; 0] + 1 /\
    ipValue (LastUsableIP info) = ipValue [192; 168; 1; 255] - 1 /\
    TotalHosts info = 254.
Proof.
  eexists. split; [reflexivity|].
  match goal with |- context [FirstUsableIP ?d] =>
    destruct (usable_range_policy d) as (_ & _ & _ & _ & _ & _ & H);
      [vm_compute; split; discriminate|]
  end.
  destruct (H "192.168.1.77/24" eq_refl eq_refl) as (_ & _ & H30).
  destruct H30 as (_ & _ & F & L & T); [vm_compute; split; discriminate|].
  split; [exact F|]. split; [exact L|exact T].
Defined.

(** ** The errors of validateCIDRFormat, in the order of its checks *)

Lemma ParseCIDR_invalid cidr e :
  validateCIDRFormat cidr = Some e -> ParseCIDR cidr = Err e.
Proof. unfold ParseCIDR. intros ->. reflexivity. Qed.

Lemma validateCIDRFormat_empty : validateCIDRFormat "" = Some ErrEmpty.
Proof. reflexivity. Qed.

Lemma validateCIDRFormat_slashes cidr :
  cidr <> EmptyString -> countSlash cidr <> 1%nat ->
  validateCIDRFormat cidr = Some ErrExpectedFormat.
Proof.
  intros Hne Hc. unfold validateCIDRFormat.
  rewrite bool_decide_eq_false_2 by assumption.
  rewrite ContainsSlash_count.
  destruct (Nat.eqb_spec (countSlash cidr) 0) as [E|E]; [reflexivity|]. cbn [negb].
  pose proof (SplitSlash_length cidr) as Hl.
  destruct (strings.SplitSlash cidr) as [|a [|b [|c l]]]; try reflexivity.
  cbn in Hl. lia.
Qed.

Lemma validateCIDRFormat_split cidr ipStr prefixStr :
  strings.SplitSlash cidr = [ipStr; prefixStr] ->
  validateCIDRFormat cidr =
    match net.ParseIP ipStr with
    | None => Some (ErrInvalidIP ipStr)
    | Some ip =>
        match net.To4 ip with
        | None => Some ErrIPv6Address
        | Some _ =>
            match strconv.Atoi prefixStr with
            | None => Some (ErrInvalidPrefix prefixStr)
            | Some prefix =>
                if (prefix <? 0) || (32 <? prefix) then Some (ErrPrefixRange prefix)
                else None
            end
        end
    end.
Proof.
  intros Hs. unfold validateCIDRFormat.
  assert (cidr <> EmptyString) by (intros ->; discriminate).
  rewrite bool_decide_eq_false_2 by assumption.
  rewrite ContainsSlash_count.
  pose proof (SplitSlash_length cidr) as Hl. rewrite Hs in Hl. cbn in Hl.
  assert (countSlash cidr = 1%nat) as -> by lia. cbn [Nat.eqb negb].
  rewrite Hs. reflexivity.
Qed.

Lemma digitsValue_allDigits s n :
  allDigits s = false -> strconv.digitsValue s n = None.
Proof.
  revert n. induction s as [|c s IH]; intros n H; [discriminate|].
  cbn [allDigits] in H. cbn [strconv.digitsValue].
  destruct (net.isDigit c); [apply IH; exact H|reflexivity].
Qed.

Lemma Atoi_not_decimal s : isDecimalInteger s = false -> strconv.Atoi s = None.
Proof.
  unfold isDecimalInteger, strconv.Atoi. destruct s as [|c s]; [reflexivity|].
  destruct (Ascii.eqb c "-"); cbn [orb].
  - destruct s as [|c' s]; [reflexivity|].
    rewrite bool_decide_eq_false_2 by discriminate. cbn [negb andb].
    intros Hd. rewrite digitsValue_allDigits by assumption. reflexivity.
  - destruct (Ascii.eqb c "+").
    + destruct s as [|c' s]; [reflexivity|].
      rewrite bool_decide_eq_false_2 by discriminate. cbn [negb andb].
      intros Hd. rewrite digitsValue_allDigits by assumption. reflexivity.
    + rewrite bool_decide_eq_false_2 by discriminate. cbn [negb andb].
      intros Hd. rewrite digitsValue_allDigits by assumption. reflexivity.
Qed.

(** A text is a base-10 integer when it denotes a number. *)
Lemma decimalValue_integer s :
  isDecimalInteger s = true <-> exists v, decimalValue s = Some v.
Proof.
  unfold isDecimalInteger, decimalValue. destruct s as [|c s].
  { split; [discriminate|intros (v & H); discriminate]. }
  set (body := if Ascii.eqb c "-" || Ascii.eqb c "+" then s else String c s).
  case_bool_decide as Hb; cbn [negb andb].
  { split; [discriminate|intros (v & H); discriminate]. }
  destruct (allDigits body) eqn:Hd.
  - split; [intros _|reflexivity].
    destruct (strconv.digitsValue body 0) as [n|] eqn:Hv; [eauto|].
    exfalso. clear -Hd Hv. generalize dependent 0.
    induction body as [|x body IH]; intros n Hv; [discriminate|].
    cbn [allDigits] in Hd. apply andb_true_iff in Hd as [Hx Hd].
    cbn [strconv.digitsValue] in Hv. rewrite Hx in Hv. eauto.
  - rewrite (digitsValue_allDigits _ _ Hd).
    split; [discriminate|intros (v & H); discriminate].
Qed.

(** strconv.Atoi gives the number of a base-10 integer text that fits an
    int, and fails on every other text. *)
Lemma Atoi_decimalValue s :
  strconv.Atoi s =
    match decimalValue s with
    | Some v => if (- 2 ^ 63 <=? v) && (v <=? 2 ^ 63 - 1) then Some v else None
    | None => None
    end.
Proof.
  unfold strconv.Atoi, decimalValue. destruct s as [|c s]; [reflexivity|].
  destruct (if Ascii.eqb c "-" || Ascii.eqb c "+" then s else String c s) as [|x body];
    [reflexivity|].
  rewrite bool_decide_eq_false_2 by discriminate.
  destruct (strconv.digitsValue (String x body) 0); reflexivity.
Qed.

(** C6, as the code has it. ParseCIDR fails with the error of the first
    check of validateCIDRFormat that the text does not pass: on the empty
    text with EmptyInputError; on a text that is not empty and has not
    exactly one slash with FormatError; with an IPv4 address before the
    slash, on a prefix that is not a base-10 integer with FormatError; on
    a prefix that is a base-10 integer outside 0..32 with RangeError when
    the integer fits an int (64 bits), as for "192.168.1.0/33", and with
    FormatError when it does not, as strconv.Atoi then fails. On none of
    these inputs, whatever the address, does ParseCIDR succeed. *)
Theorem parse_errors :
  (ParseCIDR "" = Err ErrEmpty /\ kindOf ErrEmpty = EmptyInputError) /\
  (forall cidr, cidr <> EmptyString -> countSlash cidr <> 1%nat ->
     ParseCIDR cidr = Err ErrExpectedFormat /\ kindOf ErrExpectedFormat = FormatError) /\
  (forall ipStr prefixStr ip ip4,
     countSlash ipStr = O -> countSlash prefixStr = O ->
     net.ParseIP ipStr = Some ip -> net.To4 ip = Some ip4 ->
     (isDecimalInteger prefixStr = false -> strconv.Atoi prefixStr = None) /\
     (strconv.Atoi prefixStr = None ->
        ParseCIDR (ipStr +:+ "/" +:+ prefixStr) = Err (ErrInvalidPrefix prefixStr) /\
        kindOf (ErrInvalidPrefix prefixStr) = FormatError) /\
     (forall n, strconv.Atoi prefixStr = Some n -> n < 0 \/ 32 < n ->
        ParseCIDR (ipStr +:+ "/" +:+ prefixStr) = Err (ErrPrefixRange n) /\
        kindOf (ErrPrefixRange n) = RangeError) /\
     (* by the text of the prefix: not a base-10 integer *)
     (isDecimalInteger prefixStr = false ->
        ParseCIDR (ipStr +:+ "/" +:+ prefixStr) = Err (ErrInvalidPrefix prefixStr) /\
        kindOf (ErrInvalidPrefix prefixStr) = FormatError) /\
     (* a base-10 integer, by its value *)
     (isDecimalInteger prefixStr = true -> exists v, decimalValue prefixStr = Some v) /\
     (forall v, decimalValue prefixStr = Some v ->
        (- 2 ^ 63 <= v < 0 \/ 32 < v <= 2 ^ 63 - 1 ->
           ParseCIDR (ipStr +:+ "/" +:+ prefixStr) = Err (ErrPrefixRange v) /\
           kindOf (ErrPrefixRange v) = RangeError) /\
        (v < - 2 ^ 63 \/ 2 ^ 63 - 1 < v ->
           ParseCIDR (ipStr +:+ "/" +:+ prefixStr) = Err (ErrInvalidPrefix prefixStr) /\
           kindOf (ErrInvalidPrefix prefixStr) = FormatError))) /\
  (ParseCIDR "192.168.1.0/33" = Err (ErrPrefixRange 33) /\
   Error (ErrPrefixRange 33) = "prefix length must be between 0 and 32, got: 33") /\
  (forall cidr,
     cidr = EmptyString \/ countSlash cidr <> 1%nat \/
     (exists ipStr prefixStr,
        strings.SplitSlash cidr = [ipStr; prefixStr] /\
        (strconv.Atoi prefixStr = None \/
         (exists n, strconv.Atoi prefixStr = Some n /\ (n < 0 \/ 32 < n)) \/
         isDecimalInteger prefixStr = false \/
         (exists v, decimalValue prefixStr = Some v /\ (v < 0 \/ 32 < v)))) ->
     exists e, ParseCIDR cidr = Err e).
Proof.
  assert (Hout : forall s v, decimalValue s = Some v -> v < 0 \/ 32 < v ->
            strconv.Atoi s = None \/
            (strconv.Atoi s = Some v /\ - 2 ^ 63 <= v <= 2 ^ 63 - 1)).
  { intros s v Hv _. rewrite Atoi_decimalValue, Hv.
    destruct (Z.leb_spec (- 2 ^ 63) v); cbn [andb]; [|left; reflexivity].
    destruct (Z.leb_spec v (2 ^ 63 - 1)); [right; split; [reflexivity|lia]|left; reflexivity]. }
  split; [split; reflexivity|].
  split.
  { intros cidr Hne Hc. split; [|reflexivity].
    apply ParseCIDR_invalid, validateCIDRFormat_slashes; assumption. }
  split.
  { intros ipStr prefixStr ip ip4 Hi Hp Hip H4.
    pose proof (validateCIDRFormat_split _ _ _ (SplitSlash_join ipStr prefixStr Hi Hp)) as Hv.
    rewrite Hip, H4 in Hv.
    assert (Hnone : strconv.Atoi prefixStr = None ->
              ParseCIDR (ipStr +:+ "/" +:+ prefixStr) = Err (ErrInvalidPrefix prefixStr) /\
              kindOf (ErrInvalidPrefix prefixStr) = FormatError).
    { intros Ha. rewrite Ha in Hv. split; [apply ParseCIDR_invalid; exact Hv|reflexivity]. }
    assert (Hsome : forall n, strconv.Atoi prefixStr = Some n -> n < 0 \/ 32 < n ->
              ParseCIDR (ipStr +:+ "/" +:+ prefixStr) = Err (ErrPrefixRange n) /\
              kindOf (ErrPrefixRange n) = RangeError).
    { intros n Ha Hn. rewrite Ha in Hv.
      assert ((n <? 0) || (32 <? n) = true) as E.
      { apply orb_true_iff. destruct Hn; [left; apply Z.ltb_lt|right; apply Z.ltb_lt]; lia. }
      rewrite E in Hv. split; [apply ParseCIDR_invalid; exact Hv|reflexivity]. }
    split; [apply Atoi_not_decimal|]. split; [exact Hnone|]. split; [exact Hsome|].
    split; [intros Hd; apply Hnone, Atoi_not_decimal, Hd|].
    split; [apply decimalValue_integer|].
    intros v Hval. split.
    - intros Hr. apply Hsome; [|lia].
      rewrite Atoi_decimalValue, Hval.
      destruct (Z.leb_spec (- 2 ^ 63) v); [|lia].
      destruct (Z.leb_spec v (2 ^ 63 - 1)); [reflexivity|lia].
    - intros Hr. apply Hnone. rewrite Atoi_decimalValue, Hval.
      destruct (Z.leb_spec (- 2 ^ 63) v); cbn [andb]; [|reflexivity].
      destruct (Z.leb_spec v (2 ^ 63 - 1)); [lia|reflexivity]. }
  split; [split; reflexivity|].
  intros cidr [-> | [Hc | (ipStr & prefixStr & Hs & Hp)]].
  - exists ErrEmpty. reflexivity.
  - destruct (decide (cidr = EmptyString)) as [->|Hne]; [exists ErrEmpty; reflexivity|].
    exists ErrExpectedFormat. apply ParseCIDR_invalid, validateCIDRFormat_slashes; assumption.
  - pose proof (validateCIDRFormat_split _ _ _ Hs) as Hv.
    destruct (net.ParseIP ipStr) as [ip|]; [|eexists; apply ParseCIDR_invalid; exact Hv].
    destruct (net.To4 ip); [|eexists; apply ParseCIDR_invalid; exact Hv].
    assert (Hp' : strconv.Atoi prefixStr = None \/
                  exists n, strconv.Atoi prefixStr = Some n /\ (n < 0 \/ 32 < n)).
    { destruct Hp as [Ha | [Ha | [Hd | (v & Hval & Hr)]]].
      - left; exact Ha.
      - right; exact Ha.
      - left. apply Atoi_not_decimal, Hd.
      - destruct (Hout _ _ Hval Hr) as [Ha|[Ha _]]; [left; exact Ha|right; eauto]. }
    destruct Hp' as [Ha | (n & Ha & Hn)]; rewrite Ha in Hv.
    + eexists; apply ParseCIDR_invalid; exact Hv.
    + assert ((n <? 0) || (32 <? n) = true) as E.
      { apply orb_true_iff. destruct Hn; [left; apply Z.ltb_lt|right; apply Z.ltb_lt]; lia. }
      rewrite E in Hv. eexists; apply ParseCIDR_invalid; exact Hv.
Qed.

Lemma parse_errors_witness :
  ParseCIDR "192.168.1.0/abc" = Err (ErrInvalidPrefix "abc") /\
  ParseCIDR "192.168.1.0/-1" = Err (ErrPrefixRange (-1)) /\
  ParseCIDR "192.168.1.0/99999999999999999999"
    = Err (ErrInvalidPrefix "99999999999999999999") /\
  ParseCIDR "192.168.1.0/24/25" = Err ErrExpectedFormat.
Proof.
  destruct parse_errors as (_ & Hslash & Hprefix & _).
  destruct (Hprefix "192.168.1.0" "abc" _ _ eq_refl eq_refl eq_refl eq_refl)
    as (_ & _ & _ & Hf & _).
  destruct (Hprefix "192.168.1.0" "-1" _ _ eq_refl eq_refl eq_refl eq_refl)
    as (_ & _ & _ & _ & _ & Hr).
  destruct (Hprefix "192.168.1.0" "99999999999999999999" _ _
              eq_refl eq_refl eq_refl eq_refl)
    as (_ & _ & _ & _ & _ & Hbig).
  split; [apply Hf; reflexivity|].
  split; [apply (Hr (-1)); [reflexivity|lia]|].
  split; [apply (Hbig 99999999999999999999); [reflexivity|lia]|].
  apply Hslash; [discriminate|cbn; lia].
Defined.

(** C6 as stated fails on "10.0.0.0/99999999999999999999": the prefix is
    a base-10 integer outside 0..32, and the error is the one on a prefix
    that is not a number, a FormatError and not a RangeError. *)
Lemma huge_prefix_not_range_error :
  isDecimalInteger "99999999999999999999" = true /\
  decimalValue "99999999999999999999" = Some 99999999999999999999 /\
  32 < 99999999999999999999 /\
  ParseCIDR "10.0.0.0/99999999999999999999"
    = Err (ErrInvalidPrefix "99999999999999999999") /\
  kindOf (ErrInvalidPrefix "99999999999999999999") = FormatError /\
  kindOf (ErrInvalidPrefix "99999999999999999999") <> RangeError /\
  Error (ErrInvalidPrefix "99999999999999999999")
  = "invalid prefix length: 99999999999999999999 (must be a number between 0 and 32)".
Proof.
  split; [reflexivity|]. split; [reflexivity|]. split; [lia|].
  split; [reflexivity|]. split; [reflexivity|]. split; [discriminate|reflexivity].
Qed.

(** ** IPv6 literals *)

(** An address that net.ParseIP reads and To4 refuses is rejected with
    the message on IPv6, whatever the prefix is. *)
Lemma ipv6_rejected ipStr prefixStr ip :
  countSlash ipStr = O -> countSlash prefixStr = O ->
  net.ParseIP ipStr = Some ip -> net.To4 ip = None ->
  ParseCIDR (ipStr +:+ "/" +:+ prefixStr) = Err ErrIPv6Address /\
  kindOf ErrIPv6Address = ProtocolError.
Proof.
  intros Hi Hp Hip H4. split; [|reflexivity].
  apply ParseCIDR_invalid.
  rewrite (validateCIDRFormat_split _ _ _ (SplitSlash_join ipStr prefixStr Hi Hp)).
  rewrite Hip, H4. reflexivity.
Qed.

Example ipv6_example :
  ParseCIDR "2001:db8::1/64" = Err ErrIPv6Address /\
  Error ErrIPv6Address = "IPv6 is not supported, please provide an IPv4 address".
Proof. split; reflexivity. Qed.

(** C7, where the code departs from it. The address of
    "::ffff:192.168.1.0/24" is not in the dotted form and is an IPv6
    literal for net.ParseIP; To4 gives its last four bytes, so
    validateCIDRFormat and ParseCIDR accept the text. The descriptor has
    16-byte addresses and masks, its network id is the IPv6 address "::",
    and CalculateSubnets panics on it. *)
Theorem ipv4_mapped_ipv6_literal_accepted :
  net.parseIPv4 "::ffff:192.168.1.0" = None /\
  net.parseIPv6 "::ffff:192.168.1.0"
    = Some ([0; 0; 0; 0; 0; 0; 0; 0; 0; 0; 255; 255; 192; 168; 1; 0], EmptyString) /\
  net.To4 [0; 0; 0; 0; 0; 0; 0; 0; 0; 0; 255; 255; 192; 168; 1; 0] = Some [192; 168; 1; 0] /\
  validateCIDRFormat "::ffff:192.168.1.0/24" = None /\
  exists info,
    ParseCIDR "::ffff:192.168.1.0/24" = Ok info /\
    NetworkID info = replicate 16 0 /\
    net.String_ (NetworkID info) = "::" /\
    SubnetMask info = [255; 255; 255; 0; 0; 0; 0; 0; 0; 0; 0; 0; 0; 0; 0; 0] /\
    PrefixLength info = 24 /\
    CalculateSubnets info = Panic.
Proof.
  split; [reflexivity|]. split; [reflexivity|]. split; [reflexivity|].
  split; [reflexivity|].
  eexists. split; [reflexivity|]. repeat split; reflexivity.
Qed.

(** ** Parsing the dotted form *)

Lemma bytes_ind (P : Z -> Prop) :
  Forall P (seqZ 0 256) -> forall x, 0 <= x < 256 -> P x.
Proof.
  intros H x Hx. rewrite Forall_forall in H. apply H. apply elem_of_seqZ. lia.
Qed.

Lemma digit_not_separator c :
  net.isDigit c = true ->
  Ascii.eqb c "." = false /\ Ascii.eqb c ":" = false /\
  Ascii.eqb c "%" = false /\ Ascii.eqb c "/" = false.
Proof.
  destruct c as [[] [] [] [] [] [] [] []]; intros H; try discriminate H;
    repeat split; reflexivity.
Qed.

Lemma parseAddrScan_digits o rest s :
  allDigits o = true ->
  net.parseAddrScan (String.append o (String "." rest)) s = net.Addr4 <$> net.parseIPv4 s.
Proof.
  induction o as [|c o IH]; intros H; [reflexivity|].
  cbn [allDigits] in H. apply andb_true_iff in H as [Hc Ho].
  destruct (digit_not_separator c Hc) as (H1 & H2 & H3 & _).
  change (String.append (String c o) (String "." rest))
    with (String c (String.append o (String "." rest))).
  cbn [net.parseAddrScan]. rewrite H1, H2, H3. apply IH. exact Ho.
Qed.

(** One field and its dot: the parser stores the byte and goes on with the
    next field. *)
Lemma parse_field x :
  0 <= x < 256 ->
  forall prev pos fields c r, (pos < 3)%nat ->
    net.parseIPv4Loop (String.append (net.appendDecimal x) (String "." (String c r)))
      prev 0 pos 0 fields
    = net.parseIPv4Loop (String c r) (Some "."%char) 0 (S pos) 0 (<[pos := x]> fields).
Proof.
  revert x. refine (bytes_ind _ _). vm_compute seqZ.
  repeat (apply Forall_cons_2;
          [intros prev pos fields c r Hpos;
           destruct pos as [|[|[|pos]]]; [reflexivity|reflexivity|reflexivity|lia]|]).
  apply Forall_nil_2.
Qed.

(** The last field. *)
Lemma parse_last_field x :
  0 <= x < 256 ->
  forall prev fields,
    net.parseIPv4Loop (net.appendDecimal x) prev 0 3 0 fields
    = Some (<[3%nat := x]> fields).
Proof.
  revert x. refine (bytes_ind _ _). vm_compute seqZ.
  repeat (apply Forall_cons_2; [intros prev fields; reflexivity|]).
  apply Forall_nil_2.
Qed.

(** The decimal text of a byte begins with a digit and holds digits only. *)
Lemma appendDecimal_digits x :
  0 <= x < 256 ->
  allDigits (net.appendDecimal x) = true /\
  exists c r, net.appendDecimal x = String c r.
Proof.
  revert x. refine (bytes_ind _ _). vm_compute seqZ.
  repeat (apply Forall_cons_2; [split; [reflexivity|eexists _, _; reflexivity]|]).
  apply Forall_nil_2.
Qed.

Lemma string4_parts a b c d :
  net.string4 [a; b; c; d]
  = String.append (net.appendDecimal a) (String "."
      (String.append (net.appendDecimal b) (String "."
         (String.append (net.appendDecimal c) (String "." (net.appendDecimal d)))))).
Proof.
  reflexivity.
Qed.

Lemma parseIPv4_string4 a b c d :
  0 <= a < 256 -> 0 <= b < 256 -> 0 <= c < 256 -> 0 <= d < 256 ->
  net.parseIPv4 (net.string4 [a; b; c; d]) = Some [a; b; c; d].
Proof.
  intros Ha Hb Hc Hd. rewrite string4_parts. unfold net.parseIPv4.
  destruct (appendDecimal_digits b Hb) as (_ & cb & rb & Eb).
  destruct (appendDecimal_digits c Hc) as (_ & cc & rc & Ec).
  destruct (appendDecimal_digits d Hd) as (_ & cd & rd & Ed).
  rewrite Eb.
  change (String.append (String cb rb) ?x) with (String cb (String.append rb x)).
  rewrite (parse_field a Ha) by lia. 
  change (String cb (String.append rb ?x)) with (String.append (String cb rb) x).
  rewrite <- Eb, Ec.
  change (String.append (String cc rc) ?x) with (String cc (String.append rc x)).
  rewrite (parse_field b Hb) by lia.
  change (String cc (String.append rc ?x)) with (String.append (String cc rc) x).
  rewrite <- Ec. rewrite Ed at 1.
  rewrite (parse_field c Hc) by lia. rewrite <- Ed.
  rewrite (parse_last_field d Hd). reflexivity.
Qed.

Lemma ParseIP_string4 a b c d :
  0 <= a < 256 -> 0 <= b < 256 -> 0 <= c < 256 -> 0 <= d < 256 ->
  net.ParseIP (net.string4 [a; b; c; d]) = Some (net.v4InV6Prefix ++ [a; b; c; d]).
Proof.
  intros Ha Hb Hc Hd. unfold net.ParseIP, net.ParseAddr.
  pose proof (parseIPv4_string4 a b c d Ha Hb Hc Hd) as Hp.
  rewrite string4_parts in *.
  rewrite parseAddrScan_digits by (apply appendDecimal_digits; assumption).
  rewrite Hp. reflexivity.
Qed.

Lemma digits_ind (P : Z -> Prop) :
  Forall P (seqZ 0 10) -> forall d, 0 <= d <= 9 -> P d.
Proof.
  intros H d Hd. rewrite Forall_forall in H. apply H. apply elem_of_seqZ. lia.
Qed.

Lemma isDigit_digitChar c :
  net.isDigit c = true -> exists d, 0 <= d <= 9 /\ c = net.digitChar d.
Proof.
  intros H. exists (net.code c - 48). apply isDigit_bounds in H. split; [lia|].
  destruct c as [[] [] [] [] [] [] [] []]; vm_compute in H; try reflexivity;
    destruct H as [H1 H2]; exfalso; first [apply H1; reflexivity|apply H2; reflexivity].
Qed.

Lemma digitsValue_ge s n v :
  0 <= n -> strconv.digitsValue s n = Some v -> n <= v.
Proof.
  revert n. induction s as [|c s IH]; intros n Hn H; cbn in H; [injection H as <-; lia|].
  destruct (net.isDigit c) eqn:E; [|discriminate].
  apply isDigit_bounds in E. apply IH in H; lia.
Qed.

Ltac octet_witness :=
  match goal with
  | |- ex (fun x => _ /\ String (net.digitChar ?a) (String (net.digitChar ?b)
                              (String (net.digitChar ?c) EmptyString)) = _) =>
      exists (a * 100 + b * 10 + c)
  | |- ex (fun x => _ /\ String (net.digitChar ?a) (String (net.digitChar ?b) EmptyString) = _) =>
      exists (a * 10 + b)
  | |- ex (fun x => _ /\ String (net.digitChar ?a) EmptyString = _) =>
      exists a
  end; split; [lia|reflexivity].

Ltac octet_case :=
  let Hz := fresh in let Hv := fresh in
  intros Hz Hv; vm_compute in Hz; vm_compute in Hv;
  first [discriminate Hz | discriminate Hv | octet_witness].

Lemma octetText_byte o :
  isOctetText o = true -> exists x, 0 <= x < 256 /\ o = net.appendDecimal x.
Proof.
  unfold isOctetText. intros H.
  apply andb_true_iff in H as [H Hv]. apply andb_true_iff in H as [H Hz].
  apply andb_true_iff in H as [Hne Hd].
  destruct o as [|c1 o]; [discriminate|]. clear Hne.
  cbn [allDigits] in Hd. apply andb_true_iff in Hd as [Hd1 Hd].
  destruct (isDigit_digitChar c1 Hd1) as (d1 & Hb1 & ->).
  destruct o as [|c2 o].
  { clear -Hb1. revert d1 Hb1. refine (digits_ind _ _). vm_compute seqZ.
    repeat (apply Forall_cons_2; [octet_witness|]).
    apply Forall_nil_2. }
  cbn [allDigits] in Hd. apply andb_true_iff in Hd as [Hd2 Hd].
  destruct (isDigit_digitChar c2 Hd2) as (d2 & Hb2 & ->).
  destruct o as [|c3 o].
  { clear -Hb1 Hb2 Hz Hv. revert d2 Hb2 Hz Hv. revert d1 Hb1.
    refine (digits_ind _ _). vm_compute seqZ.
    repeat (apply Forall_cons_2;
      [refine (digits_ind _ _); vm_compute seqZ;
       repeat (apply Forall_cons_2;
         [octet_case|]);
       apply Forall_nil_2|]).
    apply Forall_nil_2. }
  cbn [allDigits] in Hd. apply andb_true_iff in Hd as [Hd3 Hd].
  destruct (isDigit_digitChar c3 Hd3) as (d3 & Hb3 & ->).
  destruct o as [|c4 o].
  { clear -Hb1 Hb2 Hb3 Hz Hv. revert d3 Hb3 Hz Hv. revert d2 Hb2. revert d1 Hb1.
    refine (digits_ind _ _). vm_compute seqZ.
    repeat (apply Forall_cons_2;
      [refine (digits_ind _ _); vm_compute seqZ;
       repeat (apply Forall_cons_2;
         [refine (digits_ind _ _); vm_compute seqZ;
          repeat (apply Forall_cons_2;
            [octet_case|]);
          apply Forall_nil_2|]);
       apply Forall_nil_2|]).
    apply Forall_nil_2. }
  exfalso.
  cbn [allDigits] in Hd. apply andb_true_iff in Hd as [Hd4 Hd].
  assert (H1 : 1 <= d1).
  { clear -Hb1 Hz. revert d1 Hb1 Hz. refine (digits_ind _ _). vm_compute seqZ.
    repeat (apply Forall_cons_2; [intros Hz; first [discriminate Hz | lia]|]).
    apply Forall_nil_2. }
  unfold octetValue in Hv. cbn [strconv.digitsValue] in Hv.
  assert (Hc : forall d, 0 <= d <= 9 ->
            net.isDigit (net.digitChar d) = true /\ net.code (net.digitChar d) - 48 = d).
  { refine (digits_ind _ _). vm_compute seqZ.
    repeat (apply Forall_cons_2; [split; reflexivity|]). apply Forall_nil_2. }
  destruct (Hc d1 Hb1) as [E1 V1]. destruct (Hc d2 Hb2) as [E2 V2].
  destruct (Hc d3 Hb3) as [E3 V3].
  rewrite E1, V1, E2, V2, E3, V3, Hd4 in Hv.
  apply isDigit_bounds in Hd4.
  destruct (strconv.digitsValue o _) as [v|] eqn:E; [|discriminate].
  apply digitsValue_ge in E; [|lia]. apply Z.leb_le in Hv. lia.
Qed.

Lemma appendDecimal_octetText x :
  0 <= x < 256 -> isOctetText (net.appendDecimal x) = true.
Proof.
  revert x. refine (bytes_ind _ _). vm_compute seqZ.
  repeat (apply Forall_cons_2; [reflexivity|]). apply Forall_nil_2.
Qed.

Lemma String_mapped a b c d :
  net.String_ (net.v4InV6Prefix ++ [a; b; c; d]) = net.string4 [a; b; c; d] /\
  net.To4 (net.v4InV6Prefix ++ [a; b; c; d]) = Some [a; b; c; d].
Proof. split; reflexivity. Qed.

(** C8. Formatting what net.ParseIP reads from a canonical dotted-decimal
    text gives the text back; and every 4-byte address is read back from
    its text, which is canonical: the round trip loses nothing. *)
Theorem dotted_roundtrip :
  (forall s, canonicalDotted s ->
     exists ip, net.ParseIP s = Some ip /\ net.String_ ip = s) /\
  (forall ip, isIPv4 ip = true ->
     canonicalDotted (net.String_ ip) /\
     net.ParseIP (net.String_ ip) = Some (net.v4InV6Prefix ++ ip) /\
     net.To4 (net.v4InV6Prefix ++ ip) = Some ip /\
     net.String_ (net.v4InV6Prefix ++ ip) = net.String_ ip).
Proof.
  split.
  - intros s (o1 & o2 & o3 & o4 & H1 & H2 & H3 & H4 & ->).
    apply octetText_byte in H1 as (a & Ha & ->).
    apply octetText_byte in H2 as (b & Hb & ->).
    apply octetText_byte in H3 as (c & Hc & ->).
    apply octetText_byte in H4 as (d & Hd & ->).
    exists (net.v4InV6Prefix ++ [a; b; c; d]). split.
    + apply (ParseIP_string4 a b c d); assumption.
    + apply String_mapped.
  - intros ip H. ip4 H. rewrite String_ipv4 by (apply isIPv4_intro; assumption).
    split; [|split; [|split]].
    + exists (net.appendDecimal a), (net.appendDecimal b),
        (net.appendDecimal c), (net.appendDecimal d).
      repeat split; try (apply appendDecimal_octetText; assumption).
    + apply ParseIP_string4; assumption.
    + apply String_mapped.
    + apply String_mapped.
Qed.

Lemma dotted_roundtrip_witness :
  exists ip, net.ParseIP "192.168.1.0" = Some ip /\ net.String_ ip = "192.168.1.0".
Proof.
  apply (proj1 dotted_roundtrip).
  exists "192", "168", "1", "0". repeat split; reflexivity.
Defined.

(** A leading zero makes a text that net.ParseIP does not read. *)
Example leading_zero_rejected : net.ParseIP "192.168.001.1" = None.
Proof. reflexivity. Qed.

(** ** An octet outside 0..255 *)

(** A run of digits: the parser fails, or it has read the value of the
    digits, at most 255, and goes on after them. *)
Lemma parse_digits o :
  allDigits o = true ->
  forall rest prev val pos digLen fields, 0 <= val <= 255 ->
    net.parseIPv4Loop (String.append o rest) prev val pos digLen fields = None \/
    exists prev' val' digLen',
      strconv.digitsValue o val = Some val' /\ 0 <= val' <= 255 /\
      net.parseIPv4Loop (String.append o rest) prev val pos digLen fields
      = net.parseIPv4Loop rest prev' val' pos digLen' fields.
Proof.
  induction o as [|c o IH]; intros Hd rest prev val pos digLen fields Hval.
  - right. exists prev, val, digLen. repeat split; (reflexivity || lia).
  - cbn [allDigits] in Hd. apply andb_true_iff in Hd as [Hc Ho].
    change (String.append (String c o) rest) with (String c (String.append o rest)).
    cbn [net.parseIPv4Loop strconv.digitsValue]. rewrite Hc.
    destruct ((digLen =? 1) && (val =? 0)); [left; reflexivity|].
    destruct (Z.ltb_spec 255 (val * 10 + (net.code c - 48))); [left; reflexivity|].
    apply isDigit_bounds in Hc. apply (IH Ho). lia.
Qed.

Lemma bad_octet o rest prev pos fields :
  allDigits o = true -> octetOutOfRange o = true ->
  net.parseIPv4Loop (String.append o rest) prev 0 pos 0 fields = None.
Proof.
  intros Hd Hbad.
  destruct (parse_digits o Hd rest prev 0 pos 0 fields) as [H|(p' & v' & l' & Hv & Hb & _)];
    [lia|exact H|].
  unfold octetOutOfRange, octetValue in Hbad. rewrite Hv in Hbad.
  apply Z.ltb_lt in Hbad. lia.
Qed.

Lemma skip_octet o rest :
  allDigits o = true ->
  (forall prev pos fields, net.parseIPv4Loop rest prev 0 pos 0 fields = None) ->
  forall prev pos fields,
    net.parseIPv4Loop (String.append o (String "." rest)) prev 0 pos 0 fields = None.
Proof.
  intros Hd Hrest prev pos fields.
  destruct (parse_digits o Hd (String "." rest) prev 0 pos 0 fields)
    as [H|(p' & v' & l' & _ & _ & ->)]; [lia|exact H|].
  cbn [net.parseIPv4Loop]. change (net.isDigit ".") with false.
  change (Ascii.eqb "." ".") with true. cbn iota.
  destruct (bool_decide (p' = None) || bool_decide (rest = "")
            || bool_decide (p' = Some "."%char)); [reflexivity|].
  destruct (pos =? 3)%nat; [reflexivity|]. apply Hrest.
Qed.

Lemma allDigits_countSlash o : allDigits o = true -> countSlash o = O.
Proof.
  induction o as [|c o IH]; intros H; [reflexivity|].
  cbn [allDigits] in H. apply andb_true_iff in H as [Hc Ho].
  cbn [countSlash]. destruct (digit_not_separator c Hc) as (_ & _ & _ & ->). auto.
Qed.

Lemma dotted_bad_octet o1 o2 o3 o4 :
  allDigits o1 = true -> allDigits o2 = true ->
  allDigits o3 = true -> allDigits o4 = true ->
  octetOutOfRange o1 || octetOutOfRange o2 || octetOutOfRange o3 || octetOutOfRange o4 = true ->
  let ipStr := o1 +:+ "." +:+ o2 +:+ "." +:+ o3 +:+ "." +:+ o4 in
  net.ParseIP ipStr = None /\ countSlash ipStr = O.
Proof.
  intros H1 H2 H3 H4 Hbad ipStr.
  assert (E : ipStr = String.append o1 (String "."
                (String.append o2 (String "." (String.append o3 (String "." o4))))))
    by reflexivity.
  split.
  - unfold net.ParseIP, net.ParseAddr. rewrite E.
    rewrite parseAddrScan_digits by assumption. unfold net.parseIPv4.
    assert (Hp : forall prev pos fields,
              net.parseIPv4Loop (String.append o1 (String "."
                (String.append o2 (String "." (String.append o3 (String "." o4))))))
                prev 0 pos 0 fields = None); [|rewrite Hp; reflexivity].
    rewrite !orb_true_iff in Hbad.
    destruct Hbad as [[[B|B]|B]|B].
    + intros. apply bad_octet; assumption.
    + apply skip_octet; [assumption|]. intros. apply bad_octet; assumption.
    + apply skip_octet; [assumption|]. apply skip_octet; [assumption|].
      intros. apply bad_octet; assumption.
    + apply skip_octet; [assumption|]. apply skip_octet; [assumption|].
      apply skip_octet; [assumption|]. intros.
      rewrite <- (bad_octet o4 EmptyString prev pos fields H4 B).
      f_equal. clear. induction o4 as [|c o IH]; [reflexivity|].
      change (String.append (String c o) "") with (String c (String.append o "")).
      rewrite <- IH. reflexivity.
  - unfold ipStr. rewrite !countSlash_app.
    rewrite (allDigits_countSlash o1 H1), (allDigits_countSlash o2 H2),
      (allDigits_countSlash o3 H3), (allDigits_countSlash o4 H4). reflexivity.
Qed.

(** C9, as the code has it. An address of four runs of digits separated
    by dots, one of them of a value over 255, is not read by net.ParseIP:
    ParseCIDR fails with a FormatError, and when the prefix has no slash
    the error is the one on the format of the address, with the message
    "invalid IP address format: " and the address; when the prefix has a
    slash, the error is the one on the expected format of the text. *)
Theorem octet_out_of_range_format_error (o1 o2 o3 o4 prefixStr : string) :
  allDigits o1 = true -> allDigits o2 = true ->
  allDigits o3 = true -> allDigits o4 = true ->
  octetOutOfRange o1 || octetOutOfRange o2 || octetOutOfRange o3 || octetOutOfRange o4 = true ->
  let ipStr := o1 +:+ "." +:+ o2 +:+ "." +:+ o3 +:+ "." +:+ o4 in
  net.ParseIP ipStr = None /\
  (exists e, ParseCIDR (ipStr +:+ "/" +:+ prefixStr) = Err e /\ kindOf e = FormatError) /\
  (countSlash prefixStr = O ->
     ParseCIDR (ipStr +:+ "/" +:+ prefixStr) = Err (ErrInvalidIP ipStr) /\
     Error (ErrInvalidIP ipStr) = "invalid IP address format: " +:+ ipStr) /\
  (countSlash prefixStr <> O ->
     ParseCIDR (ipStr +:+ "/" +:+ prefixStr) = Err ErrExpectedFormat /\
     Error ErrExpectedFormat
     = "invalid CIDR notation. Expected format: x.x.x.x/y (e.g., 192.168.1.0/24)").
Proof.
  intros H1 H2 H3 H4 Hbad ipStr.
  destruct (dotted_bad_octet o1 o2 o3 o4 H1 H2 H3 H4 Hbad) as [Hip Hcount].
  fold ipStr in Hip, Hcount.
  assert (Hone : countSlash prefixStr = O ->
            ParseCIDR (ipStr +:+ "/" +:+ prefixStr) = Err (ErrInvalidIP ipStr)).
  { intros Hp. apply ParseCIDR_invalid.
    rewrite (validateCIDRFormat_split _ _ _ (SplitSlash_join ipStr prefixStr Hcount Hp)).
    rewrite Hip. reflexivity. }
  assert (Hmany : countSlash prefixStr <> O ->
            ParseCIDR (ipStr +:+ "/" +:+ prefixStr) = Err ErrExpectedFormat).
  { intros Hp. apply ParseCIDR_invalid, validateCIDRFormat_slashes.
    - destruct ipStr; discriminate.
    - rewrite !countSlash_app, Hcount. cbn. lia. }
  split; [exact Hip|]. split; [|split].
  - destruct (Nat.eq_dec (countSlash prefixStr) O) as [Hp|Hp].
    + exists (ErrInvalidIP ipStr). split; [apply Hone; exact Hp|reflexivity].
    + exists ErrExpectedFormat. split; [apply Hmany; exact Hp|reflexivity].
  - intros Hp. split; [apply Hone; exact Hp|reflexivity].
  - intros Hp. split; [apply Hmany; exact Hp|reflexivity].
Qed.

Lemma octet_out_of_range_format_error_witness :
  ParseCIDR "300.1.1.1/24" = Err (ErrInvalidIP "300.1.1.1").
Proof.
  destruct (octet_out_of_range_format_error "300" "1" "1" "1" "24"
              eq_refl eq_refl eq_refl eq_refl eq_refl) as (_ & _ & H & _).
  apply H. reflexivity.
Defined.

(** C9 as stated fails on "300.1.1.1/24": the error is the one on the
    format of the address, a FormatError and not a RangeError. *)
Lemma octet_300_not_range_error :
  ParseCIDR "300.1.1.1/24" = Err (ErrInvalidIP "300.1.1.1") /\
  kindOf (ErrInvalidIP "300.1.1.1") = FormatError /\
  kindOf (ErrInvalidIP "300.1.1.1") <> RangeError /\
  Error (ErrInvalidIP "300.1.1.1") = "invalid IP address format: 300.1.1.1".
Proof. repeat split; try reflexivity. discriminate. Qed.

(** ** Increment and decrement on slices of any length *)

Lemma isBytes_lookup l i x :
  isBytes l = true -> l !! i = Some x -> 0 <= x < 256.
Proof.
  revert i. induction l as [|b l IH]; intros i Hl Hi; [discriminate|].
  apply isBytes_cons in Hl as [Hb Hl].
  destruct i as [|i]; cbn in Hi; [injection Hi as <-; exact Hb|eauto].
Qed.

Lemma length_incrementLoop n r : length (incrementLoop n r) = length r.
Proof.
  revert r. induction n as [|i IH]; intros r; [reflexivity|].
  cbn [incrementLoop]; unfold net.IP in *.
  destruct (negb _); [|rewrite IH]; apply length_insert.
Qed.

Lemma length_decrementLoop n r : length (decrementLoop n r) = length r.
Proof.
  revert r. induction n as [|i IH]; intros r; [reflexivity|].
  cbn [decrementLoop]; unfold net.IP in *.
  destruct (negb _); [|rewrite IH]; apply length_insert.
Qed.

Ltac ins_len :=
  rewrite ?length_insert, ?length_incrementLoop, ?length_decrementLoop; lia.

(** The loops below an index leave the bytes from that index on alone. *)
Lemma incrementLoop_insert n i v r :
  (n <= i)%nat -> incrementLoop n (<[i := v]> r) = <[i := v]> (incrementLoop n r).
Proof.
  revert r. induction n as [|k IH]; intros r Hn; [reflexivity|].
  cbn [incrementLoop]; unfold net.IP in *.
  rewrite (list_lookup_insert_ne r i k) by lia.
  rewrite (list_insert_insert_ne _ k i) by lia.
  rewrite (list_lookup_insert_ne _ i k) by lia.
  destruct (negb _); [reflexivity|]. apply IH. lia.
Qed.

Lemma decrementLoop_insert n i v r :
  (n <= i)%nat -> decrementLoop n (<[i := v]> r) = <[i := v]> (decrementLoop n r).
Proof.
  revert r. induction n as [|k IH]; intros r Hn; [reflexivity|].
  cbn [decrementLoop]; unfold net.IP in *.
  rewrite (list_lookup_insert_ne r i k) by lia.
  rewrite !(list_insert_insert_ne _ k i) by lia.
  destruct (negb _); [reflexivity|]. apply IH. lia.
Qed.

Lemma decrement_increment_loop n r :
  (n <= length r)%nat -> isBytes r = true ->
  decrementLoop n (incrementLoop n r) = r.
Proof.
 
  revert r. induction n as [|i IH]; intros r Hn Hr; [reflexivity|].
  destruct (lookup_lt_is_Some_2 r i ltac:(lia)) as [x Hx].
  pose proof (isBytes_lookup _ _ _ Hr Hx) as Hb.
  cbn [incrementLoop]; unfold net.IP in *. rewrite Hx. cbn [default id].
  rewrite list_lookup_insert_eq by ins_len. cbn [default id].
  destruct (Z.eq_dec x 255) as [->|Hne].
  - change (u8 (255 + 1)) with 0. cbn [Z.eqb negb].
    rewrite incrementLoop_insert by lia.
    cbn [decrementLoop]; unfold net.IP in *.
    rewrite list_lookup_insert_eq by ins_len.
    cbn [default id Z.eqb negb].
    rewrite list_insert_insert_eq, <- incrementLoop_insert by lia.
    unfold net.IP in *. rewrite (list_insert_id r i 255 Hx). apply IH; [lia|exact Hr].
  - assert (Hu : u8 (x + 1) = x + 1) by (unfold u8; zlia).
    rewrite Hu. destruct (Z.eqb_spec (x + 1) 0) as [E|_]; [lia|]. cbn [negb].
    cbn [decrementLoop]; unfold net.IP in *. rewrite list_lookup_insert_eq by ins_len. cbn [default id].
    destruct (Z.eqb_spec (x + 1) 0) as [E|_]; [lia|]. cbn [negb].
    rewrite list_insert_insert_eq.
    replace (u8 (x + 1 - 1)) with x by (unfold u8; zlia).
    apply list_insert_id, Hx.
Qed.

Lemma increment_decrement_loop n r :
  (n <= length r)%nat -> isBytes r = true ->
  incrementLoop n (decrementLoop n r) = r.
Proof.
 
  revert r. induction n as [|i IH]; intros r Hn Hr; [reflexivity|].
  destruct (lookup_lt_is_Some_2 r i ltac:(lia)) as [x Hx].
  pose proof (isBytes_lookup _ _ _ Hr Hx) as Hb.
  cbn [decrementLoop]; unfold net.IP in *. rewrite Hx. cbn [default id].
  destruct (Z.eqb_spec x 0) as [->|Hne]; cbn [negb].
  - rewrite decrementLoop_insert by lia.
    cbn [incrementLoop]; unfold net.IP in *.
    rewrite list_lookup_insert_eq by ins_len.
    cbn [default id].
    rewrite list_insert_insert_eq.
    rewrite list_lookup_insert_eq by ins_len.
    cbn [default id Z.eqb negb].
    rewrite <- decrementLoop_insert by lia.
    change (u8 (255 + 1)) with 0. cbn [Z.eqb negb].
    unfold net.IP in *. rewrite (list_insert_id r i 0 Hx). apply IH; [lia|exact Hr].
  - cbn [incrementLoop]; unfold net.IP in *. rewrite list_lookup_insert_eq by ins_len. cbn [default id].
    rewrite list_insert_insert_eq.
    rewrite ?list_lookup_insert_eq by ins_len. cbn [default id].
    replace (u8 (u8 (x - 1) + 1)) with x by (unfold u8; zlia).
    destruct (Z.eqb_spec x 0) as [E|_]; [lia|]. cbn [negb].
    apply list_insert_id, Hx.
Qed.

(** X1. incrementIP and decrementIP undo each other on a slice of bytes of any
    length (4, 16, or empty), and keep the length. *)
Theorem increment_decrement_inverse (ip : net.IP) :
  isBytes ip = true ->
  decrementIP (incrementIP ip) = ip /\
  incrementIP (decrementIP ip) = ip /\
  length (incrementIP ip) = length ip /\
  length (decrementIP ip) = length ip.
Proof.
  intros Hb. unfold incrementIP, decrementIP.
  rewrite length_incrementLoop, length_decrementLoop.
  rewrite decrement_increment_loop, increment_decrement_loop by (lia || assumption).
  repeat split; reflexivity.
Qed.

Lemma increment_decrement_inverse_witness :
  decrementIP (incrementIP [10; 0; 255; 255]) = [10; 0; 255; 255].
Proof.
  destruct (increment_decrement_inverse [10; 0; 255; 255] eq_refl) as (H & _).
  exact H.
Defined.

(** ** The wildcard mask and the broadcast address on any slices *)

Lemma not8_involutive b : not8 (not8 b) = b.
Proof.
  unfold not8. rewrite Z.lxor_assoc, Z.lxor_nilpotent. apply Z.lxor_0_r.
Qed.

Lemma not8_land_lor b :
  0 <= b < 256 -> Z.land b (not8 b) = 0 /\ Z.lor b (not8 b) = 255.
Proof.
  intros Hb.
  pose proof (range_check
    (fun b => (Z.land b (not8 b) =? 0) && (Z.lor b (not8 b) =? 255)) 0 256 eq_refl b Hb) as H.
  cbv beta in H. apply andb_true_iff in H as [H1 H2].
  split; [apply Z.eqb_eq, H1|apply Z.eqb_eq, H2].
Qed.

(** X2. calculateWildcardMask keeps the length and is its own inverse; a mask
    of bytes and its wildcard have no bit in common and together have
    every bit. *)
Theorem wildcard_complement (m : net.IPMask) :
  length (calculateWildcardMask m) = length m /\
  calculateWildcardMask (calculateWildcardMask m) = m /\
  (isBytes m = true ->
     zip_with Z.land m (calculateWildcardMask m) = replicate (length m) 0 /\
     zip_with Z.lor m (calculateWildcardMask m) = replicate (length m) 255).
Proof.
  unfold calculateWildcardMask. split; [apply length_map|]. split.
  - induction m as [|b m IH]; [reflexivity|].
    cbn [map]. rewrite not8_involutive, IH. reflexivity.
  - induction m as [|b m IH]; intros Hm; [split; reflexivity|].
    apply isBytes_cons in Hm as [Hb Hm]. destruct (IH Hm) as [IH1 IH2].
    destruct (not8_land_lor b Hb) as [H1 H2].
    cbn [map zip_with length replicate]. rewrite H1, H2, IH1, IH2. split; reflexivity.
Qed.

Lemma wildcard_complement_witness :
  zip_with Z.land [255; 255; 240; 0] (calculateWildcardMask [255; 255; 240; 0])
  = replicate (length [255; 255; 240; 0]) 0.
Proof.
  destruct (wildcard_complement [255; 255; 240; 0]) as (_ & _ & H).
  destruct (H eq_refl) as [H1 _]. exact H1.
Defined.

(** X3. calculateBroadcastAddress panics (index out of range) exactly when
    the wildcard mask is shorter than the network id; otherwise it returns
    the bytes of the network id, each ORed with the byte of the mask at
    the same index, and ignores the rest of the mask. *)
Theorem calculateBroadcastAddress_bounds (networkID : net.IP) (wildcardMask : net.IPMask) :
  (calculateBroadcastAddress networkID wildcardMask = Panic <->
     (length wildcardMask < length networkID)%nat) /\
  ((length networkID <= length wildcardMask)%nat ->
     exists broadcast,
       calculateBroadcastAddress networkID wildcardMask = Ok broadcast /\
       length broadcast = length networkID /\
       broadcast = zip_with Z.lor networkID (take (length networkID) wildcardMask)).
Proof.
  unfold calculateBroadcastAddress. split.
  - split.
    + intros H. destruct (Nat.lt_ge_cases (length wildcardMask) (length networkID)) as [L|L];
        [exact L|]. rewrite orLoop_ok in H by exact L. discriminate.
    + apply orLoop_short.
  - intros L. exists (zip_with Z.lor networkID wildcardMask).
    split; [apply orLoop_ok, L|]. split.
    + rewrite length_zip_with. lia.
    + revert wildcardMask L. induction networkID as [|b ip IH]; intros m L;
        [reflexivity|].
      destruct m as [|w m]; cbn [length] in L; [lia|].
      cbn [length take zip_with]. f_equal. apply IH. lia.
Qed.

Lemma calculateBroadcastAddress_bounds_witness :
  exists broadcast,
    calculateBroadcastAddress [10; 1; 0; 0] [0; 0; 255; 255] = Ok broadcast /\
    length broadcast = 4%nat.
Proof.
  destruct (calculateBroadcastAddress_bounds [10; 1; 0; 0] [0; 0; 255; 255]) as [_ H].
  destruct (H ltac:(cbn; lia)) as (b & Hb & Hl & _).
  exists b. split; [exact Hb|exact Hl].
Defined.

(** ** addToIP and CalculateSubnets on slices of any length *)

Lemma addToIP_short ip value : (length ip < 4)%nat -> addToIP ip value = Panic.
Proof.
  intros H. destruct ip as [|a [|b [|c [|d ip]]]]; try reflexivity.
  cbn [length] in H. lia.
Qed.

Lemma addToIP_long ip value :
  (4 <= length ip)%nat ->
  exists r, addToIP ip value = Ok r /\ length r = length ip /\ drop 4 r = drop 4 ip.
Proof.
  intros H. destruct ip as [|a [|b [|c [|d ip]]]]; cbn [length] in H; try lia.
  eexists. split; [reflexivity|]. split; reflexivity.
Qed.

Lemma ipValue4_inj a b c d a' b' c' d' :
  0 <= a < 256 -> 0 <= b < 256 -> 0 <= c < 256 -> 0 <= d < 256 ->
  0 <= a' < 256 -> 0 <= b' < 256 -> 0 <= c' < 256 -> 0 <= d' < 256 ->
  ipValue [a; b; c; d] = ipValue [a'; b'; c'; d'] -> [a; b; c; d] = [a'; b'; c'; d'].
Proof.
  intros. rewrite !ipValue4 in *.
  assert (a = a') by lia. assert (b = b') by lia. assert (c = c') by lia.
  assert (d = d') by lia. congruence.
Qed.

Lemma ipValue_inj4 x y :
  isIPv4 x = true -> isIPv4 y = true -> ipValue x = ipValue y -> x = y.
Proof.
  intros Hx Hy. ip4 Hx. ip4 Hy. apply ipValue4_inj; assumption.
Qed.

(** X4. addToIP panics (index out of range) exactly on a slice of fewer than
    four bytes; on a longer slice it changes the first four bytes only. *)
Theorem addToIP_bounds (ip : net.IP) (value : Z) :
  (addToIP ip value = Panic <-> (length ip < 4)%nat) /\
  ((4 <= length ip)%nat ->
     exists r, addToIP ip value = Ok r /\ length r = length ip /\ drop 4 r = drop 4 ip).
Proof.
  split; [|apply addToIP_long]. split; [|apply addToIP_short].
  intros H. destruct (Nat.lt_ge_cases (length ip) 4) as [L|L]; [exact L|].
  destruct (addToIP_long ip value L) as (r & Hr & _). congruence.
Qed.

Lemma addToIP_bounds_witness :
  exists r, addToIP [10; 0; 0; 255; 7] 1 = Ok r /\ drop 4 r = drop 4 [10; 0; 0; 255; 7].
Proof.
  destruct (addToIP_bounds [10; 0; 0; 255; 7] 1) as [_ H].
  destruct (H ltac:(cbn; lia)) as (r & Hr & _ & Hd).
  exists r. split; [exact Hr|exact Hd].
Defined.

(** X5. On a 4-byte address, adding [a] and then [b] is adding their sum on
    32 bits, and adding 0 changes nothing. *)
Theorem addToIP_compose (ip : net.IP) (a b : Z) :
  isIPv4 ip = true -> 0 <= a < 2 ^ 32 -> 0 <= b < 2 ^ 32 ->
  (addToIP ip a ≫= fun x => addToIP x b) = addToIP ip (u32 (a + b)) /\
  addToIP ip 0 = Ok ip.
Proof.
  intros Hip Ha Hb.
  destruct (isIPv4_inv _ Hip) as (x0 & x1 & x2 & x3 & -> & H0 & H1 & H2 & H3).
  assert (Hab : 0 <= u32 (a + b) < 2 ^ 32) by (unfold u32; apply Z.mod_pos_bound; lia).
  destruct (addToIP4 x0 x1 x2 x3 a H0 H1 H2 H3 Ha)
    as (p0 & p1 & p2 & p3 & E1 & (P0 & P1 & P2 & P3) & V1).
  destruct (addToIP4 p0 p1 p2 p3 b P0 P1 P2 P3 Hb)
    as (q0 & q1 & q2 & q3 & E2 & (Q0 & Q1 & Q2 & Q3) & V2).
  destruct (addToIP4 x0 x1 x2 x3 (u32 (a + b)) H0 H1 H2 H3 Hab)
    as (r0 & r1 & r2 & r3 & E3 & (R0 & R1 & R2 & R3) & V3).
  destruct (addToIP4 x0 x1 x2 x3 0 H0 H1 H2 H3 ltac:(lia))
    as (z0 & z1 & z2 & z3 & E4 & (Z0 & Z1 & Z2 & Z3) & V4).
  pose proof (ipValue4_bounds x0 x1 x2 x3 H0 H1 H2 H3) as Hv.
  split.
  - rewrite E1. cbn [mbind result_bind]. rewrite E2, E3. f_equal.
    apply ipValue4_inj; try assumption.
    rewrite V2, V1, V3. unfold u32.
    rewrite Zplus_mod_idemp_l, Zplus_mod_idemp_r. f_equal. lia.
  - rewrite E4. f_equal. apply ipValue4_inj; try assumption.
    rewrite V4, Z.add_0_r. apply Z.mod_small. exact Hv.
Qed.

Lemma addToIP_compose_witness :
  (addToIP [192; 168; 0; 0] 128 ≫= fun x => addToIP x 128) = addToIP [192; 168; 0; 0] (u32 (128 + 128)).
Proof.
  destruct (addToIP_compose [192; 168; 0; 0] 128 128 eq_refl
              ltac:(lia) ltac:(lia)) as [H _].
  exact H.
Defined.

Lemma length_wildcard_next next :
  length (calculateWildcardMask (net.CIDRMask next 32))
  = if (next <? 0) || (32 <? next) then O else 4%nat.
Proof.
  unfold calculateWildcardMask. rewrite length_map. unfold net.CIDRMask.
  change (negb (32 =? 32) && negb (32 =? 128)) with false. cbv iota.
  destruct ((next <? 0) || (32 <? next)); [reflexivity|].
  apply length_cidrMaskLoop.
Qed.

(** One run of the body of the loop of CalculateSubnets. *)
Lemma subnetsLoop_step n next size id :
  (length id = 4%nat /\ 0 <= next <= 32 ->
     exists id', addToIP id size = Ok id' /\ length id' = 4%nat /\
       subnetsLoop (S n) next size id
       = (subnets ← subnetsLoop n next size id';
          Ok (mkSubnetInfo id (net.String_ id +:+ "/" +:+ strconv.Itoa next)
                (zip_with Z.lor id (calculateWildcardMask (net.CIDRMask next 32)))
              :: subnets))) /\
  (length id <> 4%nat \/ next < 0 \/ 32 < next -> subnetsLoop (S n) next size id = Panic).
Proof.
  pose proof (length_wildcard_next next) as Hw. split.
  - intros [Hl Hn].
    destruct ((next <? 0) || (32 <? next)) eqn:E; [lia|].
    destruct (addToIP_long id size ltac:(lia)) as (id' & Hadd & Hl' & _).
    exists id'. split; [exact Hadd|]. split; [lia|].
    cbn [subnetsLoop]. unfold calculateSubnetBroadcast.
    rewrite orLoop_ok by lia. cbn [mbind result_bind]. rewrite Hadd. reflexivity.
  - intros H. cbn [subnetsLoop]. unfold calculateSubnetBroadcast.
    destruct (Nat.lt_ge_cases
                (length (calculateWildcardMask (net.CIDRMask next 32))) (length id)) as [L|L].
    + rewrite orLoop_short by exact L. reflexivity.
    + rewrite orLoop_ok by exact L. cbn [mbind result_bind].
      rewrite addToIP_short; [reflexivity|].
      destruct ((next <? 0) || (32 <? next)) eqn:E; [lia|].
      apply orb_false_iff in E as [E1 E2]. apply Z.ltb_ge in E1, E2. lia.
Qed.

(** Under /32 CalculateSubnets runs the body of its loop twice. *)
Lemma CalculateSubnets_run (network : NetworkInfo) :
  - 2 ^ 63 <= PrefixLength network < 32 ->
  CalculateSubnets network
  = subnetsLoop 2 (PrefixLength network + 1)
      (shl32 1 (uint (int (32 - (PrefixLength network + 1)))))
      (NetworkID network).
Proof.
  intros Hp.
  assert (Hnext : nextPrefixLength network = PrefixLength network + 1).
  { unfold nextPrefixLength. apply int_small. lia. }
  unfold CalculateSubnets.
  destruct (Z.leb_spec 32 (PrefixLength network)) as [L|_]; [lia|].
  rewrite limitApplies_false, possibleSubnets_two, Hnext. reflexivity.
Qed.

Lemma subnetsLoop_two next size id :
  length id = 4%nat -> 0 <= next <= 32 ->
  exists first second, subnetsLoop 2 next size id = Ok [first; second].
Proof.
  intros Hl Hn.
  destruct (subnetsLoop_step 1 next size id) as [H1 _].
  destruct (H1 (conj Hl Hn)) as (id' & _ & Hl' & ->).
  destruct (subnetsLoop_step 0 next size id') as [H2 _].
  destruct (H2 (conj Hl' Hn)) as (id'' & _ & _ & ->).
  cbn [subnetsLoop mbind result_bind]. eexists _, _. reflexivity.
Qed.

(** X6. CalculateSubnets on a descriptor of a prefix length under 32 panics
    (index out of range) exactly when the network id is not of four bytes
    or the prefix length is under -1; otherwise it returns two subnets. *)
Theorem CalculateSubnets_panics (network : NetworkInfo) :
  - 2 ^ 63 <= PrefixLength network < 32 ->
  (CalculateSubnets network = Panic <->
     length (NetworkID network) <> 4%nat \/ PrefixLength network < -1) /\
  (length (NetworkID network) = 4%nat -> -1 <= PrefixLength network ->
     exists first second, CalculateSubnets network = Ok [first; second]).
Proof.
  intros Hp. rewrite (CalculateSubnets_run network Hp).
  assert (Hok : length (NetworkID network) = 4%nat -> -1 <= PrefixLength network ->
                exists first second,
                  subnetsLoop 2 (PrefixLength network + 1)
                    (shl32 1 (uint (int (32 - (PrefixLength network + 1)))))
                    (NetworkID network) = Ok [first; second]).
  { intros Hl Hm. apply subnetsLoop_two; [exact Hl|lia]. }
  split; [|exact Hok]. split.
  - intros HP.
    destruct (Nat.eq_dec (length (NetworkID network)) 4%nat) as [Hl|Hl]; [|left; exact Hl].
    destruct (Z_lt_le_dec (PrefixLength network) (-1)) as [Hm|Hm]; [right; exact Hm|].
    destruct (Hok Hl Hm) as (f & s & E). congruence.
  - intros H. apply subnetsLoop_step. lia.
Qed.

Lemma CalculateSubnets_panics_witness :
  exists first second,
    CalculateSubnets (mkNetworkInfo (net.mkIPNet [10; 0; 0; 0] [255; 0; 0; 0])
                        [10; 0; 0; 0] [10; 255; 255; 255] [255; 0; 0; 0]
                        [0; 255; 255; 255] [10; 0; 0; 1] [10; 255; 255; 254] 16777214 8)
    = Ok [first; second].
Proof.
  refine (proj2 (CalculateSubnets_panics _ _) _ _); cbn; (reflexivity || lia).
Defined.

(** ** The outcomes of ParseCIDR *)

Lemma ParseIP_ParseAddr s ip :
  net.ParseIP s = Some ip <->
  exists a, net.ParseAddr s = Some a /\ net.Zone a = EmptyString /\ ip = net.As16 a.
Proof.
  unfold net.ParseIP. split.
  - destruct (net.ParseAddr s) as [a|]; [|discriminate].
    case_bool_decide; [|discriminate]. intros [= <-]. eauto.
  - intros (a & -> & Hz & ->). rewrite bool_decide_eq_true_2 by exact Hz. reflexivity.
Qed.

Lemma digitsValue_digits s n v :
  strconv.digitsValue s n = Some v -> allDigits s = true.
Proof.
  destruct (allDigits s) eqn:E; [reflexivity|].
  rewrite (digitsValue_allDigits _ n E). discriminate.
Qed.

(** dtoi on a text of digits of a small value. *)
Lemma dtoiLoop_value s : forall n0 i0 n,
  0 <= n0 -> 0 <= i0 -> strconv.digitsValue s n0 = Some n -> n < net.big ->
  s <> EmptyString \/ 0 < i0 ->
  net.dtoiLoop s n0 i0 = (n, i0 + Z.of_nat (String.length s), true).
Proof.
  induction s as [|c s IH]; intros n0 i0 n Hn0 Hi0 Hv Hbig Hne.
  - cbn in Hv |- *. injection Hv as ->. destruct Hne as [Hne|Hne]; [congruence|].
    destruct (Z.eqb_spec i0 0); [lia|]. rewrite Z.add_0_r. reflexivity.
  - cbn [strconv.digitsValue] in Hv. cbn [net.dtoiLoop].
    destruct (net.isDigit c) eqn:Hc; [|discriminate].
    pose proof (proj1 (isDigit_bounds c) Hc) as Hcb.
    assert (H0 : 0 <= n0 * 10 + (net.code c - 48)) by lia.
    pose proof (digitsValue_ge s _ n H0 Hv) as Hge.
    destruct (Z.leb_spec net.big (n0 * 10 + (net.code c - 48))) as [L|_]; [lia|].
    assert (H1 : 0 <= i0 + 1) by lia. assert (H2 : 0 < i0 + 1) by lia.
    rewrite (IH _ (i0 + 1) n H0 H1 Hv Hbig (or_intror H2)).
    cbn [String.length]. f_equal. f_equal. lia.
Qed.

Lemma dtoi_digits s n :
  s <> EmptyString -> strconv.digitsValue s 0 = Some n -> n < net.big ->
  net.dtoi s = (n, Z.of_nat (String.length s), true).
Proof.
  intros Hs Hv Hb. unfold net.dtoi.
  rewrite (dtoiLoop_value s 0 0 n (Z.le_refl 0) (Z.le_refl 0) Hv Hb (or_introl Hs)).
  reflexivity.
Qed.

(** What strconv.Atoi reads: digits, or a sign and digits. *)
Lemma Atoi_inv s n :
  strconv.Atoi s = Some n ->
  (allDigits s = true /\ s <> EmptyString /\ strconv.digitsValue s 0 = Some n /\ 0 <= n) \/
  (allDigits s = false /\ exists c rest, s = String c rest /\ net.isDigit c = false /\
     (c = "+"%char \/ c = "-"%char)).
Proof.
  destruct s as [|c s]; [discriminate|]. unfold strconv.Atoi.
  destruct (net.isDigit c) eqn:Hc.
  - assert (Hm : Ascii.eqb c "-" = false /\ Ascii.eqb c "+" = false).
    { destruct c as [[] [] [] [] [] [] [] []]; try discriminate Hc; split; reflexivity. }
    destruct Hm as [-> ->]. cbn [orb].
    destruct (strconv.digitsValue (String c s) 0) as [v|] eqn:Hv; [|discriminate].
    destruct ((- 2 ^ 63 <=? v) && (v <=? 2 ^ 63 - 1)); [|discriminate].
    intros [= <-]. left. split; [exact (digitsValue_digits _ _ _ Hv)|].
    split; [discriminate|]. split; [reflexivity|].
    exact (digitsValue_nonneg _ _ _ (Z.le_refl 0) Hv).
  - intros H. right. split; [cbn [allDigits]; rewrite Hc; reflexivity|].
    exists c, s. split; [reflexivity|]. split; [exact Hc|].
    destruct (Ascii.eqb_spec c "-") as [->|Hm]; [right; reflexivity|].
    destruct (Ascii.eqb_spec c "+") as [->|Hp]; [left; reflexivity|].
    cbn [orb] in H. cbn [strconv.digitsValue] in H. rewrite Hc in H. discriminate.
Qed.

Lemma dtoi_not_digit c s : net.isDigit c = false -> net.dtoi (String c s) = (0, 0, false).
Proof. intros H. unfold net.dtoi. cbn [net.dtoiLoop]. rewrite H. reflexivity. Qed.

Lemma To4_mapped ip ip4 :
  length ip = 16%nat -> net.To4 ip = Some ip4 ->
  ip = net.v4InV6Prefix ++ ip4 /\ length ip4 = 4%nat.
Proof.
  intros Hl H.
  do 16 (destruct ip as [|? ip]; [discriminate Hl|]).
  destruct ip; [|discriminate Hl].
  unfold net.To4 in H. cbn [length Nat.eqb net.IPv4len net.IPv6len andb take] in H.
  unfold net.isZeros in H. cbn [forallb lookup list_lookup] in H.
  repeat match type of H with
         | context [0 =? ?x] => destruct (Z.eqb_spec 0 x); [subst|discriminate H]
         end.
  cbn [andb] in H.
  repeat case_bool_decide; cbn [andb] in H; try discriminate H.
  injection H as <-.
  repeat match goal with E : Some _ = Some _ |- _ => injection E as -> end.
  split; reflexivity.
Qed.

(** The run of ParseCIDR on a text that passes every check. *)
Lemma ParseCIDR_run cidr ipStr prefixStr a n ip4 :
  strings.SplitSlash cidr = [ipStr; prefixStr] ->
  net.ParseAddr ipStr = Some a -> net.Zone a = EmptyString ->
  net.To4 (net.As16 a) = Some ip4 ->
  strconv.Atoi prefixStr = Some n -> 0 <= n <= 32 ->
  net.dtoi prefixStr = (n, Z.of_nat (String.length prefixStr), true) ->
  let m := net.CIDRMask n (net.BitLen a) in
  let id := zip_with Z.land (addrBytes a) m in
  length m = length (addrBytes a) /\
  net.ParseCIDR cidr = Some (net.As16 a, net.mkIPNet id m) /\
  ParseCIDR cidr = Ok (descriptorOf id m n).
Proof.
  intros Hsplit Haddr Hzone H4 Hatoi Hn Hdtoi m id.
  destruct (parseAddrScan_bytes _ _ _ Haddr) as [Hbytes Hbits].
  assert (Hbl : net.BitLen a = 32 \/ net.BitLen a = 128) by (destruct a; auto).
  destruct (CIDRMask_value n (net.BitLen a) Hbl) as (Hml & Hmb & _); [lia|].
  fold m in Hml, Hmb.
  assert (Hmlen : length m = length (addrBytes a)).
  { rewrite Hml, <- Hbits. rewrite Z.div_mul by lia. apply Nat2Z.id. }
  assert (Hmask : net.Mask (net.As16 a) m = id).
  { unfold id. destruct a as [f|ip6 zone]; cbn [net.As16 addrBytes net.BitLen] in *.
    - apply Mask_v4; lia.
    - apply Mask_v6; lia. }
  assert (Hnet : net.ParseCIDR cidr = Some (net.As16 a, net.mkIPNet id m)).
  { destruct (SplitSlash_two _ _ _ Hsplit) as (_ & _ & _ & Hcut).
    unfold net.ParseCIDR. rewrite Hcut, Haddr.
    rewrite bool_decide_eq_true_2 by exact Hzone. cbn [negb].
    rewrite Hdtoi, Z.eqb_refl. cbn [negb orb].
    destruct (Z.ltb_spec n 0); [lia|].
    destruct (Z.ltb_spec (net.BitLen a) n); [lia|]. cbn [orb].
    fold m. rewrite Hmask. reflexivity. }
  split; [exact Hmlen|]. split; [exact Hnet|].
  unfold ParseCIDR. rewrite (validateCIDRFormat_split _ _ _ Hsplit).
  rewrite (proj2 (ParseIP_ParseAddr ipStr (net.As16 a))) by eauto.
  rewrite H4, Hatoi.
  destruct (Z.ltb_spec n 0); [lia|]. destruct (Z.ltb_spec 32 n); [lia|]. cbn [orb].
  rewrite Hnet, H4. cbn [net.IPNet_IP net.IPNet_Mask].
  assert (Hsize : net.Size m = (n, net.BitLen a)) by (apply Size_CIDRMask; [exact Hbl|lia]).
  rewrite Hsize. cbn [fst].
  unfold calculateBroadcastAddress. rewrite orLoop_ok.
  2:{ unfold calculateWildcardMask, id. rewrite length_map, length_zip_with. lia. }
  reflexivity.
Qed.

(** A prefix that dtoi does not read. *)
Lemma net_ParseCIDR_dtoi cidr ipStr prefixStr :
  strings.SplitSlash cidr = [ipStr; prefixStr] ->
  net.dtoi prefixStr = (0, 0, false) ->
  net.ParseCIDR cidr = None.
Proof.
  intros Hsplit Hdtoi.
  destruct (SplitSlash_two _ _ _ Hsplit) as (_ & _ & _ & Hcut).
  unfold net.ParseCIDR. rewrite Hcut.
  destruct (net.ParseAddr ipStr); [|reflexivity].
  destruct (negb (bool_decide _)); [reflexivity|].
  rewrite Hdtoi. reflexivity.
Qed.

(** Every outcome of ParseCIDR: the error of validateCIDRFormat, the
    error on net.ParseCIDR for a prefix with a sign, or a descriptor. *)
Lemma ParseCIDR_cases cidr :
  (exists e, validateCIDRFormat cidr = Some e /\ ParseCIDR cidr = Err e) \/
  (validateCIDRFormat cidr = None /\
   exists ipStr prefixStr a ip4 n,
     strings.SplitSlash cidr = [ipStr; prefixStr] /\
     net.ParseAddr ipStr = Some a /\ net.Zone a = EmptyString /\
     net.To4 (net.As16 a) = Some ip4 /\
     strconv.Atoi prefixStr = Some n /\ 0 <= n <= 32 /\
     ((allDigits prefixStr = false /\ net.ParseCIDR cidr = None /\
       ParseCIDR cidr = Err (ErrNetParseCIDR cidr)) \/
      (allDigits prefixStr = true /\
       net.dtoi prefixStr = (n, Z.of_nat (String.length prefixStr), true) /\
       let m := net.CIDRMask n (net.BitLen a) in
       let id := zip_with Z.land (addrBytes a) m in
       length m = length (addrBytes a) /\
       net.ParseCIDR cidr = Some (net.As16 a, net.mkIPNet id m) /\
       ParseCIDR cidr = Ok (descriptorOf id m n)))).
Proof.
  destruct (validateCIDRFormat cidr) as [e|] eqn:Hval.
  { left. exists e. split; [reflexivity|]. apply ParseCIDR_invalid, Hval. }
  right. split; [reflexivity|].
  destruct (validateCIDRFormat_ok _ Hval)
    as (ipStr & prefixStr & ip & ip4 & n & Hsplit & Hip & H4 & Hatoi & Hn).
  apply ParseIP_ParseAddr in Hip as (a & Haddr & Hzone & ->).
  exists ipStr, prefixStr, a, ip4, n.
  repeat (split; [assumption|]).
  destruct (Atoi_inv _ _ Hatoi) as [(Hd & Hne & Hv & _)|(Hd & c & rest & -> & Hc & _)].
  - right. split; [exact Hd|].
    assert (Hdtoi : net.dtoi prefixStr = (n, Z.of_nat (String.length prefixStr), true)).
    { apply dtoi_digits; [exact Hne|exact Hv|]. unfold net.big. lia. }
    split; [exact Hdtoi|].
    exact (ParseCIDR_run cidr ipStr prefixStr a n ip4 Hsplit Haddr Hzone H4 Hatoi Hn Hdtoi).
  - left. split; [exact Hd|].
    pose proof (net_ParseCIDR_dtoi cidr ipStr _ Hsplit (dtoi_not_digit c rest Hc)) as HP.
    split; [exact HP|]. unfold ParseCIDR. rewrite Hval, HP. reflexivity.
Qed.

Lemma validateCIDRFormat_errors cidr e :
  validateCIDRFormat cidr = Some e ->
  e <> ErrIPv6CIDR /\ forall c, e <> ErrNetParseCIDR c.
Proof.
  unfold validateCIDRFormat.
  repeat match goal with
         | |- context [match ?x with _ => _ end] => destruct x
         end; intros [= <-]; split; try intros c; discriminate.
Qed.

(** X7. ParseCIDR never panics, whatever the text, and the check on IPv4 it
    makes after net.ParseCIDR never fails: the error "IPv6 is not
    supported, please provide an IPv4 CIDR" is never returned. *)
Theorem ParseCIDR_never_panics (cidr : string) :
  ParseCIDR cidr <> Panic /\ ParseCIDR cidr <> Err ErrIPv6CIDR.
Proof.
  destruct (ParseCIDR_cases cidr)
    as [(e & Hval & ->)|(_ & ipStr & prefixStr & a & ip4 & n & _ & _ & _ & _ & _ & _ & H)].
  - destruct (validateCIDRFormat_errors _ _ Hval) as [H _].
    split; [discriminate|congruence].
  - destruct H as [(_ & _ & ->)|(_ & _ & H)]; [split; discriminate|].
    cbv zeta in H. destruct H as (_ & _ & ->). split; discriminate.
Qed.

(** X8. A text that passes validateCIDRFormat is accepted by ParseCIDR when
    its prefix is made of digits only (leading zeros included); when the
    prefix has a sign, which strconv.Atoi reads, net.ParseCIDR refuses the
    text and ParseCIDR fails with "invalid CIDR notation: ...". *)
Theorem signed_prefix_rejected (cidr ipStr prefixStr : string) :
  validateCIDRFormat cidr = None ->
  strings.SplitSlash cidr = [ipStr; prefixStr] ->
  (allDigits prefixStr = true -> exists info, ParseCIDR cidr = Ok info) /\
  (allDigits prefixStr = false ->
     (exists c rest, prefixStr = String c rest /\ (c = "+"%char \/ c = "-"%char)) /\
     exists n, strconv.Atoi prefixStr = Some n /\ 0 <= n <= 32 /\
     net.ParseCIDR cidr = None /\
     ParseCIDR cidr = Err (ErrNetParseCIDR cidr) /\
     Error (ErrNetParseCIDR cidr) = "invalid CIDR notation: invalid CIDR address: " +:+ cidr).
Proof.
  intros Hval Hsplit.
  destruct (ParseCIDR_cases cidr)
    as [(e & He & _)|(_ & ipStr' & prefixStr' & a & ip4 & n & Hs & _ & _ & _ & Hatoi & Hn & H)];
    [congruence|].
  rewrite Hsplit in Hs. injection Hs as <- <-.
  split; intros Hd.
  - destruct H as [(Hd' & _)|(_ & _ & H)]; [congruence|].
    cbv zeta in H. destruct H as (_ & _ & ->). eauto.
  - destruct H as [(_ & Hnet & HP)|(Hd' & _)]; [|congruence].
    split.
    + destruct (Atoi_inv _ _ Hatoi) as [(Hd' & _)|(_ & c & rest & -> & _ & Hc)];
        [congruence|eauto].
    + exists n. repeat (split; [assumption|]). reflexivity.
Qed.

Lemma signed_prefix_rejected_witness :
  ParseCIDR "10.0.0.0/+8" = Err (ErrNetParseCIDR "10.0.0.0/+8").
Proof.
  destruct (signed_prefix_rejected "10.0.0.0/+8" "10.0.0.0" "+8" eq_refl eq_refl) as [_ H].
  destruct (H eq_refl) as (_ & n & _ & _ & _ & HP & _). exact HP.
Defined.

(** X9. validateCIDRFormat accepts exactly the texts of an address, one slash
    and a prefix where net.ParseIP reads the address as IPv4 (in 16 bytes
    with the IPv4-in-IPv6 prefix) and strconv.Atoi reads the prefix as a
    number from 0 to 32. *)
Theorem validateCIDRFormat_accepts (cidr : string) :
  validateCIDRFormat cidr = None <->
  exists ipStr prefixStr ip4 n,
    cidr = ipStr +:+ "/" +:+ prefixStr /\
    countSlash ipStr = O /\ countSlash prefixStr = O /\
    net.ParseIP ipStr = Some (net.v4InV6Prefix ++ ip4) /\ isIPv4 ip4 = true /\
    strconv.Atoi prefixStr = Some n /\ 0 <= n <= 32.
Proof.
  split.
  - intros Hval.
    destruct (validateCIDRFormat_ok _ Hval)
      as (ipStr & prefixStr & ip & ip4 & n & Hsplit & Hip & H4 & Hatoi & Hn).
    destruct (SplitSlash_two _ _ _ Hsplit) as (Hc & Hi & Hp & _).
    exists ipStr, prefixStr, ip4, n.
    pose proof Hip as Hip'.
    apply ParseIP_ParseAddr in Hip' as (a & Haddr & Hzone & ->).
    destruct (parseAddrScan_bytes _ _ _ Haddr) as [Hbytes Hbits].
    assert (Hl : length (net.As16 a) = 16%nat /\ isBytes (net.As16 a) = true).
    { destruct a as [f|ip6 z]; cbn [net.As16 addrBytes net.BitLen] in *.
      - rewrite length_app, isBytes_app, Hbytes. split; [cbn; lia|reflexivity].
      - split; [lia|exact Hbytes]. }
    destruct Hl as [Hl Hb].
    destruct (To4_mapped _ _ Hl H4) as [E Hl4].
    repeat (split; [assumption|]).
    split; [rewrite Hip, E at 1; reflexivity|].
    split; [|split; assumption].
    rewrite E, isBytes_app in Hb. apply andb_true_iff in Hb as [_ Hb].
    unfold isIPv4. rewrite Hl4, Hb. reflexivity.
  - intros (ipStr & prefixStr & ip4 & n & -> & Hi & Hp & Hip & H4 & Hatoi & Hn).
    rewrite (validateCIDRFormat_split _ _ _ (SplitSlash_join ipStr prefixStr Hi Hp)).
    rewrite Hip.
    destruct (isIPv4_inv _ H4) as (x0 & x1 & x2 & x3 & -> & _).
    rewrite (proj2 (String_mapped x0 x1 x2 x3)), Hatoi.
    destruct (Z.ltb_spec n 0); [lia|]. destruct (Z.ltb_spec 32 n); [lia|]. reflexivity.
Qed.

(** ** Accepted texts *)

Lemma ParseAddr_string4 a b c d :
  0 <= a < 256 -> 0 <= b < 256 -> 0 <= c < 256 -> 0 <= d < 256 ->
  net.ParseAddr (net.string4 [a; b; c; d]) = Some (net.Addr4 [a; b; c; d]).
Proof.
  intros Ha Hb Hc Hd. unfold net.ParseAddr.
  pose proof (parseIPv4_string4 a b c d Ha Hb Hc Hd) as Hp.
  rewrite string4_parts in *.
  rewrite parseAddrScan_digits by (apply appendDecimal_digits; assumption).
  rewrite Hp. reflexivity.
Qed.

Lemma string4_countSlash a b c d :
  0 <= a < 256 -> 0 <= b < 256 -> 0 <= c < 256 -> 0 <= d < 256 ->
  countSlash (net.string4 [a; b; c; d]) = O.
Proof.
  intros Ha Hb Hc Hd.
  change (net.string4 [a; b; c; d])
    with (net.appendDecimal a +:+ "." +:+ net.appendDecimal b +:+ "."
          +:+ net.appendDecimal c +:+ "." +:+ net.appendDecimal d).
  rewrite !countSlash_app.
  rewrite (allDigits_countSlash _ (proj1 (appendDecimal_digits a Ha))),
    (allDigits_countSlash _ (proj1 (appendDecimal_digits b Hb))),
    (allDigits_countSlash _ (proj1 (appendDecimal_digits c Hc))),
    (allDigits_countSlash _ (proj1 (appendDecimal_digits d Hd))).
  reflexivity.
Qed.

(** The decimal text of a prefix length is read back by strconv.Atoi and
    by dtoi. *)
Lemma Itoa_prefix p :
  0 <= p <= 32 ->
  allDigits (strconv.Itoa p) = true /\
  strconv.Atoi (strconv.Itoa p) = Some p /\
  net.dtoi (strconv.Itoa p) = (p, Z.of_nat (String.length (strconv.Itoa p)), true) /\
  countSlash (strconv.Itoa p) = O.
Proof.
  intros Hp.
  pose proof (range_check
    (fun p => allDigits (strconv.Itoa p)
              && match strconv.Atoi (strconv.Itoa p) with
                 | Some v => v =? p
                 | None => false
                 end) 0 33 eq_refl p ltac:(lia)) as H.
  cbv beta in H. apply andb_true_iff in H as [Hd Ha].
  destruct (strconv.Atoi (strconv.Itoa p)) as [v|] eqn:Hatoi; [|discriminate].
  apply Z.eqb_eq in Ha as ->.
  split; [exact Hd|]. split; [reflexivity|]. split; [|apply allDigits_countSlash, Hd].
  destruct (Atoi_inv _ _ Hatoi) as [(_ & Hne & Hv & _)|(Hd' & _)]; [|congruence].
  apply dtoi_digits; [exact Hne|exact Hv|]. unfold net.big. lia.
Qed.

Lemma ParseCIDR_string4 a b c d p :
  0 <= a < 256 -> 0 <= b < 256 -> 0 <= c < 256 -> 0 <= d < 256 -> 0 <= p <= 32 ->
  ParseCIDR (net.string4 [a; b; c; d] +:+ "/" +:+ strconv.Itoa p)
  = Ok (descriptorOf (zip_with Z.land [a; b; c; d] (net.CIDRMask p 32))
          (net.CIDRMask p 32) p).
Proof.
  intros Ha Hb Hc Hd Hp.
  destruct (Itoa_prefix p Hp) as (_ & Hatoi & Hdtoi & Hcount).
  pose proof (SplitSlash_join _ _ (string4_countSlash a b c d Ha Hb Hc Hd) Hcount) as Hsplit.
  destruct (ParseCIDR_run _ _ _ (net.Addr4 [a; b; c; d]) p [a; b; c; d] Hsplit
              (ParseAddr_string4 a b c d Ha Hb Hc Hd) eq_refl eq_refl Hatoi Hp Hdtoi)
    as (_ & _ & H).
  exact H.
Qed.

Lemma descriptorOf_fields id m p :
  NetworkID (descriptorOf id m p) = id /\
  SubnetMask (descriptorOf id m p) = m /\
  WildcardMask (descriptorOf id m p) = calculateWildcardMask m /\
  BroadcastAddr (descriptorOf id m p) = zip_with Z.lor id (calculateWildcardMask m) /\
  PrefixLength (descriptorOf id m p) = p /\
  Network (descriptorOf id m p) = net.mkIPNet id m.
Proof.
  unfold descriptorOf.
  match goal with |- context [calculateUsableRange ?x] =>
    destruct (calculateUsableRange_frame x) as (-> & -> & -> & -> & -> & ->) end.
  repeat split; reflexivity.
Qed.

Lemma land_idempotent x m : zip_with Z.land (zip_with Z.land x m) m = zip_with Z.land x m.
Proof.
  revert m. induction x as [|b x IH]; intros [|w m]; try reflexivity.
  cbn [zip_with]. rewrite <- Z.land_assoc, Z.land_diag, IH. reflexivity.
Qed.

(** X10. ParseCIDR accepts every canonical dotted address followed by a slash
    and the decimal text of a prefix length from 0 to 32, and the
    descriptor has that prefix length and the masked address as network
    id. *)
Theorem ParseCIDR_canonical_accepted (s : string) (p : Z) :
  canonicalDotted s -> 0 <= p <= 32 ->
  exists ip info,
    isIPv4 ip = true /\ net.ParseIP s = Some (net.v4InV6Prefix ++ ip) /\
    ParseCIDR (s +:+ "/" +:+ strconv.Itoa p) = Ok info /\
    PrefixLength info = p /\
    SubnetMask info = net.CIDRMask p 32 /\
    NetworkID info = zip_with Z.land ip (net.CIDRMask p 32) /\
    descriptorInvariant info.
Proof.
  intros (o1 & o2 & o3 & o4 & H1 & H2 & H3 & H4 & ->) Hp.
  apply octetText_byte in H1 as (a & Ha & ->).
  apply octetText_byte in H2 as (b & Hb & ->).
  apply octetText_byte in H3 as (c & Hc & ->).
  apply octetText_byte in H4 as (d & Hd & ->).
  pose proof (ParseCIDR_string4 a b c d p Ha Hb Hc Hd Hp) as HP.
  change (net.string4 [a; b; c; d])
    with (net.appendDecimal a +:+ "." +:+ net.appendDecimal b +:+ "."
          +:+ net.appendDecimal c +:+ "." +:+ net.appendDecimal d) in HP.
  destruct (descriptorOf_fields (zip_with Z.land [a; b; c; d] (net.CIDRMask p 32))
              (net.CIDRMask p 32) p) as (Hid & Hm & _ & _ & Hpl & _).
  eexists [a; b; c; d], _.
  split; [apply isIPv4_intro; assumption|].
  split; [apply (ParseIP_string4 a b c d); assumption|].
  split; [exact HP|]. split; [exact Hpl|]. split; [exact Hm|]. split; [exact Hid|].
  apply (ParseCIDR_descriptorInvariant _ _ HP).
  rewrite Hid, length_zip_with.
  destruct (CIDRMask_value p 32 (or_introl eq_refl) Hp) as (-> & _). reflexivity.
Qed.

Lemma ParseCIDR_canonical_accepted_witness :
  exists ip info,
    net.ParseIP "10.20.30.40" = Some (net.v4InV6Prefix ++ ip) /\
    ParseCIDR ("10.20.30.40" +:+ "/" +:+ strconv.Itoa 12) = Ok info /\
    NetworkID info = zip_with Z.land ip (net.CIDRMask 12 32).
Proof.
  destruct (ParseCIDR_canonical_accepted "10.20.30.40" 12) as (ip & info & H).
  - exists "10", "20", "30", "40". repeat split; reflexivity.
  - lia.
  - exists ip, info. destruct H as (_ & H1 & H2 & _ & _ & H3 & _).
    split; [exact H1|]. split; [exact H2|exact H3].
Defined.

(** X11. The descriptor of a parsed IPv4 block is the one ParseCIDR gives for
    the text of its network id and prefix length: parsing the canonical
    form of a block changes nothing. *)
Theorem ParseCIDR_canonical_fixpoint (cidr : string) (info : NetworkInfo) :
  ParseCIDR cidr = Ok info -> length (NetworkID info) = 4%nat ->
  ParseCIDR (net.String_ (NetworkID info) +:+ "/" +:+ strconv.Itoa (PrefixLength info))
  = Ok info.
Proof.
  intros HP Hl.
  destruct (ParseCIDR_cases cidr)
    as [(e & _ & He)|(_ & ipStr & prefixStr & a & ip4 & n & _ & Haddr & _ & _ & _ & Hn & H)];
    [congruence|].
  destruct H as [(_ & _ & He)|(_ & _ & H)]; [congruence|].
  cbv zeta in H. destruct H as (Hml & _ & HP').
  rewrite HP in HP'. injection HP' as ->.
  destruct (descriptorOf_fields (zip_with Z.land (addrBytes a) (net.CIDRMask n (net.BitLen a)))
              (net.CIDRMask n (net.BitLen a)) n) as (Hid & _ & _ & _ & Hpl & _).
  rewrite Hid in Hl |- *. rewrite Hpl.
  destruct (parseAddrScan_bytes _ _ _ Haddr) as [Hbytes Hbits].
  rewrite length_zip_with in Hl.
  assert (Hb32 : net.BitLen a = 32) by lia.
  rewrite Hb32 in *.
  destruct (CIDRMask_value n 32 (or_introl eq_refl) Hn) as (_ & Hmb & _).
  set (m := net.CIDRMask n 32) in *.
  assert (H4 : isIPv4 (zip_with Z.land (addrBytes a) m) = true).
  { unfold isIPv4. rewrite length_zip_with.
    rewrite isBytes_land by assumption.
    replace (length (addrBytes a) `min` length m)%nat with 4%nat by lia. reflexivity. }
  rewrite String_ipv4 by exact H4.
  destruct (isIPv4_inv _ H4) as (x0 & x1 & x2 & x3 & E & B0 & B1 & B2 & B3).
  rewrite E at 1.
  rewrite (ParseCIDR_string4 x0 x1 x2 x3 n B0 B1 B2 B3 Hn). fold m.
  rewrite <- E, land_idempotent. reflexivity.
Qed.

Lemma ParseCIDR_canonical_fixpoint_witness :
  exists info,
    ParseCIDR "192.168.1.77/24" = Ok info /\
    ParseCIDR (net.String_ (NetworkID info) +:+ "/" +:+ strconv.Itoa (PrefixLength info))
    = Ok info.
Proof.
  eexists. split; [reflexivity|].
  apply (ParseCIDR_canonical_fixpoint "192.168.1.77/24"); reflexivity.
Defined.

(** ** The subnets as blocks of their own *)

(** An address on a boundary of the blocks of a prefix length is its own
    network id. *)
Lemma aligned_land x q :
  isIPv4 x = true -> 0 <= q <= 32 -> ipValue x mod 2 ^ (32 - q) = 0 ->
  zip_with Z.land x (net.CIDRMask q 32) = x.
Proof.
  intros Hx Hq Hal.
  destruct (CIDRMask_value q 32 (or_introl eq_refl) Hq) as (Hml & Hmb & _).
  destruct (isIPv4_parts _ Hx) as [Hl Hb].
  pose proof (ipValue_bounds _ Hb) as Hv. rewrite Hl in Hv.
  change (256 ^ Z.of_nat 4) with (2 ^ 32) in Hv.
  apply ipValue_inj4; [|exact Hx|].
  { unfold isIPv4. rewrite length_zip_with, isBytes_land by assumption.
    rewrite Hl, Hml. reflexivity. }
  rewrite ipValue_land by (assumption || (rewrite Hl, Hml; reflexivity)).
  apply Z.bits_inj'. intros i Hi. rewrite Z.land_spec.
  destruct (Z.testbit (ipValue x) i) eqn:Hbit; [|reflexivity]. cbn [andb].
  destruct (Z_lt_le_dec i 32) as [L|L].
  - replace i with (32 - 1 - (31 - i)) by lia.
    rewrite CIDRMask_bits by (auto || lia).
    apply Z.ltb_lt.
    destruct (Z_lt_le_dec i (32 - q)) as [L'|L']; [|lia].
    rewrite <- (Z.mod_pow2_bits_low (ipValue x) (32 - q) i), Hal, Z.bits_0 in Hbit by lia.
    discriminate.
  - rewrite (Z.bits_above_log2 (ipValue x) i) in Hbit; [discriminate|lia|].
    destruct (Z.eq_dec (ipValue x) 0) as [E|E]; [rewrite E; cbn; lia|].
    apply Z.log2_lt_pow2; [lia|]. apply Z.lt_le_trans with (2 ^ 32); [lia|].
    apply Z.pow_le_mono_r; lia.
Qed.

Lemma half_block v p :
  0 <= p < 32 -> v mod 2 ^ (32 - p) = 0 -> 0 <= v -> v + 2 ^ (32 - p) <= 2 ^ 32 ->
  v mod 2 ^ (32 - (p + 1)) = 0 /\
  (v + 2 ^ (32 - (p + 1))) mod 2 ^ 32 = v + 2 ^ (32 - (p + 1)) /\
  (v + 2 ^ (32 - (p + 1))) mod 2 ^ (32 - (p + 1)) = 0.
Proof.
  intros Hp Hal Hv Hle.
  assert (E : 2 ^ (32 - p) = 2 * 2 ^ (32 - (p + 1))).
  { rewrite <- Z.pow_succ_r by lia. f_equal. lia. }
  assert (Hs : 0 < 2 ^ (32 - (p + 1))) by (apply Z.pow_pos_nonneg; lia).
  set (s := 2 ^ (32 - (p + 1))) in *.
  apply Z.mod_divide in Hal; [|lia]. destruct Hal as [k Hk]. rewrite E in Hk.
  assert (H1 : v mod s = 0).
  { rewrite Hk. replace (k * (2 * s)) with (k * 2 * s) by lia. apply Z.mod_mul. lia. }
  split; [exact H1|]. split.
  - apply Z.mod_small. lia.
  - rewrite Hk. replace (k * (2 * s) + s) with ((k * 2 + 1) * s) by lia.
    apply Z.mod_mul. lia.
Qed.

Lemma child_reparse x next :
  isIPv4 x = true -> 0 <= next <= 32 -> ipValue x mod 2 ^ (32 - next) = 0 ->
  exists info,
    ParseCIDR (net.string4 x +:+ "/" +:+ strconv.Itoa next) = Ok info /\
    NetworkID info = x /\
    BroadcastAddr info
      = zip_with Z.lor x (calculateWildcardMask (net.CIDRMask next 32)) /\
    SubnetMask info = net.CIDRMask next 32 /\
    PrefixLength info = next.
Proof.
  intros Hx Hn Hal. pose proof (aligned_land x next Hx Hn Hal) as Hland.
  destruct (isIPv4_inv _ Hx) as (x0 & x1 & x2 & x3 & E & B0 & B1 & B2 & B3).
  rewrite E in *.
  rewrite (ParseCIDR_string4 x0 x1 x2 x3 next B0 B1 B2 B3 Hn), Hland.
  destruct (descriptorOf_fields [x0; x1; x2; x3] (net.CIDRMask next 32) next)
    as (Hid & Hm & _ & Hbc & Hpl & _).
  eexists. split; [reflexivity|]. repeat split; assumption.
Qed.

(** X12. Each of the two subnets that CalculateSubnets returns for a valid
    IPv4 descriptor is a block of its own: ParseCIDR accepts its CIDR
    text and gives a descriptor with the same network id and broadcast
    address, and the next prefix length. *)
Theorem subnets_reparse (network : NetworkInfo) :
  descriptorInvariant network -> PrefixLength network <= 31 ->
  exists first second,
    CalculateSubnets network = Ok [first; second] /\
    forall child, child = first \/ child = second ->
      exists info,
        ParseCIDR (CIDR child) = Ok info /\
        NetworkID info = SubnetNetworkID child /\
        BroadcastAddr info = SubnetBroadcastAddr child /\
        PrefixLength info = PrefixLength network + 1.
Proof.
  intros Hinv Hp.
  destruct (descriptor_block _ Hinv) as (Hal & Hv & Hle & _).
  destruct Hinv as (Hid & Hrange & _).
  destruct (CalculateSubnets_children network Hid ltac:(lia))
    as (second & _ & H2 & Hv2 & ->).
  destruct (half_block _ (PrefixLength network) ltac:(lia) Hal Hv Hle) as (A1 & A2 & A3).
  eexists _, _. split; [reflexivity|].
  intros child [-> | ->]; cbn [CIDR SubnetNetworkID SubnetBroadcastAddr].
  - destruct (child_reparse (NetworkID network) (PrefixLength network + 1) Hid
                ltac:(lia) A1) as (info & H & Hn & Hb & _ & Hl).
    exists info. repeat split; assumption.
  - rewrite A2 in Hv2.
    destruct (child_reparse second (PrefixLength network + 1) H2
                ltac:(lia) ltac:(rewrite Hv2; exact A3)) as (info & H & Hn & Hb & _ & Hl).
    exists info. repeat split; assumption.
Qed.

Lemma subnets_reparse_witness :
  exists first second,
    CalculateSubnets (mkNetworkInfo (net.mkIPNet [192; 168; 1; 0] [255; 255; 255; 0])
                        [192; 168; 1; 0] [192; 168; 1; 255] [255; 255; 255; 0]
                        [0; 0; 0; 255] [192; 168; 1; 1] [192; 168; 1; 254] 254 24)
    = Ok [first; second] /\
    exists info, ParseCIDR (CIDR second) = Ok info /\
                 BroadcastAddr info = SubnetBroadcastAddr second.
Proof.
  destruct (subnets_reparse
              (mkNetworkInfo (net.mkIPNet [192; 168; 1; 0] [255; 255; 255; 0])
                 [192; 168; 1; 0] [192; 168; 1; 255] [255; 255; 255; 0]
                 [0; 0; 0; 255] [192; 168; 1; 1] [192; 168; 1; 254] 254 24))
    as (first & second & H & Hc).
  - repeat split; (reflexivity || (cbn; lia)).
  - cbn. lia.
  - exists first, second. split; [exact H|].
    destruct (Hc second (or_intror eq_refl)) as (info & H1 & _ & H2 & _).
    exists info. split; [exact H1|exact H2].
Defined.

(** ** The usable range as a count *)

Lemma ipValue_increment ip :
  isIPv4 ip = true -> ipValue (incrementIP ip) = (ipValue ip + 1) mod 2 ^ 32.
Proof.
  intros H. destruct (isIPv4_inv _ H) as (a & b & c & d & -> & Ha & Hb & Hc & Hd).
  destruct (incrementIP4 a b c d Ha Hb Hc Hd) as (a' & b' & c' & d' & -> & _ & E).
  exact E.
Qed.

Lemma ipValue_decrement ip :
  isIPv4 ip = true -> ipValue (decrementIP ip) = (ipValue ip - 1) mod 2 ^ 32.
Proof.
  intros H. destruct (isIPv4_inv _ H) as (a & b & c & d & -> & Ha & Hb & Hc & Hd).
  destruct (decrementIP4 a b c d Ha Hb Hc Hd) as (a' & b' & c' & d' & -> & _ & E).
  exact E.
Qed.

(** X13. For every IPv4 block that ParseCIDR accepts, the usable range lies in
    the block, from the first to the last usable address, and TotalHosts
    is the number of addresses of that range; up to /30 the range is the
    block without its network id and its broadcast address. *)
Theorem usable_range_count (cidr : string) (info : NetworkInfo) :
  ParseCIDR cidr = Ok info -> length (NetworkID info) = 4%nat ->
  ipValue (NetworkID info) <= ipValue (FirstUsableIP info) /\
  ipValue (FirstUsableIP info) <= ipValue (LastUsableIP info) /\
  ipValue (LastUsableIP info) <= ipValue (BroadcastAddr info) /\
  TotalHosts info = ipValue (LastUsableIP info) - ipValue (FirstUsableIP info) + 1 /\
  ipValue (BroadcastAddr info) - ipValue (NetworkID info) + 1
    = 2 ^ (32 - PrefixLength info) /\
  (PrefixLength info <= 30 ->
     ipValue (FirstUsableIP info) = ipValue (NetworkID info) + 1 /\
     ipValue (LastUsableIP info) = ipValue (BroadcastAddr info) - 1).
Proof.
  intros HP Hl.
  pose proof (ParseCIDR_descriptorInvariant _ _ HP Hl) as Hinv.
  destruct (ParseCIDR_ok _ _ HP)
    as (_ & _ & _ & _ & _ & _ & _ & _ & _ & _ & _ & _ & _ & (P32 & P31 & P30)).
  destruct (descriptor_block _ Hinv) as (_ & Hv & Hle & Hb).
  cbv zeta in Hle, Hb.
  destruct Hinv as (Hid & Hrange & Hm & Hw & _ & Hbc).
  assert (Hbid : isIPv4 (BroadcastAddr info) = true).
  { destruct (wildcard_value (PrefixLength info) Hrange) as (Lw & Bw & _).
    cbv zeta in Lw, Bw. rewrite <- Hm, <- Hw in Lw, Bw.
    destruct (isIPv4_parts _ Hid) as [Li Bi].
    unfold isIPv4. rewrite Hbc, length_zip_with, isBytes_lor by assumption.
    rewrite Li, Lw. reflexivity. }
  destruct (Z.eq_dec (PrefixLength info) 32) as [E32|N32].
  { destruct (P32 E32) as (-> & -> & ->). rewrite E32 in *.
    change (2 ^ (32 - 32)) with 1 in *. repeat split; lia. }
  destruct (Z.eq_dec (PrefixLength info) 31) as [E31|N31].
  { destruct (P31 E31) as (-> & -> & ->). rewrite E31 in *.
    change (2 ^ (32 - 31)) with 2 in *. repeat split; lia. }
  destruct (P30 ltac:(lia)) as (-> & -> & ->).
  assert (Hs : 4 <= 2 ^ (32 - PrefixLength info)).
  { change 4 with (2 ^ 2). apply Z.pow_le_mono_r; lia. }
  rewrite ipValue_increment, ipValue_decrement by assumption.
  rewrite !Z.mod_small by lia.
  repeat split; lia.
Qed.

Lemma usable_range_count_witness :
  exists info,
    ParseCIDR "10.1.2.3/22" = Ok info /\
    TotalHosts info = ipValue (LastUsableIP info) - ipValue (FirstUsableIP info) + 1.
Proof.
  eexists. split; [reflexivity|].
  destruct (usable_range_count "10.1.2.3/22" _ eq_refl eq_refl) as (_ & _ & _ & H & _).
  exact H.
Defined.

(** ** The block as a set of addresses *)

(** Masking keeps the multiples of the block size. *)
Lemma land_mask_block x p :
  0 <= x < 2 ^ 32 -> 0 <= p <= 32 ->
  Z.land x (ipValue (net.CIDRMask p 32)) = 2 ^ (32 - p) * (x / 2 ^ (32 - p)).
Proof.
  intros Hx Hp. apply Z.bits_inj'. intros i Hi. rewrite Z.land_spec.
  destruct (Z_lt_le_dec i (32 - p)) as [L|L].
  - rewrite Z.mul_comm, Z.mul_pow2_bits_low by lia.
    replace i with (32 - 1 - (31 - i)) at 2 by lia.
    rewrite CIDRMask_bits by (auto || lia).
    destruct (Z.ltb_spec (31 - i) p); [lia|]. apply andb_false_r.
  - rewrite Z.mul_comm, Z.mul_pow2_bits, Z.div_pow2_bits by lia.
    replace (i - (32 - p) + (32 - p)) with i by lia.
    destruct (Z_lt_le_dec i 32) as [L'|L'].
    + replace i with (32 - 1 - (31 - i)) at 2 by lia.
      rewrite CIDRMask_bits by (auto || lia).
      destruct (Z.ltb_spec (31 - i) p); [|lia]. apply andb_true_r.
    + assert (Z.testbit x i = false) as ->; [|reflexivity].
      destruct (Z.eq_dec x 0) as [->|E]; [apply Z.bits_0|].
      apply Z.bits_above_log2; [lia|].
      apply Z.log2_lt_pow2; [lia|]. apply Z.lt_le_trans with (2 ^ 32); [lia|].
      apply Z.pow_le_mono_r; lia.
Qed.

(** X18. The block of a descriptor that ParseCIDR returns for an IPv4 text,
    from the network id to the broadcast address, holds exactly the
    addresses that the subnet mask sends to the network id. *)
Theorem block_membership (cidr : string) (info : NetworkInfo) (x : Z) :
  ParseCIDR cidr = Ok info -> length (NetworkID info) = 4%nat -> 0 <= x < 2 ^ 32 ->
  (inNetwork x info <->
   Z.land x (ipValue (SubnetMask info)) = ipValue (NetworkID info)).
Proof.
  intros HP Hl Hx.
  pose proof (ParseCIDR_descriptorInvariant _ _ HP Hl) as Hinv.
  destruct (descriptor_block _ Hinv) as (Hal & Hv & Hle & Hb). cbv zeta in Hal, Hle, Hb.
  destruct Hinv as (_ & Hrange & -> & _).
  rewrite (land_mask_block x _ Hx Hrange).
  unfold inNetwork. rewrite Hb.
  assert (Hs : 0 < 2 ^ (32 - PrefixLength info)) by (apply Z.pow_pos_nonneg; lia).
  set (s := 2 ^ (32 - PrefixLength info)) in *.
  apply Z.mod_divide in Hal; [|lia]. destruct Hal as [k Hk].
  pose proof (Z.div_mod x s ltac:(lia)) as Hdm.
  pose proof (Z.mod_pos_bound x s Hs) as Hm.
  split.
  - intros [H1 H2]. rewrite Hk in *.
    assert (x / s = k) as ->; [|lia].
    symmetry. apply (Z.div_unique x s k (x - k * s)); lia.
  - intros E. lia.
Qed.

Lemma block_membership_witness :
  exists info,
    ParseCIDR "192.168.1.77/24" = Ok info /\
    (inNetwork (ipValue [192; 168; 1; 200]) info <->
     Z.land (ipValue [192; 168; 1; 200]) (ipValue (SubnetMask info))
     = ipValue (NetworkID info)).
Proof.
  eexists. split; [reflexivity|].
  apply (block_membership "192.168.1.77/24"); [reflexivity|reflexivity|].
  vm_compute. split; [discriminate|reflexivity].
Defined.

(** ** ParseCIDR followed by CalculateSubnets *)

(** X19. On a descriptor that ParseCIDR returns, CalculateSubnets panics
    (index out of range) exactly when the address of the text is written
    as an IPv6 literal, which validateCIDRFormat lets through when it is
    IPv4-mapped, and the prefix length is under 32; for an address in the
    dotted form it returns its list of subnets. *)
Theorem ParseCIDR_CalculateSubnets (cidr : string) (info : NetworkInfo) :
  ParseCIDR cidr = Ok info ->
  exists ipStr prefixStr a,
    strings.SplitSlash cidr = [ipStr; prefixStr] /\
    net.ParseAddr ipStr = Some a /\
    (CalculateSubnets info = Panic <->
       (exists ip zone, a = net.Addr6 ip zone) /\ PrefixLength info < 32) /\
    ((exists fields, a = net.Addr4 fields) ->
       exists subnets, CalculateSubnets info = Ok subnets /\
         length subnets = if PrefixLength info =? 32 then O else 2%nat).
Proof.
  intros HP.
  destruct (ParseCIDR_cases cidr)
    as [(e & _ & He)|(_ & ipStr & prefixStr & a & ip4 & n & Hsplit & Haddr & _ & _ & _ & Hn & H)];
    [congruence|].
  destruct H as [(_ & _ & He)|(_ & _ & H)]; [congruence|].
  cbv zeta in H. destruct H as (Hml & _ & HP').
  rewrite HP in HP'. injection HP' as ->.
  exists ipStr, prefixStr, a. split; [exact Hsplit|]. split; [exact Haddr|].
  destruct (descriptorOf_fields (zip_with Z.land (addrBytes a) (net.CIDRMask n (net.BitLen a)))
              (net.CIDRMask n (net.BitLen a)) n) as (Hid & _ & _ & _ & Hpl & _).
  set (info := descriptorOf _ _ n) in *.
  destruct (parseAddrScan_bytes _ _ _ Haddr) as [_ Hbits].
  assert (Hlen : length (NetworkID info) = length (addrBytes a)).
  { rewrite Hid, length_zip_with. lia. }
  rewrite Hpl.
  destruct (Z.eq_dec n 32) as [->|Hne].
  - assert (E : CalculateSubnets info = Ok []).
    { unfold CalculateSubnets. rewrite Hpl. reflexivity. }
    rewrite E. split.
    + split; [discriminate|]. intros [_ L]. lia.
    + intros _. exists []. split; reflexivity.
  - rewrite (CalculateSubnets_run info ltac:(rewrite Hpl; lia)), Hpl.
    destruct (Z.eqb_spec n 32) as [|_]; [lia|].
    destruct a as [f|ip6 zone]; cbn [addrBytes net.BitLen] in *.
    + destruct (subnetsLoop_two (n + 1) (shl32 1 (uint (int (32 - (n + 1)))))
                  (NetworkID info) ltac:(lia) ltac:(lia)) as (f1 & f2 & E).
      rewrite E. split.
      * split; [discriminate|]. intros [(ip & zone & E') _]. discriminate E'.
      * intros _. exists [f1; f2]. split; reflexivity.
    + assert (E : subnetsLoop 2 (n + 1) (shl32 1 (uint (int (32 - (n + 1)))))
                    (NetworkID info) = Panic) by (apply subnetsLoop_step; lia).
      rewrite E. split.
      * split; [intros _; split; [eauto|lia]|reflexivity].
      * intros (fields & E'). discriminate E'.
Qed.

Lemma ParseCIDR_CalculateSubnets_witness :
  exists info,
    ParseCIDR "::ffff:10.0.0.0/8" = Ok info /\ CalculateSubnets info = Panic.
Proof.
  eexists. split; [reflexivity|].
  destruct (ParseCIDR_CalculateSubnets "::ffff:10.0.0.0/8" _ eq_refl)
    as (ipStr & prefixStr & a & Hs & Ha & Hiff & _).
  apply Hiff. injection Hs as <- <-.
  split; [|vm_compute; reflexivity].
  vm_compute in Ha. injection Ha as <-. eauto.
Defined.

(** ** ValidateCIDR and the Validate methods *)

Lemma cutSlash_Some s a m :
  net.cutSlash s = Some (a, m) ->
  s = a +:+ "/" +:+ m /\ countSlash a = O /\ strings.ContainsSlash s = true.
Proof.
  revert a. induction s as [|c s IH]; intros a H; [discriminate|].
  cbn [net.cutSlash] in H. cbn [strings.ContainsSlash countSlash].
  destruct (Ascii.eqb_spec c "/") as [->|Hc].
  - injection H as <- <-. repeat split; reflexivity.
  - destruct (net.cutSlash s) as [[a' m']|]; [|discriminate].
    cbn in H. injection H as <- <-. destruct (IH a' eq_refl) as (-> & Ha & Hs).
    cbn [countSlash]. destruct (Ascii.eqb_spec c "/"); [congruence|].
    rewrite Hs, orb_true_r. repeat split; assumption.
Qed.

(** What net.ParseCIDR accepts. *)
Lemma net_ParseCIDR_inv s ip ipNet :
  net.ParseCIDR s = Some (ip, ipNet) ->
  exists addr mask a n,
    strings.SplitSlash s = [addr; mask] /\
    net.ParseAddr addr = Some a /\ net.Zone a = EmptyString /\ ip = net.As16 a /\
    net.dtoi mask = (n, Z.of_nat (String.length mask), true) /\
    strconv.Atoi mask = Some n /\ 0 <= n <= net.BitLen a.
Proof.
  unfold net.ParseCIDR. intros H.
  destruct (net.cutSlash s) as [[addr mask]|] eqn:Hcut; [|discriminate].
  destruct (net.ParseAddr addr) as [a|] eqn:Haddr; [|discriminate].
  case_bool_decide as Hz; [|discriminate]. cbn [negb] in H.
  destruct (net.dtoi mask) as [[n i] ok] eqn:Hdtoi.
  destruct ok; [|discriminate]. cbn [negb orb] in H.
  destruct (Z.eqb_spec i (Z.of_nat (String.length mask))) as [->|]; [|discriminate].
  cbn [negb orb] in H.
  destruct (Z.ltb_spec n 0); [discriminate|].
  destruct (Z.ltb_spec (net.BitLen a) n); [discriminate|]. cbn [orb] in H.
  injection H as <- _.
  pose proof (dtoi_Atoi _ _ Hdtoi) as Hatoi.
  destruct (dtoiLoop_digits mask 0 0 n _ Hdtoi ltac:(lia)) as (Hv & _).
  pose proof (allDigits_countSlash _ (digitsValue_digits _ _ _ Hv)) as Hm.
  destruct (cutSlash_Some _ _ _ Hcut) as (-> & Ha & _).
  exists addr, mask, a, n.
  split; [apply SplitSlash_join; assumption|].
  repeat (split; [assumption || reflexivity|]). lia.
Qed.

Lemma ValidateCIDR_net cidr :
  ValidateCIDR cidr = None <-> exists r, net.ParseCIDR cidr = Some r.
Proof.
  unfold ValidateCIDR. split.
  - case_bool_decide; [discriminate|].
    destruct (strings.ContainsSlash cidr); [|discriminate]. cbn [negb].
    destruct (net.ParseCIDR cidr) as [r|]; [eauto|discriminate].
  - intros (r & Hr). rewrite Hr.
    unfold net.ParseCIDR in Hr.
    destruct (net.cutSlash cidr) as [[addr mask]|] eqn:Hcut; [|discriminate].
    destruct (cutSlash_Some _ _ _ Hcut) as (E & _ & ->).
    rewrite bool_decide_eq_false_2; [reflexivity|].
    intros ->. discriminate Hcut.
Qed.

Lemma ParseCIDR_ValidateCIDR cidr info :
  ParseCIDR cidr = Ok info -> ValidateCIDR cidr = None.
Proof.
  intros HP. apply ValidateCIDR_net.
  destruct (ParseCIDR_cases cidr)
    as [(e & _ & He)|(_ & ipStr & prefixStr & a & ip4 & n & _ & _ & _ & _ & _ & _ & H)];
    [congruence|].
  destruct H as [(_ & _ & He)|(_ & _ & H)]; [congruence|].
  cbv zeta in H. destruct H as (_ & H & _). eauto.
Qed.

(** X14. ValidateCIDR accepts exactly the texts that net.ParseCIDR reads: its
    checks for an empty text and for a slash only choose the message. It
    accepts every text that ParseCIDR accepts; a text it accepts and
    ParseCIDR refuses is an IPv6 block, or an IPv4-mapped IPv6 address
    with a prefix from 33 to 128. *)
Theorem ValidateCIDR_accepts (cidr : string) :
  (ValidateCIDR cidr = None <-> exists r, net.ParseCIDR cidr = Some r) /\
  (forall info, ParseCIDR cidr = Ok info -> ValidateCIDR cidr = None) /\
  (ValidateCIDR cidr = None ->
     (exists info, ParseCIDR cidr = Ok info) \/
     ParseCIDR cidr = Err ErrIPv6Address \/
     exists n, 32 < n <= 128 /\ ParseCIDR cidr = Err (ErrPrefixRange n)).
Proof.
  split; [apply ValidateCIDR_net|]. split; [apply ParseCIDR_ValidateCIDR|].
  intros H. apply ValidateCIDR_net in H as ([ip ipNet] & Hnet).
  destruct (net_ParseCIDR_inv _ _ _ Hnet)
    as (addr & mask & a & n & Hsplit & Haddr & Hzone & -> & Hdtoi & Hatoi & Hn).
  pose proof (validateCIDRFormat_split _ _ _ Hsplit) as Hval.
  rewrite (proj2 (ParseIP_ParseAddr addr (net.As16 a))) in Hval by eauto.
  rewrite Hatoi in Hval.
  destruct (net.To4 (net.As16 a)) as [ip4|] eqn:H4.
  - destruct (Z.ltb_spec n 0); [lia|]. cbn [orb] in Hval.
    destruct (Z.ltb_spec 32 n) as [L|L].
    + right; right. exists n. split; [|apply ParseCIDR_invalid, Hval].
      destruct a; cbn [net.BitLen] in Hn; lia.
    + left.
      destruct (ParseCIDR_run cidr addr mask a n ip4 Hsplit Haddr Hzone H4 Hatoi
                  ltac:(lia) Hdtoi) as (_ & _ & HP).
      eauto.
  - right; left. apply ParseCIDR_invalid, Hval.
Qed.

Lemma emptyIsNil_nilTest : nilTest emptyIsNil.
Proof. intros [|b s] H; [congruence|reflexivity]. Qed.

(** X15. Every descriptor that ParseCIDR returns passes Validate, whatever
    the test [== nil] answers on empty slices: the slices it tests have
    four bytes or more. *)
Theorem ParseCIDR_Validate (isNil : list Z -> bool) (cidr : string) (info : NetworkInfo) :
  nilTest isNil ->
  ParseCIDR cidr = Ok info -> NetworkInfo_Validate isNil info = None.
Proof.
  intros Htest HP.
  destruct (ParseCIDR_cases cidr)
    as [(e & _ & He)|(_ & ipStr & prefixStr & a & ip4 & n & _ & Haddr & _ & _ & _ & Hn & H)];
    [congruence|].
  destruct H as [(_ & _ & He)|(_ & _ & H)]; [congruence|].
  cbv zeta in H. destruct H as (Hml & _ & HP').
  rewrite HP in HP'. injection HP' as ->.
  destruct (descriptorOf_fields (zip_with Z.land (addrBytes a) (net.CIDRMask n (net.BitLen a)))
              (net.CIDRMask n (net.BitLen a)) n) as (Hid & Hm & _ & Hbc & Hpl & _).
  destruct (parseAddrScan_bytes _ _ _ Haddr) as [_ Hbits].
  assert (Hlen : (4 <= length (addrBytes a))%nat) by (destruct a; cbn [net.BitLen] in Hbits; lia).
  unfold NetworkInfo_Validate. rewrite Hid, Hm, Hbc, Hpl.
  set (m := net.CIDRMask n (net.BitLen a)) in *.
  assert (Hnil : forall l : list Z, (4 <= length l)%nat -> isNil l = false).
  { intros l L. apply Htest. intros ->. cbn in L. lia. }
  rewrite !Hnil.
  - destruct (Z.ltb_spec n 0); [lia|]. destruct (Z.ltb_spec 32 n); [lia|]. reflexivity.
  - lia.
  - unfold calculateWildcardMask. rewrite !length_zip_with, length_map. lia.
  - rewrite length_zip_with. lia.
Qed.

Lemma ParseCIDR_Validate_witness :
  exists info,
    ParseCIDR "172.16.5.4/12" = Ok info /\ NetworkInfo_Validate emptyIsNil info = None.
Proof.
  eexists. split; [reflexivity|].
  apply (ParseCIDR_Validate emptyIsNil "172.16.5.4/12");
    [exact emptyIsNil_nilTest|reflexivity].
Defined.

(** X16. Both subnets that CalculateSubnets returns for a 4-byte network id
    and a prefix length from 0 to 31 pass Validate, whatever the test
    [== nil] answers on empty slices: their CIDR text is read by
    net.ParseCIDR and their addresses have four bytes. *)
Theorem subnets_Validate (isNil : list Z -> bool) (network : NetworkInfo) :
  nilTest isNil ->
  isIPv4 (NetworkID network) = true -> 0 <= PrefixLength network < 32 ->
  exists first second,
    CalculateSubnets network = Ok [first; second] /\
    SubnetInfo_Validate isNil first = None /\ SubnetInfo_Validate isNil second = None.
Proof.
  intros Htest Hid Hp.
  destruct (CalculateSubnets_children network Hid Hp) as (second & _ & H2 & _ & ->).
  assert (Hchild : forall x, isIPv4 x = true ->
            SubnetInfo_Validate isNil
              (mkSubnetInfo x (net.string4 x +:+ "/" +:+ strconv.Itoa (PrefixLength network + 1))
                 (zip_with Z.lor x
                    (calculateWildcardMask (net.CIDRMask (PrefixLength network + 1) 32))))
            = None).
  { intros x Hx.
    destruct (wildcard_value (PrefixLength network + 1) ltac:(lia)) as (Lw & _).
    cbv zeta in Lw.
    destruct (isIPv4_inv _ Hx) as (x0 & x1 & x2 & x3 & -> & B0 & B1 & B2 & B3).
    pose proof (ParseCIDR_string4 x0 x1 x2 x3 (PrefixLength network + 1)
                  B0 B1 B2 B3 ltac:(lia)) as HP.
    unfold SubnetInfo_Validate. cbn [SubnetNetworkID CIDR SubnetBroadcastAddr].
    rewrite (Htest [x0; x1; x2; x3]) by discriminate.
    rewrite (ParseCIDR_ValidateCIDR _ _ HP).
    rewrite bool_decide_eq_false_2.
    2:{ intros E. rewrite E in HP. discriminate HP. }
    destruct (calculateWildcardMask _) as [|w ws]; [discriminate Lw|].
    cbn [zip_with]. rewrite Htest by discriminate. reflexivity. }
  eexists _, _. split; [reflexivity|]. split; apply Hchild; assumption.
Qed.

Lemma subnets_Validate_witness :
  exists first second,
    CalculateSubnets (mkNetworkInfo (net.mkIPNet [10; 0; 0; 0] [255; 0; 0; 0])
                        [10; 0; 0; 0] [10; 255; 255; 255] [255; 0; 0; 0]
                        [0; 255; 255; 255] [10; 0; 0; 1] [10; 255; 255; 254] 16777214 8)
    = Ok [first; second] /\
    SubnetInfo_Validate emptyIsNil first = None /\
    SubnetInfo_Validate emptyIsNil second = None.
Proof.
  apply subnets_Validate; [exact emptyIsNil_nilTest|reflexivity|cbn; lia].
Defined.

(** ** validateConfig *)

Lemma sliceFrom_app stem suf : cli.sliceFrom (String.length stem) (stem +:+ suf) = suf.
Proof. induction stem as [|c stem IH]; [reflexivity|exact IH]. Qed.

Lemma length_append a b :
  String.length (a +:+ b) = (String.length a + String.length b)%nat.
Proof.
  induction a as [|c a IH]; [reflexivity|].
  change (String c a +:+ b) with (String c (a +:+ b)).
  cbn [String.length]. rewrite IH. reflexivity.
Qed.

(** A text is its first [k] bytes followed by the rest. *)
Lemma sliceFrom_split k s :
  (k <= String.length s)%nat ->
  exists stem, s = stem +:+ cli.sliceFrom k s /\ String.length stem = k.
Proof.
  revert s. induction k as [|k IH]; intros s Hk.
  - exists EmptyString. split; reflexivity.
  - destruct s as [|c s]; [cbn in Hk; lia|].
    destruct (IH s ltac:(cbn in Hk; lia)) as (stem & E & Hl).
    exists (String c stem). split; [|cbn; lia].
    cbn [cli.sliceFrom]. change (String c stem +:+ ?x) with (String c (stem +:+ x)).
    f_equal. exact E.
Qed.

Lemma HasSuffix_spec s suf :
  cli.HasSuffix s suf = true <-> exists stem, s = stem +:+ suf.
Proof.
  unfold cli.HasSuffix. split.
  - intros H. apply andb_true_iff in H as [Hl H]. apply Nat.leb_le in Hl.
    apply bool_decide_eq_true in H.
    destruct (sliceFrom_split (String.length s - String.length suf) s ltac:(lia))
      as (stem & E & _).
    exists stem. rewrite H in E. exact E.
  - intros (stem & ->). rewrite length_append.
    replace (String.length stem + String.length suf - String.length suf)%nat
      with (String.length stem) by lia.
    rewrite sliceFrom_app. rewrite bool_decide_eq_true_2 by reflexivity.
    rewrite andb_true_r. apply Nat.leb_le. lia.
Qed.

Lemma lowerASCII_app a b : cli.lowerASCII (a +:+ b) = cli.lowerASCII a +:+ cli.lowerASCII b.
Proof.
  induction a as [|c a IH]; [reflexivity|].
  change (String c a +:+ b) with (String c (a +:+ b)).
  cbn [cli.lowerASCII]. rewrite IH. reflexivity.
Qed.

Lemma length_lowerASCII s : String.length (cli.lowerASCII s) = String.length s.
Proof. induction s as [|c s IH]; [reflexivity|]. cbn. f_equal. exact IH. Qed.

Lemma lowerASCII_sliceFrom k s :
  cli.sliceFrom k (cli.lowerASCII s) = cli.lowerASCII (cli.sliceFrom k s).
Proof.
  revert s. induction k as [|k IH]; intros s; [reflexivity|].
  destruct s as [|c s]; [reflexivity|]. cbn [cli.lowerASCII cli.sliceFrom]. apply IH.
Qed.

Lemma lowerASCII_noUpper s : cli.hasUpper s = false -> cli.lowerASCII s = s.
Proof.
  induction s as [|c s IH]; [reflexivity|]. cbn [cli.hasUpper cli.lowerASCII].
  intros H. apply orb_false_iff in H as [-> H]. rewrite IH by exact H. reflexivity.
Qed.

Lemma ToLower_ASCII mapLower s :
  cli.isASCII s = true -> cli.ToLower mapLower s = cli.lowerASCII s.
Proof.
  intros H. unfold cli.ToLower. rewrite H.
  destruct (cli.hasUpper s) eqn:E; [reflexivity|].
  symmetry. apply lowerASCII_noUpper, E.
Qed.

(** A suffix of the lowered name is the lowered form of a suffix of the
    name. *)
Lemma HasSuffix_lower s suf :
  cli.HasSuffix (cli.lowerASCII s) suf = true <->
  exists stem ext, s = stem +:+ ext /\ cli.lowerASCII ext = suf.
Proof.
  split.
  - unfold cli.HasSuffix. rewrite length_lowerASCII. intros H.
    apply andb_true_iff in H as [Hl H]. apply Nat.leb_le in Hl.
    apply bool_decide_eq_true in H. rewrite lowerASCII_sliceFrom in H.
    destruct (sliceFrom_split (String.length s - String.length suf) s ltac:(lia))
      as (stem & E & _).
    eauto.
  - intros (stem & ext & -> & <-). rewrite lowerASCII_app.
    apply HasSuffix_spec. eauto.
Qed.

(** X17. validateConfig on a name of ASCII bytes: a configuration without an
    output file is accepted whatever the flag; with an output file it is
    accepted exactly when the flag for HTML is set for a name with the
    extension .html or .htm, in any case of the letters, and not set for
    any other name. *)
Theorem validateConfig_accepts (mapLower : string -> string) (config : cli.Config) :
  cli.isASCII (cli.OutputFile config) = true ->
  (cli.OutputFile config = EmptyString -> cli.validateConfig mapLower config = None) /\
  (cli.OutputFile config <> EmptyString ->
     (cli.validateConfig mapLower config = None <->
        (cli.HTMLOutput config = true <-> htmlExtension (cli.OutputFile config))) /\
     (cli.validateConfig mapLower config = Some cli.ErrHTMLNeedsExtension <->
        cli.HTMLOutput config = true /\ ~ htmlExtension (cli.OutputFile config)) /\
     (cli.validateConfig mapLower config = Some cli.ErrExtensionNeedsHTML <->
        cli.HTMLOutput config = false /\ htmlExtension (cli.OutputFile config))).
Proof.
  intros Hascii. unfold cli.validateConfig. rewrite (ToLower_ASCII _ _ Hascii).
  assert (Hext : htmlExtension (cli.OutputFile config) <->
            cli.HasSuffix (cli.lowerASCII (cli.OutputFile config)) ".html"
            || cli.HasSuffix (cli.lowerASCII (cli.OutputFile config)) ".htm" = true).
  { rewrite orb_true_iff, !HasSuffix_lower. unfold htmlExtension. split.
    - intros (stem & ext & E & [H|H]); [left|right]; eauto.
    - intros [(stem & ext & E & H)|(stem & ext & E & H)]; eauto. }
  split.
  - intros ->. rewrite bool_decide_eq_true_2 by reflexivity.
    cbn [negb]. rewrite !andb_false_r. reflexivity.
  - intros Hne. rewrite bool_decide_eq_false_2 by exact Hne. cbn [negb].
    rewrite !andb_true_r. cbv zeta. rewrite <- negb_orb.
    destruct (cli.HasSuffix (cli.lowerASCII (cli.OutputFile config)) ".html"
              || cli.HasSuffix (cli.lowerASCII (cli.OutputFile config)) ".htm") eqn:E;
      destruct (cli.HTMLOutput config); cbn [negb andb];
      repeat split; try tauto; try discriminate; try congruence;
      try (intros; exfalso; intuition congruence);
      intuition (try congruence; try discriminate).
Qed.

Lemma validateConfig_accepts_witness :
  cli.validateConfig id (cli.mkConfig "10.0.0.0/8" "Report.HTML" true false) = None.
Proof.
  destruct (validateConfig_accepts id (cli.mkConfig "10.0.0.0/8" "Report.HTML" true false)
              eq_refl) as [_ H].
  destruct (H ltac:(discriminate)) as (H1 & _).
  apply H1. split; [|reflexivity].
  intros _. exists "Report", ".HTML". split; [reflexivity|left; reflexivity].
Defined.

(** ** A prefix of digits of any size *)

(** strconv.Atoi on a text of digits: the value, unless it does not fit
    an int. *)
Lemma Atoi_digits s v :
  s <> EmptyString -> strconv.digitsValue s 0 = Some v ->
  strconv.Atoi s = if v <=? 2 ^ 63 - 1 then Some v else None.
Proof.
  intros Hs Hv. destruct s as [|c s]; [congruence|].
  pose proof (digitsValue_nonneg _ _ _ (Z.le_refl 0) Hv) as H0.
  assert (Hc : net.isDigit c = true).
  { cbn [strconv.digitsValue] in Hv. destruct (net.isDigit c); [reflexivity|discriminate]. }
  assert (Hm : Ascii.eqb c "-" = false /\ Ascii.eqb c "+" = false).
  { destruct c as [[] [] [] [] [] [] [] []]; try discriminate Hc; split; reflexivity. }
  unfold strconv.Atoi. destruct Hm as [-> ->]. cbn [orb]. rewrite Hv.
  destruct (Z.leb_spec (- 2 ^ 63) v); [|lia]. reflexivity.
Qed.

Lemma digits_prefix_accepted cidr ipStr prefixStr :
  validateCIDRFormat cidr = None ->
  strings.SplitSlash cidr = [ipStr; prefixStr] ->
  allDigits prefixStr = true -> exists info, ParseCIDR cidr = Ok info.
Proof.
  intros Hval Hsplit Hd.
  destruct (ParseCIDR_cases cidr)
    as [(e & He & _)|(_ & ipStr' & prefixStr' & a & ip4 & n & Hs & _ & _ & _ & _ & _ & H)];
    [congruence|].
  rewrite Hsplit in Hs. injection Hs as <- <-.
  destruct H as [(Hd' & _)|(_ & _ & H)]; [congruence|].
  cbv zeta in H. destruct H as (_ & _ & ->). eauto.
Qed.

(** X20. With an IPv4 address before the slash, a prefix of digits only
    is judged by its value: up to 32 the text passes validateCIDRFormat,
    from 33 to the largest int ParseCIDR fails with the error on the
    range of the prefix length, and over the largest int, where
    strconv.Atoi fails, with the error "invalid prefix length", which
    names the text as not a number. *)
Theorem digits_prefix_outcomes (ipStr prefixStr : string) (ip ip4 : net.IP) (v : Z) :
  countSlash ipStr = O ->
  net.ParseIP ipStr = Some ip -> net.To4 ip = Some ip4 ->
  prefixStr <> EmptyString -> strconv.digitsValue prefixStr 0 = Some v ->
  let cidr := ipStr +:+ "/" +:+ prefixStr in
  (v <= 32 -> validateCIDRFormat cidr = None /\ exists info, ParseCIDR cidr = Ok info) /\
  (32 < v <= 2 ^ 63 - 1 -> ParseCIDR cidr = Err (ErrPrefixRange v)) /\
  (2 ^ 63 - 1 < v ->
     ParseCIDR cidr = Err (ErrInvalidPrefix prefixStr) /\
     Error (ErrInvalidPrefix prefixStr)
     = "invalid prefix length: " +:+ prefixStr +:+ " (must be a number between 0 and 32)").
Proof.
  intros Hi Hip H4 Hne Hv cidr.
  pose proof (digitsValue_nonneg _ _ _ (Z.le_refl 0) Hv) as H0.
  pose proof (allDigits_countSlash _ (digitsValue_digits _ _ _ Hv)) as Hp.
  pose proof (SplitSlash_join ipStr prefixStr Hi Hp) as Hsplit.
  pose proof (validateCIDRFormat_split _ _ _ Hsplit) as Hval.
  rewrite Hip, H4, (Atoi_digits _ _ Hne Hv) in Hval. fold cidr in Hval, Hsplit.
  split; [|split].
  - intros Hle. destruct (Z.leb_spec v (2 ^ 63 - 1)); [|lia].
    destruct (Z.ltb_spec v 0); [lia|]. destruct (Z.ltb_spec 32 v); [lia|].
    cbn [orb] in Hval. split; [exact Hval|].
    destruct (digits_prefix_accepted cidr ipStr prefixStr Hval Hsplit
                (digitsValue_digits _ _ _ Hv)) as (info & E).
    eauto.
  - intros [H1 H2]. destruct (Z.leb_spec v (2 ^ 63 - 1)); [|lia].
    destruct (Z.ltb_spec v 0); [lia|]. destruct (Z.ltb_spec 32 v); [|lia].
    cbn [orb] in Hval. apply ParseCIDR_invalid, Hval.
  - intros H1. destruct (Z.leb_spec v (2 ^ 63 - 1)); [lia|].
    split; [apply ParseCIDR_invalid, Hval|reflexivity].
Qed.

Lemma digits_prefix_outcomes_witness :
  ParseCIDR ("10.0.0.0" +:+ "/" +:+ "99999999999999999999")
  = Err (ErrInvalidPrefix "99999999999999999999").
Proof.
  destruct (digits_prefix_outcomes "10.0.0.0" "99999999999999999999"
              (net.v4InV6Prefix ++ [10; 0; 0; 0]) [10; 0; 0; 0] 99999999999999999999
              eq_refl eq_refl eq_refl ltac:(discriminate) eq_refl) as (_ & _ & H).
  destruct (H ltac:(lia)) as [H1 _]. exact H1.
Defined.

(** ** Every address of a block names the block *)

Lemma block_land x n p :
  0 <= p <= 32 -> 0 <= x < 2 ^ 32 ->
  n mod 2 ^ (32 - p) = 0 -> n <= x <= n + 2 ^ (32 - p) - 1 ->
  Z.land x (ipValue (net.CIDRMask p 32)) = n.
Proof.
  intros Hp Hx Hal Hin. rewrite (land_mask_block x p Hx Hp).
  assert (Hs : 0 < 2 ^ (32 - p)) by (apply Z.pow_pos_nonneg; lia).
  set (s := 2 ^ (32 - p)) in *.
  apply Z.mod_divide in Hal; [|lia]. destruct Hal as [k Hk]. rewrite Hk in *.
  assert (x / s = k) as ->; [|lia].
  symmetry. apply (Z.div_unique x s k (x - k * s)); lia.
Qed.

(** An IPv4 descriptor of ParseCIDR is built from its network id and its
    prefix length. *)
Lemma ParseCIDR_descriptorOf cidr info :
  ParseCIDR cidr = Ok info -> length (NetworkID info) = 4%nat ->
  info = descriptorOf (NetworkID info) (net.CIDRMask (PrefixLength info) 32)
           (PrefixLength info).
Proof.
  intros HP Hl.
  destruct (ParseCIDR_cases cidr)
    as [(e & _ & He)|(_ & ipStr & prefixStr & a & ip4 & n & _ & Haddr & _ & _ & _ & Hn & H)];
    [congruence|].
  destruct H as [(_ & _ & He)|(_ & _ & H)]; [congruence|].
  cbv zeta in H. destruct H as (Hml & _ & HP').
  rewrite HP in HP'. injection HP' as ->.
  destruct (descriptorOf_fields (zip_with Z.land (addrBytes a) (net.CIDRMask n (net.BitLen a)))
              (net.CIDRMask n (net.BitLen a)) n) as (Hid & _ & _ & _ & Hpl & _).
  rewrite Hid in Hl |- *. rewrite Hpl.
  destruct (parseAddrScan_bytes _ _ _ Haddr) as [_ Hbits].
  rewrite length_zip_with in Hl.
  assert (Hb32 : net.BitLen a = 32) by lia.
  rewrite Hb32. reflexivity.
Qed.

(** X21. For an IPv4 descriptor that ParseCIDR returns, the text of any
    address of its block, from the network id to the broadcast address,
    with the same prefix length is parsed to the same descriptor: the
    host bits of the address never show in the result. *)
Theorem same_block_same_descriptor (cidr : string) (info : NetworkInfo) (ip : net.IP) :
  ParseCIDR cidr = Ok info -> length (NetworkID info) = 4%nat ->
  isIPv4 ip = true -> inNetwork (ipValue ip) info ->
  ParseCIDR (net.String_ ip +:+ "/" +:+ strconv.Itoa (PrefixLength info)) = Ok info.
Proof.
  intros HP Hl Hip Hin.
  pose proof (ParseCIDR_descriptorInvariant _ _ HP Hl) as Hinv.
  destruct (descriptor_block _ Hinv) as (Hal & _ & _ & Hb). cbv zeta in Hal, Hb.
  destruct Hinv as (Hid & Hrange & Hm & _).
  pose proof (ParseCIDR_descriptorOf _ _ HP Hl) as Hdesc.
  rewrite String_ipv4 by assumption.
  destruct (isIPv4_parts _ Hip) as [Lip Bip].
  pose proof (ipValue_bounds _ Bip) as Hx. rewrite Lip in Hx.
  change (256 ^ Z.of_nat 4) with (2 ^ 32) in Hx.
  destruct (CIDRMask_value (PrefixLength info) 32 (or_introl eq_refl) Hrange)
    as (Hml & Hmb & _).
  assert (Hland : zip_with Z.land ip (net.CIDRMask (PrefixLength info) 32) = NetworkID info).
  { apply ipValue_inj4; [|exact Hid|].
    - unfold isIPv4. rewrite length_zip_with, isBytes_land by assumption.
      rewrite Lip, Hml. reflexivity.
    - rewrite ipValue_land by (assumption || (rewrite Lip, Hml; reflexivity)).
      unfold inNetwork in Hin. rewrite Hb in Hin.
      apply block_land; assumption. }
  destruct (isIPv4_inv _ Hip) as (x0 & x1 & x2 & x3 & E & B0 & B1 & B2 & B3).
  rewrite E at 1.
  rewrite (ParseCIDR_string4 x0 x1 x2 x3 _ B0 B1 B2 B3 Hrange), <- E, Hland.
  rewrite <- Hdesc. reflexivity.
Qed.

Lemma same_block_same_descriptor_witness :
  exists info,
    ParseCIDR "192.168.1.0/24" = Ok info /\
    ParseCIDR (net.String_ [192; 168; 1; 200] +:+ "/" +:+ strconv.Itoa (PrefixLength info))
    = Ok info.
Proof.
  eexists. split; [reflexivity|].
  apply (same_block_same_descriptor "192.168.1.0/24"); try reflexivity.
  vm_compute. split; discriminate.
Defined.
